(** * Backport: a shallow embedding of the GitHub action and its properties

    The development follows the three source files of the action:
    - [src/utils.ts] and [src/get-files-to-skip.ts]: the comma-list parsers;
    - [src/backport.ts]: the label parser, the per-target backport procedure,
      the failure comment, the branch cleanup and the orchestrating loop.

    JavaScript strings are modelled by [string]; a character stands for a
    code unit below 256.  Numbers that hold pull request numbers are
    naturals ([N]).  Calls to the outside (the [git] client, the GitHub
    REST API, the log of the runner) are threaded through a small
    state-and-exception monad whose state records every call made and whose
    answers come from an arbitrary deterministic environment. *)

From Stdlib Require Import String Ascii List NArith ZArith Bool Lia DecimalString Permutation.
Import ListNotations.
Open Scope string_scope.
Open Scope list_scope.

(** ** JavaScript strings and arrays *)

Module JS.

(** [WhiteSpace] and [LineTerminator] of ECMAScript, restricted to code
    units below 256: TAB, LF, VT, FF, CR, SP and NBSP. *)
Definition isWhiteSpace (c : ascii) : bool :=
  existsb (N.eqb (N_of_ascii c)) [9; 10; 11; 12; 13; 32; 160]%N.

Fixpoint trimStart (s : string) : string :=
  match s with
  | "" => ""
  | String c r => if isWhiteSpace c then trimStart r else s
  end.

Fixpoint trimEnd (s : string) : string :=
  match s with
  | "" => ""
  | String c r =>
      match trimEnd r with
      | "" => if isWhiteSpace c then "" else String c ""
      | r' => String c r'
      end
  end.

(** [String.prototype.trim] *)
Definition trim (s : string) : string := trimEnd (trimStart s).

(** [s.split(sep)] for a separator of one character: never empty. *)
Fixpoint split (sep : ascii) (s : string) : list string :=
  match s with
  | "" => [""]
  | String c r =>
      if Ascii.eqb c sep then "" :: split sep r
      else match split sep r with
           | [] => [String c ""]
           | h :: t => String c h :: t
           end
  end.

(** A string is truthy when it is not empty. *)
Definition truthy (s : string) : bool := negb (s =? "").

(** [arr.indexOf(x)]: the first index holding [x], or [-1]. *)
Fixpoint indexOf_from (i : nat) (l : list string) (x : string) : Z :=
  match l with
  | [] => (-1)%Z
  | y :: t => if y =? x then Z.of_nat i else indexOf_from (S i) t x
  end.

Definition indexOf (l : list string) (x : string) : Z := indexOf_from 0 l x.

(** [arr.filter((item, idx, arr) => ...)] *)
Fixpoint filter_from {A} (f : A -> nat -> bool) (i : nat) (l : list A) : list A :=
  match l with
  | [] => []
  | x :: t => if f x i then x :: filter_from f (S i) t else filter_from f (S i) t
  end.

Definition filter3 {A} (f : A -> nat -> list A -> bool) (l : list A) : list A :=
  filter_from (fun x i => f x i l) 0 l.

(** [arr.join(sep)] *)
Definition join (sep : string) (l : list string) : string := String.concat sep l.

(** Template-literal conversion of a non-negative integer. *)
Definition Number_toString (n : N) : string := NilZero.string_of_uint (N.to_uint n).

(** First and last code unit tests, used to speak about trimmed strings. *)
Definition startsWithWhiteSpace (s : string) : bool :=
  match s with
  | "" => false
  | String c _ => isWhiteSpace c
  end.

Fixpoint endsWithWhiteSpace (s : string) : bool :=
  match s with
  | "" => false
  | String c "" => isWhiteSpace c
  | String _ r => endsWithWhiteSpace r
  end.

(** [String(x)] for a value of type [string | null]. *)
Definition String_ofNullable (x : option string) : string :=
  match x with
  | Some s => s
  | None => "null"
  end.

Fixpoint drop (n : nat) (s : string) : string :=
  match n, s with
  | S k, String _ r => drop k r
  | _, _ => s
  end.

(** [GetSubstitution] of ECMAScript for a pattern without capture groups:
    [$$] is a dollar sign, [$&] the matched text, [$`] the text before the
    match and [$'] the text after it; [$n] and [$<] stay as they are, and
    so does a dollar sign followed by anything else. *)
Fixpoint getSubstitution (matched before after replacement : string) : string :=
  match replacement with
  | "" => ""
  | String d rest =>
      if Ascii.eqb d "$" then
        match rest with
        | "" => String d ""
        | String c r =>
            if Ascii.eqb c "$" then String "$" (getSubstitution matched before after r)
            else if Ascii.eqb c "&" then matched ++ getSubstitution matched before after r
            else if Ascii.eqb c "`" then before ++ getSubstitution matched before after r
            else if Ascii.eqb c "'" then after ++ getSubstitution matched before after r
            else String d (getSubstitution matched before after rest)
        end
      else String d (getSubstitution matched before after rest)
  end%string.

(** [s.replace(new RegExp(escapeRegExp(pattern), "g"), replacement)] for a
    pattern that is not empty: the escaped pattern matches its own text and
    nothing else, the matches are taken from left to right and do not
    overlap, and each is replaced by the substitution computed against the
    string the method was called on.  [skip] counts the characters of a
    match still to be passed over, [before] is the text already read. *)
Fixpoint replaceFrom (pattern replacement : string) (skip : nat)
    (before s : string) : string :=
  match s with
  | "" => ""
  | String c r =>
      match skip with
      | S k => replaceFrom pattern replacement k (before ++ String c "") r
      | O =>
          if prefix pattern s then
            getSubstitution pattern before (drop (String.length pattern) s) replacement
            ++ replaceFrom pattern replacement (String.length pattern - 1)
                 (before ++ String c "") r
          else
            String c (replaceFrom pattern replacement 0 (before ++ String c "") r)
      end
  end%string.

Definition replaceGlobal (pattern replacement s : string) : string :=
  replaceFrom pattern replacement 0 "" s.

(** The text obtained by putting [value] in place of every occurrence of
    [pattern], read from left to right. *)
Fixpoint substituteFrom (pattern value : string) (skip : nat) (s : string) : string :=
  match s with
  | "" => ""
  | String c r =>
      match skip with
      | S k => substituteFrom pattern value k r
      | O =>
          if prefix pattern s then
            value ++ substituteFrom pattern value (String.length pattern - 1) r
          else String c (substituteFrom pattern value 0 r)
      end
  end%string.

Definition substituteAll (pattern value s : string) : string :=
  substituteFrom pattern value 0 s.

Fixpoint contains (c : ascii) (s : string) : bool :=
  match s with
  | "" => false
  | String d r => Ascii.eqb d c || contains c r
  end.

(** *** Ordinary objects used as maps from strings to strings

    An object created by [{}] is the list of its own properties in the
    order of their creation.  Its prototype is [Object.prototype], so
    [__proto__] names the accessor found there: assigning a string to it
    runs the setter, which ignores every value that is neither an object
    nor [null], and no own property appears. *)
Module Obj.

Definition t := list (string * string).

Definition empty : t := [].

Fixpoint defineOwn (k v : string) (o : t) : t :=
  match o with
  | [] => [(k, v)]
  | (k', v') :: r =>
      if k' =? k then (k, v) :: r else (k', v') :: defineOwn k v r
  end.

(** [o[k] = v] *)
Definition set (k v : string) (o : t) : t :=
  if k =? "__proto__" then o else defineOwn k v o.

(** The own property [k], if any. *)
Fixpoint getOwn (k : string) (o : t) : option string :=
  match o with
  | [] => None
  | (k', v) :: r => if k' =? k then Some v else getOwn k r
  end.

Definition digitValue (c : ascii) : option N :=
  let n := N_of_ascii c in
  if (48 <=? n)%N && (n <=? 57)%N then Some (n - 48)%N else None.

Fixpoint parseDigits (acc : N) (s : string) : option N :=
  match s with
  | "" => Some acc
  | String c r =>
      match digitValue c with
      | Some d => parseDigits (10 * acc + d)%N r
      | None => None
      end
  end.

(** An array index is a canonical numeric string whose value is at most
    [2^32 - 2]. *)
Definition arrayIndex (k : string) : option N :=
  match k with
  | "" => None
  | _ =>
      match parseDigits 0 k with
      | Some n =>
          if (Number_toString n =? k) && (n <=? 4294967294)%N then Some n else None
      | None => None
      end
  end.

Fixpoint insertByIndex (e : N * (string * string)) (l : list (N * (string * string)))
    : list (N * (string * string)) :=
  match l with
  | [] => [e]
  | e' :: r => if (fst e <=? fst e')%N then e :: l else e' :: insertByIndex e r
  end.

Definition indexed (o : t) : list (N * (string * string)) :=
  fold_right
    (fun kv acc =>
       match arrayIndex (fst kv) with
       | Some n => insertByIndex (n, kv) acc
       | None => acc
       end)
    [] o.

Definition named (o : t) : t :=
  filter (fun kv => match arrayIndex (fst kv) with Some _ => false | None => true end) o.

(** [Object.entries(o)]: array indices in ascending order, then the other
    keys in the order of their creation. *)
Definition entries (o : t) : list (string * string) :=
  map snd (indexed o) ++ named o.

(** [Object.keys(o)] *)
Definition keys (o : t) : list string := map fst (entries o).

End Obj.

End JS.

(** ** The list parsers ([src/utils.ts], [src/get-files-to-skip.ts]) *)

(** [input?.split?.(",").map(trim).filter(item => item)
      .filter((item, idx, labels) => labels.indexOf(item) === idx) ?? []] *)
Definition parseCommaDelimitedStrings (input : option string) : list string :=
  match input with
  | None => []
  | Some s =>
      JS.filter3
        (fun item idx labels => Z.eqb (JS.indexOf labels item) (Z.of_nat idx))
        (filter JS.truthy (map JS.trim (JS.split "," s)))
  end.

Definition getFilesToSkip (input : option string) : list string :=
  match input with
  | None => []
  | Some s =>
      if s =? "" then []
      else filter (fun v => negb (v =? "")) (map JS.trim (JS.split "," s))
  end.

(** The entries of the input before any deduplication. *)
Definition trimmedEntries (input : option string) : list string :=
  match input with
  | None => []
  | Some s => filter JS.truthy (map JS.trim (JS.split "," s))
  end.

(** The same filter, written with the list of values already seen. *)
Fixpoint firstOccurrences (seen l : list string) : list string :=
  match l with
  | [] => []
  | x :: t =>
      if existsb (String.eqb x) seen then firstOccurrences seen t
      else x :: firstOccurrences (x :: seen) t
  end.


(** ** The label parser ([src/backport.ts], lines 9 to 61) *)

(** A thrown value is an [Error] object or something else. *)
Inductive thrown : Type :=
| ErrorObject (name message : string)
| NonError (typeofValue : string).

Inductive result (A : Type) : Type :=
| Ok (a : A)
| Throw (t : thrown).

Arguments Ok {A} a.
Arguments Throw {A} t.

Definition TypeError (message : string) : thrown := ErrorObject "TypeError" message.

Fixpoint stripPrefix (p s : string) : option string :=
  match p, s with
  | "", _ => Some s
  | String a p', String b s' => if Ascii.eqb a b then stripPrefix p' s' else None
  | String _ _, "" => None
  end.

(** The longest prefix made of characters of the class, and what follows. *)
Fixpoint span (cls : ascii -> bool) (s : string) : string * string :=
  match s with
  | "" => ("", "")
  | String c r =>
      if cls c then let (tok, rest) := span cls r in (String c tok, rest)
      else ("", s)
  end.

(** [/^backport (C+)(?: (C+))?$/.exec(s)] for a character class [C] that
    does not hold the space: the two capture groups of a match.  A token is
    a longest run of [C]; nothing shorter can be followed by the space or by
    the end of the input. *)
Definition execBackportPattern (cls : ascii -> bool) (s : string)
    : option (string * option string) :=
  match stripPrefix "backport " s with
  | None => None
  | Some r =>
      let (base, r1) := span cls r in
      if base =? "" then None
      else
        match r1 with
        | "" => Some (base, None)
        | String c r2 =>
            if Ascii.eqb c " " then
              let (head, r3) := span cls r2 in
              if head =? "" then None
              else if r3 =? "" then Some (base, Some head)
              else None
            else None
        end
  end.

(** The class [[^ ]] *)
Definition notSpace (c : ascii) : bool := negb (Ascii.eqb c " ").

(** [labelRegExp = /^backport ([^ ]+)(?: ([^ ]+))?$/] *)
Definition labelRegExp_exec (labelName : string) : option (string * option string) :=
  execBackportPattern notSpace labelName.

(** The class [\S] *)
Definition notWhiteSpace (c : ascii) : bool := negb (JS.isWhiteSpace c).

(** The pattern as the specification words it: [^backport (\S+)(?: (\S+))?$] *)
Definition specLabelPattern_exec (labelName : string) : option (string * option string) :=
  execBackportPattern notWhiteSpace labelName.

Fixpoint allIn (cls : ascii -> bool) (s : string) : bool :=
  match s with
  | "" => true
  | String c r => cls c && allIn cls r
  end.

(** What follows a longest run is empty or starts outside the class. *)
Definition stopsAt (cls : ascii -> bool) (rest : string) : Prop :=
  match rest with
  | "" => True
  | String c _ => cls c = false
  end.

(** What a match of [labelRegExp] looks like: the word [backport], a space,
    a token, and possibly a space and a second token, where a token is a
    non-empty string without a space. *)
Definition isToken (s : string) : Prop := s <> "" /\ allIn notSpace s = true.

Inductive labelShape : string -> string -> option string -> Prop :=
| shape_base base :
    isToken base -> labelShape ("backport " ++ base)%string base None
| shape_base_head base head :
    isToken base -> isToken head ->
    labelShape ("backport " ++ base ++ " " ++ head)%string base (Some head).

(** A label on which the two patterns disagree: a tab inside the token. *)
Definition tabLabel : string := ("backport a" ++ String (ascii_of_nat 9) "b")%string.

Record label : Type := { name : string }.

Definition getLabelNames (action : string) (lbl : option label) (labels : list label)
    : result (list string) :=
  if action =? "closed" then Ok (map name labels)
  else if action =? "labeled" then
    match lbl with
    | Some l => Ok [name l]
    | None => Throw (TypeError "Cannot read properties of undefined (reading 'name')")
    end
  else Ok [].

(** The default of the destructuring of the match. *)
Definition defaultHead (branchName : string) (pullRequestNumber : N) (base : string)
    : string :=
  (if JS.truthy branchName then branchName ++ "-to-" ++ base
   else "backport-" ++ JS.Number_toString pullRequestNumber ++ "-to-" ++ base)%string.

(** The head a matching label asks for. *)
Definition resolvedHead (branchName : string) (pullRequestNumber : N) (base : string)
    (head : option string) : string :=
  match head with
  | Some h => h
  | None => defaultHead branchName pullRequestNumber base
  end.

(** The body of the [forEach] over the label names. *)
Definition addLabel (branchName : string) (pullRequestNumber : N)
    (baseToHead : JS.Obj.t) (labelName : string) : JS.Obj.t :=
  match labelRegExp_exec labelName with
  | None => baseToHead
  | Some (base, head) =>
      let head := resolvedHead branchName pullRequestNumber base head in
      JS.Obj.set base head baseToHead
  end.

Definition collectLabels (branchName : string) (pullRequestNumber : N)
    (names : list string) : JS.Obj.t :=
  fold_left (addLabel branchName pullRequestNumber) names JS.Obj.empty.

Definition getBackportBaseToHead (action branchName : string) (lbl : option label)
    (labels : list label) (pullRequestNumber : N) : result JS.Obj.t :=
  match getLabelNames action lbl labels with
  | Ok names => Ok (collectLabels branchName pullRequestNumber names)
  | Throw t => Throw t
  end.

(** ** Calls to the outside *)

(** Every call the action makes: a process run by [exec], a request of the
    REST client, or a line for the log of the runner. *)
Inductive call : Type :=
| Exec (commandLine : string) (args : list string) (cwd : option string)
| ReposGet (owner repo : string)
| PullsCreate (base body head owner repo title : string)
| IssuesAddLabels (issue_number : N) (labels : list string) (owner repo : string)
| PullsCheckIfMerged (owner : string) (pull_number : N) (repo : string)
| IssuesCreateComment (body : string) (issue_number : N) (owner repo : string)
| Info (message : string)
| Warning (message : string)
| LogError (error : thrown)
| StartGroup (name : string)
| EndGroup.

(** The fields the action reads in the [data] of a response. *)
Record response : Type := {
  data_number : N;
  data_allow_merge_commit : bool;
  data_allow_rebase_merge : bool
}.

Definition noData : response :=
  {| data_number := 0; data_allow_merge_commit := false; data_allow_rebase_merge := false |}.

Inductive outcome : Type :=
| Returns (r : response)
| Throws (t : thrown).

#[warning="-notation-for-abbreviation"]
Notation event := (call * outcome)%type.

(** The outside answers a call knowing the calls made so far. *)
Definition environment : Type := list event -> call -> outcome.

(** A computation reads the trace of the calls made so far and extends it;
    it ends with a value or with a thrown value. *)
Definition M (A : Type) : Type := list event -> result A * list event.

Definition ret {A} (a : A) : M A := fun tr => (Ok a, tr).

Definition throw {A} (t : thrown) : M A := fun tr => (Throw t, tr).

Definition bind {A B} (m : M A) (k : A -> M B) : M B :=
  fun tr =>
    match m tr with
    | (Ok a, tr') => k a tr'
    | (Throw t, tr') => (Throw t, tr')
    end.

Declare Scope js_scope.
Delimit Scope js_scope with js.
Notation "x <- m ;; k" := (bind m (fun x => k))
  (at level 61, m at next level, right associativity) : js_scope.
Notation "m ;; k" := (bind m (fun _ => k))
  (at level 61, right associativity) : js_scope.
Open Scope js_scope.

(** [try { m } catch (error) { handler }] *)
Definition tryCatch {A} (m : M A) (handler : thrown -> M A) : M A :=
  fun tr =>
    match m tr with
    | (Ok a, tr') => (Ok a, tr')
    | (Throw t, tr') => handler t tr'
    end.

(** [try { m } finally { cleanup }] *)
Definition tryFinally {A} (m : M A) (cleanup : M unit) : M A :=
  fun tr =>
    match m tr with
    | (r, tr') =>
        match cleanup tr' with
        | (Ok _, tr'') => (r, tr'')
        | (Throw t, tr'') => (Throw t, tr'')
        end
    end.

(** [for (const x of l) { body }] *)
Fixpoint forOf {A} (l : list A) (body : A -> M unit) : M unit :=
  match l with
  | [] => ret tt
  | x :: r => body x ;; forOf r body
  end.

(** A line written to the log: nothing is awaited and nothing can fail. *)
Definition emit (c : call) : M unit := fun tr => (Ok tt, tr ++ [(c, Returns noData)]).

Definition info (message : string) : M unit := emit (Info message).
Definition warning (message : string) : M unit := emit (Warning message).
Definition logError (error : thrown) : M unit := emit (LogError error).

(** [group(name, fn)] of the runner's toolkit: the group is closed whether
    [fn] returns or throws. *)
Definition group {A} (name : string) (fn : M A) : M A :=
  emit (StartGroup name) ;; tryFinally fn (emit EndGroup).

Definition newline : string := String (ascii_of_nat 10) "".

(** ** The failure comment ([src/backport.ts], lines 151 to 189) *)

Definition failedBackportCommentLines (base commitToBackport errorMessage head : string)
    : list string :=
  let worktreePath := (".worktrees/backport-" ++ base)%string in
  [ ("The backport to `" ++ base ++ "` failed:")%string;
    "```";
    errorMessage;
    "```";
    "To backport manually, run these commands in your terminal:";
    "```bash";
    "# Fetch latest updates from GitHub";
    "git fetch";
    "# Create a new working tree";
    ("git worktree add " ++ worktreePath ++ " " ++ base)%string;
    "# Navigate to the new working tree";
    ("cd " ++ worktreePath)%string;
    "# Create a new branch";
    ("git switch --create " ++ head)%string;
    "# Cherry-pick the merged commit of this pull request and resolve the conflicts";
    ("git cherry-pick -x --mainline 1 " ++ commitToBackport)%string;
    "# Push it to GitHub";
    ("git push --set-upstream origin " ++ head)%string;
    "# Go back to the original working tree";
    "cd ../..";
    "# Delete the working tree";
    ("git worktree remove " ++ worktreePath)%string;
    "```";
    ("Then, create a pull request where the `base` branch is `" ++ base
       ++ "` and the `compare`/`head` branch is `" ++ head ++ "`.")%string ].

Definition getFailedBackportCommentBody (base commitToBackport errorMessage head : string)
    : string :=
  JS.join newline (failedBackportCommentLines base commitToBackport errorMessage head).

(** ** The payload and the inputs *)

Record pullRequest : Type := {
  labels : list label;
  merge_commit_sha : option string;
  merged : bool;
  number : N;
  title : string
}.

Record repository : Type := {
  repository_name : string;
  owner_login : string
}.

Record webhookPayload : Type := {
  action : string;
  payload_label : option label;
  pull_request : pullRequest;
  payload_repository : repository
}.

Record backportInputs : Type := {
  branchName : string;
  deleteBranch : bool;
  filesToSkip : list string;
  labelsToAdd : list string;
  payload : webhookPayload;
  titleTemplate : string;
  token : string
}.

(** ** The procedures of [src/backport.ts] *)

Section Procedures.

Variable env : environment.

(** A call that is awaited: the outside answers, the trace keeps both. *)
Definition perform (c : call) : M response :=
  fun tr =>
    let o := env tr c in
    (match o with Returns r => Ok r | Throws t => Throw t end, tr ++ [(c, o)]).

(** [exec(commandLine, args, { cwd })] *)
Definition exec (commandLine : string) (args : list string) (cwd : option string)
    : M unit :=
  perform (Exec commandLine args cwd) ;; ret tt.

(** The helper [git] of [backportOnce] and of [deleteBackportBranchIfMerged]. *)
Definition git (repo : string) (args : list string) : M unit :=
  exec "git" args (Some repo).

Definition warnIfSquashIsNotTheOnlyAllowedMergeMethod (owner repo : string) : M unit :=
  r <- perform (ReposGet owner repo) ;;
  if data_allow_merge_commit r || data_allow_rebase_merge r then
    warning
      (JS.join newline
         [ "Your repository allows merge commits and rebase merging.";
           " However, Backport only supports rebased and merged pull requests with a single commit and squashed and merged pull requests.";
           " Consider only allowing squash merging.";
           " See https://help.github.com/en/github/administering-a-repository/about-merge-methods-on-github for more information." ])
  else ret tt.

Definition backportOnce (base body commitToBackport : string)
    (filesToSkip : list string) (head : string) (labelsToAdd : list string)
    (owner repo title : string) : M N :=
  git repo ["switch"; base] ;;
  git repo ["switch"; "--create"; head] ;;
  tryCatch
    (git repo ["cherry-pick"; "-x"; "-n"; commitToBackport] ;;
     forOf filesToSkip (fun file => git repo ["checkout"; "HEAD"; file]) ;;
     git repo ["commit"; "--no-edit"; "-s"])
    (fun error =>
       git repo ["cherry-pick"; "--abort"] ;;
       throw error) ;;
  git repo ["push"; "--set-upstream"; "origin"; head] ;;
  r <- perform (PullsCreate base body head owner repo title) ;;
  let pullRequestNumber := data_number r in
  (if (0 <? length labelsToAdd)%nat then
     perform (IssuesAddLabels pullRequestNumber labelsToAdd owner repo) ;; ret tt
   else ret tt) ;;
  ret pullRequestNumber.

Definition deleteBackportBranchIfMerged (base head owner : string)
    (pullRequestNumber : N) (repo : string) : M unit :=
  isMerged <-
    tryCatch
      (perform (PullsCheckIfMerged owner pullRequestNumber repo) ;; ret true)
      (fun _ => ret false) ;;
  if isMerged : bool then
    info "The backport PR is merged, deleting the backport branch" ;;
    git repo ["push"; "--delete"; "--force"; base; head]
  else ret tt.

(** The title of the new pull request: the two placeholders are replaced
    one after the other, [{{base}}] first. *)
Definition backportTitle (titleTemplate base originalTitle : string) : string :=
  fold_left
    (fun title '(name, value) =>
       JS.replaceGlobal ("{{" ++ name ++ "}}")%string value title)
    (JS.Obj.entries [("base", base); ("originalTitle", originalTitle)])
    titleTemplate.

(** The [try]/[catch] inside the group of one target.  The pull request
    number returned by [backportOnce] is bound to a constant of the [try]
    block and read nowhere. *)
Definition tryBackport (i : backportInputs) (commitToBackport base head : string)
    : M unit :=
  let pr := pull_request (payload i) in
  let owner := owner_login (payload_repository (payload i)) in
  let repo := repository_name (payload_repository (payload i)) in
  let body :=
    ("Backport " ++ commitToBackport ++ " from #" ++ JS.Number_toString (number pr))%string in
  let title := backportTitle (titleTemplate i) base (title pr) in
  tryCatch
    (_pullRequestNumber <-
       backportOnce base body commitToBackport (filesToSkip i) head
         (labelsToAdd i) owner repo title ;;
     ret tt)
    (fun error =>
       match error with
       | NonError typeofError =>
           throw (TypeError ("Caught error of unexpected type: " ++ typeofError)%string)
       | ErrorObject _ message =>
           logError error ;;
           perform
             (IssuesCreateComment
                (getFailedBackportCommentBody base commitToBackport message head)
                (number pr) owner repo) ;;
           ret tt
       end).

(** One turn of the loop over the targets. *)
Definition backportTarget (i : backportInputs) (commitToBackport : string)
    (target : string * string) : M unit :=
  let (base, head) := target in
  let pr := pull_request (payload i) in
  let owner := owner_login (payload_repository (payload i)) in
  let repo := repository_name (payload_repository (payload i)) in
  group ("Backporting to " ++ base ++ " on " ++ head)%string
    (tryBackport i commitToBackport base head) ;;
  if deleteBranch i then
    info ("Deleting backport branch " ++ head)%string ;;
    deleteBackportBranchIfMerged base head owner (number pr) repo
  else ret tt.

(** The loop over [Object.entries(backportBaseToHead)]. *)
Definition backportTargets (i : backportInputs) (commitToBackport : string)
    (targets : list (string * string)) : M unit :=
  forOf targets (backportTarget i commitToBackport).

(** [getOctokit(token)] builds the client and calls nothing. *)
Definition backport (i : backportInputs) : M unit :=
  let pr := pull_request (payload i) in
  let owner := owner_login (payload_repository (payload i)) in
  let repo := repository_name (payload_repository (payload i)) in
  if negb (merged pr) then ret tt
  else
    match
      getBackportBaseToHead (action (payload i)) (branchName i)
        (payload_label (payload i)) (labels pr) (number pr)
    with
    | Throw t => throw t
    | Ok backportBaseToHead =>
        if (length (JS.Obj.keys backportBaseToHead) =? 0)%nat then ret tt
        else
          warnIfSquashIsNotTheOnlyAllowedMergeMethod owner repo ;;
          let commitToBackport := JS.String_ofNullable (merge_commit_sha pr) in
          info ("Backporting " ++ commitToBackport ++ " from #"
                  ++ JS.Number_toString (number pr))%string ;;
          exec "git"
            [ "clone";
              ("https://x-access-token:" ++ token i ++ "@github.com/" ++ owner ++ "/"
                 ++ repo ++ ".git")%string ]
            None ;;
          exec "git"
            [ "config"; "--global"; "user.email";
              "github-actions[bot]@users.noreply.github.com" ]
            None ;;
          exec "git" ["config"; "--global"; "user.name"; "github-actions[bot]"] None ;;
          backportTargets i commitToBackport (JS.Obj.entries backportBaseToHead)
    end.

End Procedures.

(** ** Vocabulary for traces *)

(** The call did not throw. *)
Definition returned (ev : event) : Prop := exists r, snd ev = Returns r.

(** The outcome recorded with the call is an answer of the outside. *)
Definition answeredBy (env : environment) (ev : event) : Prop :=
  exists tr, snd ev = env tr (fst ev).

(** Calls awaited one after the other, up to the first that throws. *)
Definition performAll (env : environment) (cs : list call) : M unit :=
  forOf cs (fun c => perform env c ;; ret tt).

Definition switchCall (repo base : string) : call :=
  Exec "git" ["switch"; base] (Some repo).

Definition createBranchCall (repo head : string) : call :=
  Exec "git" ["switch"; "--create"; head] (Some repo).

Definition cherryPickCall (repo commitToBackport : string) : call :=
  Exec "git" ["cherry-pick"; "-x"; "-n"; commitToBackport] (Some repo).

Definition checkoutCall (repo file : string) : call :=
  Exec "git" ["checkout"; "HEAD"; file] (Some repo).

Definition commitCall (repo : string) : call :=
  Exec "git" ["commit"; "--no-edit"; "-s"] (Some repo).

Definition abortCall (repo : string) : call :=
  Exec "git" ["cherry-pick"; "--abort"] (Some repo).

Definition pushCall (repo head : string) : call :=
  Exec "git" ["push"; "--set-upstream"; "origin"; head] (Some repo).

Definition deleteCall (repo base head : string) : call :=
  Exec "git" ["push"; "--delete"; "--force"; base; head] (Some repo).

(** Step 1 of the procedure: the two switches. *)
Definition stepOne (repo base head : string) (c : call) : Prop :=
  c = switchCall repo base \/ c = createBranchCall repo head.

(** Steps 2 to 4: the cherry-pick, the restored files, the commit. *)
Definition stepsTwoToFour (repo commitToBackport : string) (filesToSkip : list string)
    (c : call) : Prop :=
  c = cherryPickCall repo commitToBackport \/
  (exists file, In file filesToSkip /\ c = checkoutCall repo file) \/
  c = commitCall repo.

(** Steps 5 to 7: the push, the new pull request, its labels. *)
Definition stepsFiveToSeven (base body head : string) (labelsToAdd : list string)
    (owner repo title : string) (c : call) : Prop :=
  c = pushCall repo head \/
  c = PullsCreate base body head owner repo title \/
  (exists n, c = IssuesAddLabels n labelsToAdd owner repo).

(** The calls [backportOnce] can make. *)
Definition onceCall (c : call) : Prop :=
  match c with
  | Exec _ _ _ | PullsCreate _ _ _ _ _ _ | IssuesAddLabels _ _ _ _ => True
  | _ => False
  end.

Definition notStartGroup (ev : event) : Prop := forall name, fst ev <> StartGroup name.

(** The calls outside [backportOnce] whose failure ends the run: the
    comment on the pull request and the deletion of the branch. *)
Definition commentOrDeletion (c : call) : Prop :=
  (exists body n owner repo, c = IssuesCreateComment body n owner repo) \/
  (exists repo base head, c = deleteCall repo base head).

(** The targets are taken one after the other, in the order of the list:
    the trace is made of one stretch per target, which opens the group of
    the target and switches to its base. *)
Inductive processedInOrder (repo : string)
    : list (string * string) -> list event -> Prop :=
| processed_nil : processedInOrder repo [] []
| processed_cons base head o seg rest targets :
    Forall notStartGroup seg ->
    processedInOrder repo targets rest ->
    processedInOrder repo ((base, head) :: targets)
      ((StartGroup ("Backporting to " ++ base ++ " on " ++ head)%string, Returns noData)
         :: (switchCall repo base, o) :: seg ++ rest).

(** The strings [xs] occur in [s] one after the other. *)
Inductive occursInOrder : list string -> string -> Prop :=
| occurs_nil s : occursInOrder [] s
| occurs_cons x xs before rest :
    occursInOrder xs rest ->
    occursInOrder (x :: xs) (before ++ x ++ rest)%string.

(** The call of [backportOnce] made for one target. *)
Definition backportOnceFor (env : environment) (i : backportInputs)
    (commitToBackport base head : string) : M N :=
  let pr := pull_request (payload i) in
  backportOnce env base
    ("Backport " ++ commitToBackport ++ " from #" ++ JS.Number_toString (number pr))%string
    commitToBackport (filesToSkip i) head (labelsToAdd i)
    (owner_login (payload_repository (payload i)))
    (repository_name (payload_repository (payload i)))
    (backportTitle (titleTemplate i) base (title pr)).

(** [xs] is [l] with some elements left out. *)
Inductive subsequence {A} : list A -> list A -> Prop :=
| sub_nil l : subsequence [] l
| sub_take x xs l : subsequence xs l -> subsequence (x :: xs) (x :: l)
| sub_skip y xs l : subsequence xs l -> subsequence xs (y :: l).

(** The failure message and the commands of the manual backport, in the
    order in which the comment gives them. *)
Definition remediation (base commitToBackport errorMessage head : string) : list string :=
  [ errorMessage;
    "git fetch";
    ("git worktree add " ++ (".worktrees/backport-" ++ base) ++ " " ++ base)%string;
    ("git switch --create " ++ head)%string;
    ("git cherry-pick -x --mainline 1 " ++ commitToBackport)%string;
    ("git push --set-upstream origin " ++ head)%string;
    ("git worktree remove " ++ (".worktrees/backport-" ++ base))%string;
    ("Then, create a pull request where the `base` branch is `" ++ base
       ++ "` and the `compare`/`head` branch is `" ++ head ++ "`.")%string ].

(** The comment posted on pull request [issue_number]. *)
Definition commentCall (i : backportInputs) (body : string) : call :=
  IssuesCreateComment body (number (pull_request (payload i)))
    (owner_login (payload_repository (payload i)))
    (repository_name (payload_repository (payload i))).

(** The check made by the cleanup of a target of the run [i]. *)
Definition mergedCheckCall (i : backportInputs) : call :=
  PullsCheckIfMerged (owner_login (payload_repository (payload i)))
    (number (pull_request (payload i)))
    (repository_name (payload_repository (payload i))).

Definition groupName (base head : string) : string :=
  ("Backporting to " ++ base ++ " on " ++ head)%string.

(** ** Sample inputs and environments *)

(** Every call returns. *)
Definition calmEnv : environment := fun _ _ => Returns noData.

(** A pull request closed without being merged, with a backport label. *)
Definition closedUnmerged : backportInputs :=
  {| branchName := "";
     deleteBranch := true;
     filesToSkip := [];
     labelsToAdd := [];
     payload :=
       {| action := "closed";
          payload_label := None;
          pull_request :=
            {| labels := [ {| name := "backport 1.x" |} ];
               merge_commit_sha := None;
               merged := false;
               number := 42;
               title := "Fix bug" |};
          payload_repository := {| repository_name := "r"; owner_login := "o" |} |};
     titleTemplate := "[{{base}}] {{originalTitle}}";
     token := "T" |}.

(** Pull request 42, merged, to be backported to two branches. *)
Definition mergedTwoTargets : backportInputs :=
  {| branchName := "";
     deleteBranch := true;
     filesToSkip := ["CHANGELOG.md"];
     labelsToAdd := ["backport"];
     payload :=
       {| action := "closed";
          payload_label := None;
          pull_request :=
            {| labels := [ {| name := "backport release-1" |};
                           {| name := "backport release-2" |} ];
               merge_commit_sha := Some "abc";
               merged := true;
               number := 42;
               title := "Fix bug" |};
          payload_repository := {| repository_name := "r"; owner_login := "o" |} |};
     titleTemplate := "[{{base}}] {{originalTitle}}";
     token := "T" |}.

Definition created (n : N) : outcome :=
  Returns {| data_number := n; data_allow_merge_commit := false;
             data_allow_rebase_merge := false |}.

Definition isCherryPick (args : list string) : bool :=
  match args with
  | a :: b :: _ => (a =? "cherry-pick") && (b =? "-x")
  | _ => false
  end.

Definition branchCreated (head : string) (tr : list event) : bool :=
  existsb
    (fun ev =>
       match fst ev with
       | Exec _ [a; b; h] _ => (a =? "switch") && (b =? "--create") && (h =? head)
       | _ => false
       end)
    tr.

(** What [exec] throws when [git] exits with the code 1. *)
Definition gitFailure : thrown :=
  ErrorObject "Error" "The process '/usr/bin/git' failed with exit code 1".

(** The cherry-pick onto [release-1] meets a conflict; every other call
    returns, new pull requests get the number 43, and no pull request but
    the merged one, 42, is reported as merged. *)
Definition conflictEnv : environment :=
  fun tr c =>
    match c with
    | Exec _ args _ =>
        if isCherryPick args && negb (branchCreated "backport-42-to-release-2" tr)
        then Throws gitFailure
        else Returns noData
    | PullsCreate _ _ _ _ _ _ => created 43
    | PullsCheckIfMerged _ n _ =>
        if (n =? 42)%N then Returns noData
        else Throws (ErrorObject "HttpError" "Not Found")
    | _ => Returns noData
    end.

(** A second run: another repository, another pull request, and a push
    that is refused. *)
Definition otherRun : backportInputs :=
  {| branchName := "";
     deleteBranch := false;
     filesToSkip := [];
     labelsToAdd := [];
     payload :=
       {| action := "labeled";
          payload_label := Some {| name := "backport release-1 backport-42-to-release-1" |};
          pull_request :=
            {| labels := [];
               merge_commit_sha := Some "abc";
               merged := true;
               number := 7;
               title := "Another change" |};
          payload_repository := {| repository_name := "r2"; owner_login := "o2" |} |};
     titleTemplate := "{{originalTitle}}";
     token := "T2" |}.

Definition refusedPushEnv : environment :=
  fun _ c =>
    match c with
    | Exec _ ("push" :: _) _ => Throws gitFailure
    | _ => Returns noData
    end.

(** ** What a run can call *)

(** Every run of [m] only adds to the trace, and the calls it adds are
    calls of [Q]. *)
Definition callsOnly {A} (Q : call -> Prop) (m : M A) : Prop :=
  forall tr, exists added,
    snd (m tr) = tr ++ added /\ Forall (fun ev => Q (fst ev)) added.

(** The calls of one turn of the loop, for the target [(base, head)]. *)
Inductive targetCall (i : backportInputs) (commitToBackport base head : string)
    : call -> Prop :=
| tc_start : targetCall i commitToBackport base head (StartGroup (groupName base head))
| tc_end : targetCall i commitToBackport base head EndGroup
| tc_switch :
    targetCall i commitToBackport base head
      (switchCall (repository_name (payload_repository (payload i))) base)
| tc_create :
    targetCall i commitToBackport base head
      (createBranchCall (repository_name (payload_repository (payload i))) head)
| tc_pick :
    targetCall i commitToBackport base head
      (cherryPickCall (repository_name (payload_repository (payload i))) commitToBackport)
| tc_checkout file :
    In file (filesToSkip i) ->
    targetCall i commitToBackport base head
      (checkoutCall (repository_name (payload_repository (payload i))) file)
| tc_commit :
    targetCall i commitToBackport base head
      (commitCall (repository_name (payload_repository (payload i))))
| tc_abort :
    targetCall i commitToBackport base head
      (abortCall (repository_name (payload_repository (payload i))))
| tc_push :
    targetCall i commitToBackport base head
      (pushCall (repository_name (payload_repository (payload i))) head)
| tc_pull :
    targetCall i commitToBackport base head
      (PullsCreate base
         ("Backport " ++ commitToBackport ++ " from #"
            ++ JS.Number_toString (number (pull_request (payload i))))%string
         head
         (owner_login (payload_repository (payload i)))
         (repository_name (payload_repository (payload i)))
         (backportTitle (titleTemplate i) base (title (pull_request (payload i)))))
| tc_labels n :
    labelsToAdd i <> [] ->
    targetCall i commitToBackport base head
      (IssuesAddLabels n (labelsToAdd i)
         (owner_login (payload_repository (payload i)))
         (repository_name (payload_repository (payload i))))
| tc_log name message :
    targetCall i commitToBackport base head (LogError (ErrorObject name message))
| tc_comment message :
    targetCall i commitToBackport base head
      (commentCall i (getFailedBackportCommentBody base commitToBackport message head))
| tc_deleting :
    deleteBranch i = true ->
    targetCall i commitToBackport base head
      (Info ("Deleting backport branch " ++ head)%string)
| tc_check :
    deleteBranch i = true ->
    targetCall i commitToBackport base head (mergedCheckCall i)
| tc_merged :
    deleteBranch i = true ->
    targetCall i commitToBackport base head
      (Info "The backport PR is merged, deleting the backport branch")
| tc_delete :
    deleteBranch i = true ->
    targetCall i commitToBackport base head
      (deleteCall (repository_name (payload_repository (payload i))) base head).

(** The calls of a whole run. *)
Inductive runCall (i : backportInputs) : call -> Prop :=
| rc_get :
    runCall i
      (ReposGet (owner_login (payload_repository (payload i)))
         (repository_name (payload_repository (payload i))))
| rc_warning message : runCall i (Warning message)
| rc_backporting :
    runCall i
      (Info ("Backporting "
               ++ JS.String_ofNullable (merge_commit_sha (pull_request (payload i)))
               ++ " from #" ++ JS.Number_toString (number (pull_request (payload i))))%string)
| rc_clone :
    runCall i
      (Exec "git"
         [ "clone";
           ("https://x-access-token:" ++ token i ++ "@github.com/"
              ++ owner_login (payload_repository (payload i)) ++ "/"
              ++ repository_name (payload_repository (payload i)) ++ ".git")%string ]
         None)
| rc_email :
    runCall i
      (Exec "git"
         [ "config"; "--global"; "user.email";
           "github-actions[bot]@users.noreply.github.com" ]
         None)
| rc_name :
    runCall i
      (Exec "git" ["config"; "--global"; "user.name"; "github-actions[bot]"] None)
| rc_target base head c :
    targetCall i (JS.String_ofNullable (merge_commit_sha (pull_request (payload i))))
      base head c ->
    runCall i c.

(** The merged-check and the deletion of a remote branch. *)
Definition cleanupCall (c : call) : Prop :=
  match c with
  | PullsCheckIfMerged _ _ _ => True
  | Exec _ ("push" :: "--delete" :: _) _ => True
  | _ => False
  end.

(** A request of the REST client is made on the repository of the payload,
    and a comment or a merged-check carries the number of the pull request
    of the payload. *)
Definition addressesPayload (i : backportInputs) (c : call) : Prop :=
  let owner := owner_login (payload_repository (payload i)) in
  let repo := repository_name (payload_repository (payload i)) in
  let n := number (pull_request (payload i)) in
  match c with
  | ReposGet o r => o = owner /\ r = repo
  | PullsCreate _ _ _ o r _ => o = owner /\ r = repo
  | IssuesAddLabels _ _ o r => o = owner /\ r = repo
  | PullsCheckIfMerged o k r => o = owner /\ r = repo /\ k = n
  | IssuesCreateComment _ k o r => o = owner /\ r = repo /\ k = n
  | _ => True
  end.


(** The calls made before the loop over the targets. *)
Definition preludeCall (c : call) : Prop :=
  match c with
  | ReposGet _ _ => True
  | Exec _ _ None => True
  | _ => False
  end.

(** Groups of the log are opened and closed in turn; [inGroup] tells
    whether one is open. *)
Fixpoint groupsAlternate (inGroup : bool) (l : list event) : bool :=
  match l with
  | [] => negb inGroup
  | (StartGroup _, _) :: r => if inGroup then false else groupsAlternate true r
  | (EndGroup, _) :: r => if inGroup then groupsAlternate false r else false
  | _ :: r => groupsAlternate inGroup r
  end.

Definition notGroupCall (c : call) : Prop :=
  match c with
  | StartGroup _ | EndGroup => False
  | _ => True
  end.

(** What the calls made before the loop add to the trace: calls that
    returned, then either the call that threw, which ends the run, or the
    calls of the targets. *)
Definition preludeShape (r : result unit) (added : list event) : Prop :=
  exists rets tail,
    added = rets ++ tail /\
    Forall returned rets /\
    Forall (fun ev => notGroupCall (fst ev)) rets /\
    ((exists c e, tail = [(c, Throws e)] /\ r = Throw e) \/
     Forall (fun ev => ~ preludeCall (fst ev)) tail).

(** No character of the string is [c]. *)
Definition without (c : ascii) (s : string) : Prop := JS.contains c s = false.

(** The cherry-pick meets a conflict in the clone of the repository, on
    every target; the calls made outside a clone return. *)
Definition conflictInCloneEnv : environment :=
  fun _ c =>
    match c with
    | Exec _ args (Some _) => if isCherryPick args then Throws gitFailure else Returns noData
    | PullsCreate _ _ _ _ _ _ => created 43
    | _ => Returns noData
    end.

(** The clone is refused. *)
Definition refusedCloneEnv : environment :=
  fun _ c =>
    match c with
    | Exec _ ("clone" :: _) _ => Throws gitFailure
    | _ => Returns noData
    end.

(** The switch to the base ends with a thrown string. *)
Definition thrownStringEnv : environment :=
  fun _ c =>
    match c with
    | Exec _ ("switch" :: _) _ => Throws (NonError "string")
    | _ => Returns noData
    end.

(** The cherry-pick meets a conflict and the comment is refused. *)
Definition refusedCommentEnv : environment :=
  fun _ c =>
    match c with
    | Exec _ args _ => if isCherryPick args then Throws gitFailure else Returns noData
    | IssuesCreateComment _ _ _ _ => Throws (ErrorObject "HttpError" "Forbidden")
    | _ => Returns noData
    end.

(** The head branch exists already. *)
Definition existingBranchEnv : environment :=
  fun _ c =>
    match c with
    | Exec _ ("switch" :: "--create" :: _) _ => Throws gitFailure
    | _ => Returns noData
    end.

(** The merged pull request 42, with its backport labels, on an event the
    action does not act on. *)
Definition editedMerged : backportInputs :=
  {| branchName := branchName mergedTwoTargets;
     deleteBranch := deleteBranch mergedTwoTargets;
     filesToSkip := filesToSkip mergedTwoTargets;
     labelsToAdd := labelsToAdd mergedTwoTargets;
     payload :=
       {| action := "edited";
          payload_label := None;
          pull_request := pull_request (payload mergedTwoTargets);
          payload_repository := payload_repository (payload mergedTwoTargets) |};
     titleTemplate := titleTemplate mergedTwoTargets;
     token := token mergedTwoTargets |}.

(** What [exec] throws when [git] exits with the code 128. *)
Definition abortFailure : thrown :=
  ErrorObject "Error" "The process '/usr/bin/git' failed with exit code 128".

(** The cherry-pick meets a conflict, and the abort that follows fails
    too. *)
Definition abortFailsEnv : environment :=
  fun _ c =>
    match c with
    | Exec _ ("cherry-pick" :: "--abort" :: _) _ => Throws abortFailure
    | Exec _ ("cherry-pick" :: _) _ => Throws gitFailure
    | _ => Returns noData
    end.

(** Pull request 42, merged, to be backported to two branches, the
    deletion of branches being disabled. *)
Definition twoTargetsNoDeletion : backportInputs :=
  {| branchName := branchName mergedTwoTargets;
     deleteBranch := false;
     filesToSkip := filesToSkip mergedTwoTargets;
     labelsToAdd := labelsToAdd mergedTwoTargets;
     payload := payload mergedTwoTargets;
     titleTemplate := titleTemplate mergedTwoTargets;
     token := token mergedTwoTargets |}.
(** *** Facts about trimming *)

Section Trim.

Lemma trimStart_no_leading s : JS.startsWithWhiteSpace (JS.trimStart s) = false.
Proof.
  induction s as [|c r IH]; simpl; [reflexivity|].
  destruct (JS.isWhiteSpace c) eqn:E; [exact IH|simpl; exact E].
Qed.

Lemma trimEnd_no_trailing s : JS.endsWithWhiteSpace (JS.trimEnd s) = false.
Proof.
  induction s as [|c r IH]; simpl; [reflexivity|].
  destruct (JS.trimEnd r) as [|d r'] eqn:E.
  - destruct (JS.isWhiteSpace c) eqn:Ec; simpl; [reflexivity|exact Ec].
  - exact IH.
Qed.

Lemma trimEnd_keeps_head c r :
  JS.isWhiteSpace c = false -> exists r', JS.trimEnd (String c r) = String c r'.
Proof.
  intros Hc. simpl. destruct (JS.trimEnd r) eqn:E.
  - rewrite Hc. eexists; reflexivity.
  - eexists; reflexivity.
Qed.

Lemma trim_no_leading s : JS.startsWithWhiteSpace (JS.trim s) = false.
Proof.
  unfold JS.trim.
  pose proof (trimStart_no_leading s) as H.
  destruct (JS.trimStart s) as [|c r]; [reflexivity|].
  simpl in H. destruct (trimEnd_keeps_head c r H) as [r' ->]. exact H.
Qed.

Lemma trim_no_trailing s : JS.endsWithWhiteSpace (JS.trim s) = false.
Proof. apply trimEnd_no_trailing. Qed.

End Trim.

(** *** Facts about the deduplicating filter *)

Section Dedup.

(** In [p ++ x :: t], the first index of [x] is [length p] exactly when
    [x] does not occur in [p]. *)
Lemma indexOf_from_first i (p : list string) x t :
  JS.indexOf_from i (p ++ x :: t)%list x = Z.of_nat (i + length p) <-> ~ In x p.
Proof.
  revert i; induction p as [|y p IH]; intros i; simpl.
  - rewrite String.eqb_refl. split; [tauto|intros _; f_equal; lia].
  - destruct (String.eqb_spec y x) as [->|Hne].
    + split; [lia|intros H; exfalso; apply H; left; reflexivity].
    + specialize (IH (S i)).
      replace (S i + length p) with (i + S (length p)) in IH by lia.
      rewrite IH. split; [intros H [F|F]; [congruence|contradiction]|tauto].
Qed.

Lemma existsb_eqb_In x l : existsb (String.eqb x) l = true <-> In x l.
Proof.
  rewrite existsb_exists. split.
  - intros [y [Hy E]]. apply String.eqb_eq in E. subst; exact Hy.
  - intros H. exists x. split; [exact H|apply String.eqb_refl].
Qed.

Lemma firstOccurrences_ext l : forall s1 s2,
  (forall z, In z s1 <-> In z s2) ->
  firstOccurrences s1 l = firstOccurrences s2 l.
Proof.
  induction l as [|z l IH]; intros s1 s2 Hs; simpl; [reflexivity|].
  assert (Eb : existsb (String.eqb z) s1 = existsb (String.eqb z) s2).
  { apply eq_true_iff_eq. rewrite !existsb_eqb_In. apply Hs. }
  rewrite Eb. destruct (existsb (String.eqb z) s2).
  - apply IH, Hs.
  - f_equal. apply IH. intros w; simpl. rewrite Hs. tauto.
Qed.

Lemma filter_from_firstOccurrences (whole t : list string) : forall p,
  whole = (p ++ t)%list ->
  JS.filter_from
    (fun item idx => Z.eqb (JS.indexOf whole item) (Z.of_nat idx))
    (length p) t
  = firstOccurrences p t.
Proof.
  induction t as [|x t IH]; intros p E; simpl; [reflexivity|].
  assert (E' : whole = (p ++ [x]) ++ t) by (rewrite <- app_assoc; exact E).
  specialize (IH (p ++ [x]) E').
  rewrite length_app in IH; simpl in IH.
  replace (length p + 1) with (S (length p)) in IH by lia.
  rewrite IH.
  pose proof (indexOf_from_first 0 p x t) as Hfirst.
  simpl in Hfirst. unfold JS.indexOf. rewrite E.
  destruct (existsb (String.eqb x) p) eqn:Ex.
  - apply existsb_eqb_In in Ex.
    destruct (Z.eqb_spec (JS.indexOf_from 0 (p ++ x :: t) x) (Z.of_nat (length p)))
      as [Heq|_].
    + apply Hfirst in Heq. contradiction.
    + apply firstOccurrences_ext. intros z. rewrite in_app_iff; simpl.
      split; [intros [H|[<-|[]]]; assumption|intros H; left; exact H].
  - assert (Hn : ~ In x p).
    { intros H. apply existsb_eqb_In in H. congruence. }
    apply Hfirst in Hn. rewrite Hn, Z.eqb_refl. f_equal.
    apply firstOccurrences_ext. intros z. rewrite in_app_iff; simpl.
    tauto.
Qed.

Lemma parse_firstOccurrences input :
  parseCommaDelimitedStrings input = firstOccurrences [] (trimmedEntries input).
Proof.
  destruct input as [s|]; simpl; [|reflexivity].
  unfold JS.filter3. apply (filter_from_firstOccurrences _ _ []). reflexivity.
Qed.

Lemma firstOccurrences_In seen l x :
  In x (firstOccurrences seen l) <-> In x l /\ ~ In x seen.
Proof.
  revert seen; induction l as [|y l IH]; intros seen; simpl; [tauto|].
  destruct (existsb (String.eqb y) seen) eqn:Ey.
  - apply existsb_eqb_In in Ey. rewrite IH.
    split; [tauto|]. intros [[->|H] Hn]; [contradiction|tauto].
  - assert (Hy : ~ In y seen).
    { intros H. apply existsb_eqb_In in H. congruence. }
    simpl. rewrite IH. simpl.
    destruct (String.eqb_spec y x) as [->|Hne]; [tauto|]. tauto.
Qed.

Lemma firstOccurrences_NoDup seen l : NoDup (firstOccurrences seen l).
Proof.
  revert seen; induction l as [|y l IH]; intros seen; simpl; [constructor|].
  destruct (existsb (String.eqb y) seen); [apply IH|].
  constructor; [|apply IH].
  rewrite firstOccurrences_In. simpl. tauto.
Qed.

(** Every kept element stands where its value first occurs in the input,
    and what is kept before it is what the input holds before it. *)
Lemma firstOccurrences_split l : forall seen (r1 : list string) x r2,
  firstOccurrences seen l = r1 ++ x :: r2 ->
  exists l1 l2, l = l1 ++ x :: l2 /\ ~ In x l1 /\ ~ In x seen /\
    (forall y, In y r1 <-> In y l1 /\ ~ In y seen).
Proof.
  induction l as [|y l IH]; intros seen r1 x r2 E; simpl in E.
  - destruct r1; discriminate.
  - destruct (existsb (String.eqb y) seen) eqn:Ey.
    + apply existsb_eqb_In in Ey.
      destruct (IH _ _ _ _ E) as (l1 & l2 & -> & Hx & Hs & Hr).
      exists (y :: l1), l2. split; [reflexivity|]. split; [|split; [exact Hs|]].
      * simpl. intros [->|H]; contradiction.
      * intros z. rewrite Hr. simpl. split; [tauto|].
        intros [[->|H] Hn]; [contradiction|tauto].
    + assert (Hy : ~ In y seen).
      { intros H. apply existsb_eqb_In in H. congruence. }
      destruct r1 as [|z r1]; simpl in E.
      * injection E as -> _. exists [], l. simpl. repeat split; tauto.
      * injection E as -> E.
        destruct (IH _ _ _ _ E) as (l1 & l2 & -> & Hx & Hs & Hr).
        simpl in Hs.
        exists (z :: l1), l2. split; [reflexivity|]. split; [|split].
        -- simpl. tauto.
        -- tauto.
        -- intros w. simpl. rewrite Hr. simpl.
           destruct (String.eqb_spec z w) as [->|Hne]; tauto.
Qed.

End Dedup.

(** ** The list parsers *)

Section ListParser.

Lemma getFilesToSkip_trimmedEntries input :
  getFilesToSkip input = trimmedEntries input.
Proof.
  destruct input as [s|]; simpl; [|reflexivity].
  destruct (String.eqb_spec s "") as [->|_]; reflexivity.
Qed.

Lemma trimmedEntries_clean input x :
  In x (trimmedEntries input) ->
  x <> "" /\ JS.startsWithWhiteSpace x = false /\ JS.endsWithWhiteSpace x = false.
Proof.
  destruct input as [s|]; simpl; [|contradiction].
  rewrite filter_In, in_map_iff. intros [[y [<- _]] Ht].
  split; [|split].
  - unfold JS.truthy in Ht. intros E. rewrite E in Ht. discriminate.
  - apply trim_no_leading.
  - apply trim_no_trailing.
Qed.

(** C7. The list parser returns a list on every input, the empty list on an
    undefined or empty one; every entry it returns is non-empty and has no
    white space at either end; the variant that removes duplicates returns
    each value once, at the place where it first occurs among the trimmed
    entries. *)
Theorem list_parser_trimmed_and_deduplicated (input : option string) :
  ((input = None \/ input = Some "") ->
     parseCommaDelimitedStrings input = [] /\ getFilesToSkip input = []) /\
  (forall x,
     In x (parseCommaDelimitedStrings input) \/ In x (getFilesToSkip input) ->
     x <> "" /\ JS.startsWithWhiteSpace x = false /\ JS.endsWithWhiteSpace x = false) /\
  NoDup (parseCommaDelimitedStrings input) /\
  (forall x, In x (parseCommaDelimitedStrings input) <-> In x (getFilesToSkip input)) /\
  (forall r1 x r2,
     parseCommaDelimitedStrings input = r1 ++ x :: r2 ->
     exists l1 l2,
       getFilesToSkip input = l1 ++ x :: l2 /\ ~ In x l1 /\
       (forall y, In y r1 <-> In y l1)).
Proof.
  rewrite getFilesToSkip_trimmedEntries, parse_firstOccurrences.
  split; [|split; [|split; [|split]]].
  - intros [->| ->]; split; reflexivity.
  - intros x [H|H].
    + apply firstOccurrences_In in H. apply (trimmedEntries_clean input), H.
    + apply (trimmedEntries_clean input), H.
  - apply firstOccurrences_NoDup.
  - intros x. rewrite firstOccurrences_In. simpl. tauto.
  - intros r1 x r2 E.
    destruct (firstOccurrences_split _ _ _ _ _ E) as (l1 & l2 & El & Hx & _ & Hr).
    exists l1, l2. split; [exact El|]. split; [exact Hx|].
    intros y. rewrite Hr. simpl. tauto.
Qed.

Lemma list_parser_trimmed_and_deduplicated_witness :
  parseCommaDelimitedStrings (Some "") = [] /\ getFilesToSkip (Some "") = [].
Proof.
  apply (proj1 (list_parser_trimmed_and_deduplicated (Some ""))).
  right. reflexivity.
Defined.

Example parse_labels_example :
  parseCommaDelimitedStrings (Some " a, b ,,a , c,b") = ["a"; "b"; "c"] /\
  getFilesToSkip (Some " a, b ,,a , c,b") = ["a"; "b"; "a"; "c"; "b"].
Proof. split; reflexivity. Qed.

End ListParser.

(** ** The label pattern *)

Section LabelPattern.

Lemma stripPrefix_app p s : stripPrefix p (p ++ s)%string = Some s.
Proof.
  induction p as [|a p IH]; simpl; [destruct s; reflexivity|].
  rewrite Ascii.eqb_refl. exact IH.
Qed.

Lemma stripPrefix_Some p : forall s r, stripPrefix p s = Some r -> s = (p ++ r)%string.
Proof.
  induction p as [|a p IH]; intros s r H; simpl in *.
  - destruct s; injection H as <-; reflexivity.
  - destruct s as [|b s]; [discriminate|].
    destruct (Ascii.eqb_spec a b) as [->|_]; [|discriminate].
    f_equal. apply IH, H.
Qed.

Lemma span_spec cls s : forall tok rest,
  span cls s = (tok, rest) ->
  s = (tok ++ rest)%string /\ allIn cls tok = true /\ stopsAt cls rest.
Proof.
  induction s as [|c r IH]; intros tok rest H; simpl in H.
  - injection H as <- <-. repeat split.
  - destruct (cls c) eqn:Ec.
    + destruct (span cls r) as [tok' rest'] eqn:Er.
      injection H as <- <-.
      destruct (IH _ _ eq_refl) as (-> & Ha & Hs).
      simpl. rewrite Ec, Ha. repeat split. exact Hs.
    + injection H as <- <-. simpl. repeat split. exact Ec.
Qed.

Lemma span_app cls tok rest :
  allIn cls tok = true -> stopsAt cls rest ->
  span cls (tok ++ rest)%string = (tok, rest).
Proof.
  induction tok as [|c tok IH]; simpl; intros Ha Hs.
  - destruct rest as [|d rest]; simpl in *; [reflexivity|]. rewrite Hs. reflexivity.
  - apply andb_true_iff in Ha as [Hc Ha]. rewrite Hc, (IH Ha Hs). reflexivity.
Qed.

Lemma eqb_empty_false s : s <> "" -> (s =? "") = false.
Proof. intros H. destruct (String.eqb_spec s ""); [contradiction|reflexivity]. Qed.

Lemma append_assoc (a b c : string) : ((a ++ b) ++ c = a ++ (b ++ c))%string.
Proof. induction a as [|x a IH]; simpl; [reflexivity|]. rewrite IH; reflexivity. Qed.

Lemma append_empty_r (a : string) : (a ++ "")%string = a.
Proof. induction a as [|x a IH]; simpl; [reflexivity|]. rewrite IH; reflexivity. Qed.

Lemma labelRegExp_exec_sound labelName base head :
  labelRegExp_exec labelName = Some (base, head) -> labelShape labelName base head.
Proof.
  unfold labelRegExp_exec, execBackportPattern.
  destruct (stripPrefix "backport " labelName) as [r|] eqn:Ep; [|discriminate].
  apply stripPrefix_Some in Ep. subst labelName.
  destruct (span notSpace r) as [b r1] eqn:Eb.
  destruct (span_spec _ _ _ _ Eb) as (-> & Hb & Hs).
  destruct (String.eqb_spec b "") as [|Hne]; [discriminate|].
  destruct r1 as [|c r2].
  - intros [= <- <-]. rewrite append_empty_r. constructor. split; assumption.
  - destruct (Ascii.eqb_spec c " ") as [->|_]; [|discriminate].
    destruct (span notSpace r2) as [h r3] eqn:Eh.
    destruct (span_spec _ _ _ _ Eh) as (-> & Hh & _).
    destruct (String.eqb_spec h "") as [|Hhne]; [discriminate|].
    destruct (String.eqb_spec r3 "") as [->|_]; [|discriminate].
    intros [= <- <-]. rewrite append_empty_r.
    apply shape_base_head; split; assumption.
Qed.

Lemma labelRegExp_exec_complete labelName base head :
  labelShape labelName base head -> labelRegExp_exec labelName = Some (base, head).
Proof.
  intros H. unfold labelRegExp_exec, execBackportPattern.
  destruct H as [b [Hne Hb]|b h [Hne Hb] [Hhne Hh]];
    rewrite stripPrefix_app.
  - rewrite <- (append_empty_r b) at 1.
    rewrite (span_app notSpace b "" Hb I), (eqb_empty_false _ Hne). reflexivity.
  - rewrite (span_app notSpace b (" " ++ h)%string Hb eq_refl), (eqb_empty_false _ Hne).
    simpl. rewrite <- (append_empty_r h) at 1.
    rewrite (span_app notSpace h "" Hh I), (eqb_empty_false _ Hhne). reflexivity.
Qed.

Lemma notWhiteSpace_notSpace c : notWhiteSpace c = true -> notSpace c = true.
Proof.
  unfold notWhiteSpace, notSpace. destruct (Ascii.eqb_spec c " ") as [->|_];
    [discriminate|reflexivity].
Qed.

Lemma allIn_weaken (cls1 cls2 : ascii -> bool) s :
  (forall c, cls1 c = true -> cls2 c = true) ->
  allIn cls1 s = true -> allIn cls2 s = true.
Proof.
  intros H. induction s as [|c r IH]; simpl; [reflexivity|].
  rewrite !andb_true_iff. intros [Hc Hr]. split; [apply H, Hc|apply IH, Hr].
Qed.

(** Every match of the pattern written with [\S] is a match of
    [labelRegExp], with the same captures. *)
Lemma spec_pattern_match_is_match labelName captures :
  specLabelPattern_exec labelName = Some captures ->
  labelRegExp_exec labelName = Some captures.
Proof.
  unfold specLabelPattern_exec, labelRegExp_exec, execBackportPattern.
  destruct (stripPrefix "backport " labelName) as [r|]; [|discriminate].
  destruct (span notWhiteSpace r) as [b r1] eqn:Eb.
  destruct (span_spec _ _ _ _ Eb) as (-> & Hb & Hs).
  apply (allIn_weaken _ notSpace _ notWhiteSpace_notSpace) in Hb.
  destruct (String.eqb_spec b "") as [|Hne]; [discriminate|].
  destruct r1 as [|c r2].
  - rewrite (span_app notSpace b "" Hb I), (eqb_empty_false _ Hne). tauto.
  - destruct (Ascii.eqb_spec c " ") as [->|_]; [|discriminate].
    rewrite (span_app notSpace b (String " " r2) Hb eq_refl), (eqb_empty_false _ Hne).
    rewrite Ascii.eqb_refl.
    destruct (span notWhiteSpace r2) as [h r3] eqn:Eh.
    destruct (span_spec _ _ _ _ Eh) as (-> & Hh & _).
    apply (allIn_weaken _ notSpace _ notWhiteSpace_notSpace) in Hh.
    destruct (String.eqb_spec h "") as [|Hhne]; [discriminate|].
    destruct (String.eqb_spec r3 "") as [->|_]; [|discriminate].
    rewrite (span_app notSpace h "" Hh I), (eqb_empty_false _ Hhne). tauto.
Qed.

(** C5, as stated, fails: the label [backport a<TAB>b] does not match the
    pattern written with [\S], and still it yields an entry of the mapping. *)
Lemma label_with_tab_yields_entry :
  specLabelPattern_exec tabLabel = None /\
  JS.Obj.entries (collectLabels "" 42 [tabLabel])
  = [ (("a" ++ String (ascii_of_nat 9) "b")%string,
       ("backport-42-to-a" ++ String (ascii_of_nat 9) "b")%string) ].
Proof. split; reflexivity. Qed.

Lemma fold_addLabel_app branchName pullRequestNumber l1 l2 m :
  fold_left (addLabel branchName pullRequestNumber) (l1 ++ l2) m
  = fold_left (addLabel branchName pullRequestNumber) l2
      (fold_left (addLabel branchName pullRequestNumber) l1 m).
Proof. apply fold_left_app. Qed.

(** C5, amended. The label parser matches a label name against
    [^backport ([^ ]+)(?: ([^ ]+))?$], where a token is a non-empty run of
    characters other than the space; a label name that does not match, such
    as the bare [backport], leaves the mapping as it was: the labels give
    the mapping they give without it. *)
Theorem label_parser_ignores_unmatched (labelName : string) :
  (forall base head,
     labelRegExp_exec labelName = Some (base, head) <-> labelShape labelName base head) /\
  (forall branchName pullRequestNumber baseToHead,
     labelRegExp_exec labelName = None ->
     addLabel branchName pullRequestNumber baseToHead labelName = baseToHead) /\
  (forall branchName pullRequestNumber before after,
     labelRegExp_exec labelName = None ->
     collectLabels branchName pullRequestNumber (before ++ labelName :: after)
     = collectLabels branchName pullRequestNumber (before ++ after)) /\
  labelRegExp_exec "backport" = None /\
  (forall branchName pullRequestNumber,
     collectLabels branchName pullRequestNumber ["backport"] = JS.Obj.empty).
Proof.
  split; [|split; [|split; [|split]]].
  - intros base head. split.
    + apply labelRegExp_exec_sound.
    + apply labelRegExp_exec_complete.
  - intros bn prn m H. unfold addLabel. rewrite H. reflexivity.
  - intros bn prn before after H. unfold collectLabels.
    rewrite !fold_addLabel_app. simpl. unfold addLabel at 2. rewrite H. reflexivity.
  - reflexivity.
  - reflexivity.
Qed.

Lemma label_parser_ignores_unmatched_witness :
  addLabel "" 42 [("1.x", "backport-42-to-1.x")] "backport 1.x "
  = [("1.x", "backport-42-to-1.x")].
Proof.
  apply (proj1 (proj2 (label_parser_ignores_unmatched "backport 1.x "))).
  reflexivity.
Defined.

End LabelPattern.

(** ** Objects used as maps *)

Section Objects.

Import JS.

Lemma getOwn_defineOwn_same k v o : Obj.getOwn k (Obj.defineOwn k v o) = Some v.
Proof.
  induction o as [|[k' v'] o IH]; simpl.
  - rewrite String.eqb_refl. reflexivity.
  - destruct (String.eqb_spec k' k) as [->|Hne]; simpl.
    + rewrite String.eqb_refl. reflexivity.
    + rewrite (proj2 (String.eqb_neq k' k) Hne). exact IH.
Qed.

Lemma getOwn_defineOwn_other k k' v o :
  k' <> k -> Obj.getOwn k' (Obj.defineOwn k v o) = Obj.getOwn k' o.
Proof.
  intros Hne. induction o as [|[k1 v1] o IH]; simpl.
  - rewrite (proj2 (String.eqb_neq k k')); [reflexivity|congruence].
  - destruct (String.eqb_spec k1 k) as [->|Hk]; simpl.
    + rewrite (proj2 (String.eqb_neq k k')); [|congruence].
      reflexivity.
    + destruct (k1 =? k')%string; [reflexivity|exact IH].
Qed.

Lemma defineOwn_keys k v o x :
  In x (map fst (Obj.defineOwn k v o)) <-> x = k \/ In x (map fst o).
Proof.
  induction o as [|[k1 v1] o IH]; simpl.
  - split; [intros [<-|[]]; left; reflexivity|intros [->|[]]; left; reflexivity].
  - destruct (String.eqb_spec k1 k) as [->|Hk]; simpl.
    + split; [intros [<-|H]; tauto|intros [->|[<-|H]]; tauto].
    + rewrite IH. split; [intros [<-|[->|H]]; tauto|intros [->|[<-|H]]; tauto].
Qed.

Lemma defineOwn_NoDup k v o :
  NoDup (map fst o) -> NoDup (map fst (Obj.defineOwn k v o)).
Proof.
  induction o as [|[k1 v1] o IH]; simpl; intros H.
  - constructor; [intros []|constructor].
  - inversion H as [|? ? Hn Hd]; subst.
    destruct (String.eqb_spec k1 k) as [->|Hk]; simpl.
    + constructor; assumption.
    + constructor; [|apply IH, Hd].
      rewrite defineOwn_keys. intros [E|E]; [congruence|contradiction].
Qed.

Lemma set_NoDup k v o : NoDup (map fst o) -> NoDup (map fst (Obj.set k v o)).
Proof.
  unfold Obj.set. destruct (k =? "__proto__")%string; [tauto|apply defineOwn_NoDup].
Qed.

Lemma insertByIndex_Permutation e l :
  Permutation (Obj.insertByIndex e l) (e :: l).
Proof.
  induction l as [|e' l IH]; simpl; [reflexivity|].
  destruct (fst e <=? fst e')%N; [reflexivity|].
  rewrite IH. apply perm_swap.
Qed.

(** [Object.entries] lists the own properties, each once. *)
Lemma entries_Permutation o : Permutation (Obj.entries o) o.
Proof.
  unfold Obj.entries, Obj.indexed, Obj.named.
  induction o as [|[k v] o IH]; simpl; [reflexivity|].
  destruct (Obj.arrayIndex k) as [n|]; simpl.
  - rewrite insertByIndex_Permutation. simpl. constructor. exact IH.
  - rewrite <- Permutation_middle. constructor. exact IH.
Qed.

Lemma getOwn_In k v o :
  NoDup (map fst o) -> (In (k, v) o <-> Obj.getOwn k o = Some v).
Proof.
  induction o as [|[k1 v1] o IH]; simpl; intros H.
  - split; [intros []|discriminate].
  - inversion H as [|? ? Hn Hd]; subst.
    destruct (String.eqb_spec k1 k) as [->|Hk].
    + split.
      * intros [[= ->]|Hin]; [reflexivity|].
        exfalso. apply Hn. apply in_map_iff. exists (k, v). split; [reflexivity|exact Hin].
      * intros [= ->]. left; reflexivity.
    + rewrite <- (IH Hd). split; [intros [[= E _]|Hin]; [contradiction|exact Hin]|tauto].
Qed.

End Objects.

(** ** The mapping from bases to heads *)

Section Mapping.

Import JS.

Variables (branchName : string) (pullRequestNumber : N).

Let add := addLabel branchName pullRequestNumber.

Let resolvedHead := resolvedHead branchName pullRequestNumber.

Lemma addLabel_NoDup m l : NoDup (map fst m) -> NoDup (map fst (add m l)).
Proof.
  unfold add, addLabel. destruct (labelRegExp_exec l) as [[b h]|]; [|tauto].
  apply set_NoDup.
Qed.

Lemma fold_addLabel_NoDup names : forall m,
  NoDup (map fst m) -> NoDup (map fst (fold_left add names m)).
Proof.
  induction names as [|l names IH]; intros m H; simpl; [exact H|].
  apply IH, addLabel_NoDup, H.
Qed.

Lemma addLabel_sets m l base head :
  labelRegExp_exec l = Some (base, head) -> base <> "__proto__" ->
  Obj.getOwn base (add m l) = Some (resolvedHead base head).
Proof.
  intros E Hp. unfold add, addLabel. rewrite E. unfold Obj.set.
  rewrite (proj2 (String.eqb_neq _ _) Hp).
  destruct head; apply getOwn_defineOwn_same.
Qed.

Lemma addLabel_keeps m l base :
  (forall h, labelRegExp_exec l <> Some (base, h)) ->
  Obj.getOwn base (add m l) = Obj.getOwn base m.
Proof.
  intros Hn. unfold add, addLabel.
  destruct (labelRegExp_exec l) as [[b h]|] eqn:E; [|reflexivity].
  unfold Obj.set. destruct (b =? "__proto__")%string; [reflexivity|].
  apply getOwn_defineOwn_other. intros ->. apply (Hn h). reflexivity.
Qed.

Lemma fold_addLabel_keeps names base : forall m,
  (forall l h, In l names -> labelRegExp_exec l <> Some (base, h)) ->
  Obj.getOwn base (fold_left add names m) = Obj.getOwn base m.
Proof.
  induction names as [|l names IH]; intros m Hn; simpl; [reflexivity|].
  rewrite IH.
  - apply addLabel_keeps. intros h. apply Hn. left; reflexivity.
  - intros l' h Hin. apply Hn. right; exact Hin.
Qed.

(** No list of labels gives the mapping an entry for [__proto__]. *)
Lemma proto_never_entered names : forall m,
  Obj.getOwn "__proto__" m = None ->
  Obj.getOwn "__proto__" (fold_left add names m) = None.
Proof.
  induction names as [|l names IH]; intros m H; simpl; [exact H|].
  apply IH. unfold add, addLabel.
  destruct (labelRegExp_exec l) as [[b h]|]; [|exact H].
  unfold Obj.set. destruct (String.eqb_spec b "__proto__") as [->|Hne]; [exact H|].
  rewrite getOwn_defineOwn_other; [exact H|congruence].
Qed.

(** X6. For every base but [__proto__]: the mapping holds one entry for the
    base, and its head is the one asked for by the last label that names
    the base, the default head when that label gives none. *)
Lemma last_label_wins pre l post base head :
  labelRegExp_exec l = Some (base, head) ->
  base <> "__proto__" ->
  (forall l' h', In l' post -> labelRegExp_exec l' <> Some (base, h')) ->
  let m := collectLabels branchName pullRequestNumber (pre ++ l :: post) in
  NoDup (map fst (Obj.entries m)) /\
  (forall v, In (base, v) (Obj.entries m) <-> v = resolvedHead base head).
Proof.
  intros E Hp Hpost m.
  assert (Hd : NoDup (map fst m)).
  { apply fold_addLabel_NoDup. constructor. }
  split.
  - eapply Permutation_NoDup; [|exact Hd].
    apply Permutation_map, Permutation_sym, entries_Permutation.
  - intros v.
    assert (Hin : In (base, v) (Obj.entries m) <-> In (base, v) m).
    { split; apply Permutation_in;
        [|apply Permutation_sym]; apply entries_Permutation. }
    rewrite Hin, (getOwn_In base v m Hd).
    unfold m, collectLabels. rewrite fold_left_app. simpl.
    fold add. rewrite (fold_addLabel_keeps post base _ Hpost).
    rewrite (addLabel_sets _ l base head E Hp).
    split; [intros [= <-]; reflexivity|intros ->; reflexivity].
Qed.

End Mapping.

Section ProtoKey.

Import JS.

(** C6. The label [backport __proto__] matches the pattern with the base
    [__proto__] and no head, and the mapping gets no entry for that base,
    however many labels name it: the assignment [baseToHead[base] = head]
    reaches the [__proto__] accessor of [Object.prototype], whose setter
    drops a string.  Labels for other bases get one entry per base: the
    default head is built from the prefix, or from the pull request number
    when there is no prefix, and the last label of a base wins. *)
Theorem proto_base_yields_no_entry :
  labelRegExp_exec "backport __proto__" = Some ("__proto__", None) /\
  Obj.entries (collectLabels "" 42 ["backport __proto__"]) = [] /\
  Obj.entries
    (collectLabels "" 42 ["backport __proto__ first"; "backport __proto__ second"]) = [] /\
  Obj.entries
    (collectLabels "" 42 ["backport 1.x"; "backport 2.x custom-head"; "backport 1.x late"])
  = [("1.x", "late"); ("2.x", "custom-head")] /\
  Obj.entries (collectLabels "" 42 ["backport 1.x"]) = [("1.x", "backport-42-to-1.x")] /\
  Obj.entries (collectLabels "release" 42 ["backport 1.x"]) = [("1.x", "release-to-1.x")].
Proof. repeat split; reflexivity. Qed.

End ProtoKey.

(** ** The title of the new pull request *)

Section Title.

Import JS.

Lemma getSubstitution_plain matched before after value :
  contains "$" value = false ->
  getSubstitution matched before after value = value.
Proof.
  induction value as [|d rest IH]; simpl; [reflexivity|].
  intros H. apply orb_false_iff in H as [Hd Hr].
  rewrite Hd. f_equal. apply IH, Hr.
Qed.

Lemma replaceFrom_plain pattern value :
  contains "$" value = false ->
  forall s skip before,
    replaceFrom pattern value skip before s = substituteFrom pattern value skip s.
Proof.
  intros Hv. induction s as [|c r IH]; intros skip before; [reflexivity|].
  cbn [replaceFrom substituteFrom].
  destruct skip as [|k]; [|apply IH].
  destruct (prefix pattern (String c r)).
  - rewrite (getSubstitution_plain _ _ _ _ Hv), IH. reflexivity.
  - rewrite IH. reflexivity.
Qed.

Lemma title_entries base originalTitle :
  Obj.entries [("base", base); ("originalTitle", originalTitle)]
  = [("base", base); ("originalTitle", originalTitle)].
Proof. reflexivity. Qed.

(** X7. Values without a dollar sign are put in place of every occurrence of
    their placeholder. *)
Lemma backportTitle_plain titleTemplate base originalTitle :
  contains "$" base = false -> contains "$" originalTitle = false ->
  backportTitle titleTemplate base originalTitle
  = substituteAll "{{originalTitle}}" originalTitle
      (substituteAll "{{base}}" base titleTemplate).
Proof.
  intros Hb Ht. unfold backportTitle. rewrite title_entries.
  cbn [fold_left]. unfold replaceGlobal, substituteAll.
  change ("{{" ++ "base" ++ "}}")%string with "{{base}}".
  change ("{{" ++ "originalTitle" ++ "}}")%string with "{{originalTitle}}".
  rewrite (replaceFrom_plain _ _ Hb), (replaceFrom_plain _ _ Ht). reflexivity.
Qed.

(** C8. The example of the specification holds, and every occurrence of a
    placeholder is found.  What is put in its place is not always the value:
    the value is handed to [String.prototype.replace] as a replacement
    pattern, so a dollar sign followed by a quote, an ampersand, a backtick
    or another dollar sign in the original title is expanded. *)
Theorem title_value_is_read_as_replacement_pattern :
  backportTitle "[{{base}}] {{originalTitle}}" "1.x" "Fix bug" = "[1.x] Fix bug" /\
  backportTitle "{{base}}: {{originalTitle}}, {{base}}, {{originalTitle}}" "1.x" "Fix"
  = "1.x: Fix, 1.x, Fix" /\
  backportTitle "[{{base}}] {{originalTitle}}" "1.x" "Quote '$' in paths"
  = "[1.x] Quote ' in paths" /\
  backportTitle "[{{base}}] {{originalTitle}}" "1.x" "Escape $& in sed scripts"
  = "[1.x] Escape {{originalTitle}} in sed scripts" /\
  backportTitle "{{originalTitle}} ({{base}})" "1.x" "Charge $$ amounts"
  = "Charge $ amounts (1.x)".
Proof. repeat split; reflexivity. Qed.

End Title.

(** ** The precondition skip *)

Section Skip.

Variable env : environment.

(** C9. When the pull request is not merged, or when the labels give an
    empty mapping, [backport] returns without a thrown value and makes no
    call: the trace of calls is left as it was. *)
Theorem precondition_skip_makes_no_call (i : backportInputs) (tr : list event) :
  merged (pull_request (payload i)) = false \/
  (exists backportBaseToHead,
     getBackportBaseToHead (action (payload i)) (branchName i)
       (payload_label (payload i)) (labels (pull_request (payload i)))
       (number (pull_request (payload i))) = Ok backportBaseToHead /\
     JS.Obj.keys backportBaseToHead = []) ->
  backport env i tr = (Ok tt, tr).
Proof.
  intros H. unfold backport.
  destruct (merged (pull_request (payload i))); simpl.
  - destruct H as [H|[m [-> Hk]]]; [discriminate|].
    rewrite Hk. reflexivity.
  - reflexivity.
Qed.

End Skip.

Lemma precondition_skip_makes_no_call_witness :
  backport calmEnv closedUnmerged [] = (Ok tt, []).
Proof.
  apply (precondition_skip_makes_no_call calmEnv closedUnmerged []).
  left. reflexivity.
Defined.

(** ** Runs of the procedures *)

Section Runs.

Variable env : environment.

Lemma bind_perform {B} c (k : response -> M B) tr :
  bind (perform env c) k tr
  = match env tr c with
    | Returns r => k r (tr ++ [(c, env tr c)])
    | Throws t => (Throw t, tr ++ [(c, env tr c)])
    end.
Proof. unfold bind, perform. destruct (env tr c); reflexivity. Qed.

Lemma bind_git {B} repo args (k : unit -> M B) tr :
  bind (git env repo args) k tr
  = match env tr (Exec "git" args (Some repo)) with
    | Returns r => k tt (tr ++ [(Exec "git" args (Some repo), Returns r)])
    | Throws t => (Throw t, tr ++ [(Exec "git" args (Some repo), Throws t)])
    end.
Proof.
  unfold git, exec, bind, perform, ret.
  destruct (env tr (Exec "git" args (Some repo))); reflexivity.
Qed.

Lemma git_run repo args tr :
  git env repo args tr
  = match env tr (Exec "git" args (Some repo)) with
    | Returns r => (Ok tt, tr ++ [(Exec "git" args (Some repo), Returns r)])
    | Throws t => (Throw t, tr ++ [(Exec "git" args (Some repo), Throws t)])
    end.
Proof.
  unfold git, exec, bind, perform, ret.
  destruct (env tr (Exec "git" args (Some repo))); reflexivity.
Qed.

Lemma bind_exec {B} commandLine args cwd (k : unit -> M B) tr :
  bind (exec env commandLine args cwd) k tr
  = match env tr (Exec commandLine args cwd) with
    | Returns r => k tt (tr ++ [(Exec commandLine args cwd, Returns r)])
    | Throws t => (Throw t, tr ++ [(Exec commandLine args cwd, Throws t)])
    end.
Proof.
  unfold exec, bind, perform, ret.
  destruct (env tr (Exec commandLine args cwd)); reflexivity.
Qed.

Lemma bind_bind {A B C} (m : M A) (f : A -> M B) (g : B -> M C) tr :
  bind (bind m f) g tr = bind m (fun x => bind (f x) g) tr.
Proof. unfold bind. destruct (m tr) as [[a|t] tr']; reflexivity. Qed.

Lemma bind_ret {A B} (a : A) (k : A -> M B) tr : bind (ret a) k tr = k a tr.
Proof. reflexivity. Qed.

Lemma bind_emit {B} c (k : unit -> M B) tr :
  bind (emit c) k tr = k tt (tr ++ [(c, Returns noData)]).
Proof. reflexivity. Qed.

Lemma forOf_cons {A} (x : A) (l : list A) (body : A -> M unit) tr :
  forOf (x :: l) body tr = bind (body x) (fun _ => forOf l body) tr.
Proof. reflexivity. Qed.

Lemma performAll_cons c cs tr :
  performAll env (c :: cs) tr
  = match env tr c with
    | Returns r => performAll env cs (tr ++ [(c, Returns r)])
    | Throws t => (Throw t, tr ++ [(c, Throws t)])
    end.
Proof.
  unfold performAll. simpl. unfold bind, perform, ret.
  destruct (env tr c); reflexivity.
Qed.

Lemma performAll_app cs1 cs2 tr :
  performAll env (cs1 ++ cs2) tr
  = bind (performAll env cs1) (fun _ => performAll env cs2) tr.
Proof.
  revert tr. induction cs1 as [|c cs1 IH]; intros tr.
  - reflexivity.
  - simpl app. unfold bind in *. rewrite !performAll_cons.
    destruct (env tr c); [apply IH|reflexivity].
Qed.

(** A run of awaited calls either answers them all, or stops at the first
    that throws, with the value it threw. *)
Lemma performAll_spec cs : forall tr,
  (exists evs,
     performAll env cs tr = (Ok tt, tr ++ evs) /\ map fst evs = cs /\
     Forall returned evs /\ Forall (answeredBy env) evs) \/
  (exists evs c e rest,
     performAll env cs tr = (Throw e, tr ++ evs ++ [(c, Throws e)]) /\
     cs = map fst evs ++ c :: rest /\
     Forall returned evs /\ Forall (answeredBy env) evs /\
     env (tr ++ evs) c = Throws e).
Proof.
  induction cs as [|c cs IH]; intros tr.
  - left. exists []. rewrite app_nil_r. repeat split; constructor.
  - rewrite performAll_cons. destruct (env tr c) as [r|t] eqn:E.
    + destruct (IH (tr ++ [(c, Returns r)]))
        as [(evs & Hrun & Hcs & Hret & Hans)
           |(evs & c' & e & rest & Hrun & Hcs & Hret & Hans & Hthrow)].
      * left. exists ((c, Returns r) :: evs).
        rewrite Hrun, <- app_assoc. simpl. rewrite Hcs.
        repeat split; constructor; try assumption.
        -- exists r; reflexivity.
        -- exists tr; simpl; congruence.
      * right. exists ((c, Returns r) :: evs), c', e, rest.
        rewrite Hrun, <- !app_assoc. simpl. rewrite Hcs.
        repeat split; try (constructor; try assumption).
        -- exists r; reflexivity.
        -- exists tr; simpl; congruence.
        -- rewrite <- app_assoc in Hthrow. exact Hthrow.
    + right. exists [], c, t, cs. simpl. rewrite app_nil_r.
      repeat split; try constructor. exact E.
Qed.

Lemma forOf_checkout repo files : forall tr,
  forOf files (fun file => git env repo ["checkout"; "HEAD"; file]) tr
  = performAll env (map (checkoutCall repo) files) tr.
Proof.
  induction files as [|f files IH]; intros tr; [reflexivity|].
  simpl map. rewrite performAll_cons. simpl forOf. rewrite bind_git.
  unfold checkoutCall at 1 2.
  destruct (env tr (Exec "git" ["checkout"; "HEAD"; f] (Some repo))); [apply IH|reflexivity].
Qed.

(** The body of the [try] of [backportOnce] is a run of awaited calls. *)
Lemma pick_restore_commit repo commitToBackport files tr :
  (git env repo ["cherry-pick"; "-x"; "-n"; commitToBackport] ;;
   forOf files (fun file => git env repo ["checkout"; "HEAD"; file]) ;;
   git env repo ["commit"; "--no-edit"; "-s"]) tr
  = performAll env
      (cherryPickCall repo commitToBackport
         :: map (checkoutCall repo) files ++ [commitCall repo]) tr.
Proof.
  rewrite bind_git, performAll_cons. unfold cherryPickCall.
  destruct (env tr _) as [r|t]; [|reflexivity].
  rewrite performAll_app. unfold bind at 1 2.
  rewrite forOf_checkout.
  destruct (performAll env (map (checkoutCall repo) files) _) as [[[]|t] tr1];
    [|reflexivity].
  rewrite performAll_cons, git_run. unfold commitCall.
  destruct (env tr1 _); reflexivity.
Qed.

End Runs.

(** ** The per-target procedure *)

Section Once.

Variables (env : environment) (base body commitToBackport : string)
  (filesToSkip : list string) (head : string) (labelsToAdd : list string)
  (owner repo title : string).

Let once : M N :=
  backportOnce env base body commitToBackport filesToSkip head labelsToAdd owner repo title.
Let early := stepOne repo base head.
Let middle := stepsTwoToFour repo commitToBackport filesToSkip.
Let late := stepsFiveToSeven base body head labelsToAdd owner repo title.
Let pickCalls : list call :=
  cherryPickCall repo commitToBackport
    :: map (checkoutCall repo) filesToSkip ++ [commitCall repo].

Lemma pickCalls_middle c : In c pickCalls -> middle c.
Proof.
  unfold pickCalls, middle, stepsTwoToFour. simpl. rewrite in_app_iff, in_map_iff. simpl.
  intros [<-|[(f & <- & Hf)|[<-|[]]]]; [tauto| |tauto].
  right; left. exists f. split; [exact Hf|reflexivity].
Qed.

Lemma middle_onceCall c : middle c -> onceCall c.
Proof. intros [->|[(f & _ & ->)| ->]]; exact I. Qed.

Lemma middle_not_abort c : middle c -> c <> abortCall repo.
Proof. intros [->|[(f & _ & ->)| ->]]; discriminate. Qed.

Lemma calls_of_prefix (P : call -> Prop) (evs : list event) (pre post : list call) :
  pre ++ map fst evs ++ post = pickCalls ->
  (forall c, middle c -> P c) ->
  Forall (fun ev => P (fst ev)) evs.
Proof.
  intros E HP. apply Forall_forall. intros ev Hin.
  apply HP, pickCalls_middle. rewrite <- E.
  apply in_or_app. right. apply in_or_app. left.
  apply in_map. exact Hin.
Qed.

Lemma not_in_calls (evs : list event) (x : call) :
  Forall (fun ev => fst ev <> x) evs -> ~ In x (map fst evs).
Proof.
  intros H Hin. apply in_map_iff in Hin as (ev & E & Hev).
  rewrite Forall_forall in H. exact (H ev Hev E).
Qed.

(** Every run of [backportOnce] starts with the switch to the base and has
    one of four forms: all calls return; a call of step 1 or of steps 5 to 7
    throws and ends the run; a call of steps 2 to 4 throws and the abort of
    the cherry-pick follows. *)
Lemma backportOnce_shape tr :
  exists r added,
    once tr = (r, tr ++ added) /\
    (exists o rest, added = (switchCall repo base, o) :: rest) /\
    Forall (answeredBy env) added /\
    Forall (fun ev => onceCall (fst ev)) added /\
    ((exists n, r = Ok n /\ Forall returned added) \/
     (exists rets c e,
        added = rets ++ [(c, Throws e)] /\ Forall returned rets /\
        ~ In (abortCall repo) (map fst rets) /\ r = Throw e /\ (early c \/ late c)) \/
     (exists rets c e o',
        added = rets ++ [(c, Throws e); (abortCall repo, o')] /\ Forall returned rets /\
        middle c /\ o' = env (tr ++ rets ++ [(c, Throws e)]) (abortCall repo) /\
        r = Throw (match o' with Returns _ => e | Throws e' => e' end))).
Proof.
  unfold once, backportOnce.
  rewrite bind_git. fold (switchCall repo base).
  destruct (env tr (switchCall repo base)) as [r1|t1] eqn:E1.
  2:{ exists (Throw t1), [(switchCall repo base, Throws t1)].
      split; [reflexivity|]. split; [eauto|].
      split; [constructor; [exists tr; simpl; congruence|constructor]|].
      split; [constructor; [exact I|constructor]|].
      right; left. exists [], (switchCall repo base), t1.
      split; [reflexivity|]. split; [constructor|].
      split; [intros []|].
      split; [reflexivity|left; left; reflexivity]. }
  rewrite bind_git. fold (createBranchCall repo head).
  set (tr1 := tr ++ [(switchCall repo base, Returns r1)]).
  destruct (env tr1 (createBranchCall repo head)) as [r2|t2] eqn:E2.
  2:{ exists (Throw t2),
        [(switchCall repo base, Returns r1); (createBranchCall repo head, Throws t2)].
      unfold tr1. rewrite <- app_assoc.
      split; [reflexivity|]. split; [eauto|].
      split.
      { constructor; [exists tr; simpl; congruence|].
        constructor; [exists tr1; simpl; congruence|constructor]. }
      split; [repeat constructor|].
      right; left.
      exists [(switchCall repo base, Returns r1)], (createBranchCall repo head), t2.
      split; [reflexivity|]. split; [constructor; [eexists; reflexivity|constructor]|].
      split; [simpl; intros [F|[]]; discriminate|].
      split; [reflexivity|left; right; reflexivity]. }
  set (tr2 := tr1 ++ [(createBranchCall repo head, Returns r2)]).
  assert (Etr2 : tr2 = tr ++ [(switchCall repo base, Returns r1);
                               (createBranchCall repo head, Returns r2)]).
  { unfold tr2, tr1. rewrite <- app_assoc. reflexivity. }
  assert (Hans2 : Forall (answeredBy env)
                    [(switchCall repo base, Returns r1);
                     (createBranchCall repo head, Returns r2)]).
  { constructor; [exists tr; simpl; congruence|].
    constructor; [exists tr1; simpl; congruence|constructor]. }
  assert (Hret2 : Forall returned
                    [(switchCall repo base, Returns r1);
                     (createBranchCall repo head, Returns r2)]).
  { repeat constructor; eexists; reflexivity. }
  unfold bind at 1. unfold tryCatch. rewrite pick_restore_commit. fold pickCalls.
  destruct (performAll_spec env pickCalls tr2)
    as [(evs & Hrun & Hcs & Hret & Hans)
       |(evs & c & e & rest & Hrun & Hcs & Hret & Hans & Hthrow)]; rewrite Hrun.
  2:{ (* a call of steps 2 to 4 throws *)
      rewrite bind_git. fold (abortCall repo).
      assert (Hc : middle c).
      { apply pickCalls_middle. rewrite Hcs. apply in_or_app. right; left; reflexivity. }
      assert (Hevs : Forall (fun ev => onceCall (fst ev)) evs).
      { apply (calls_of_prefix onceCall evs [] (c :: rest)); [symmetry; exact Hcs|].
        exact middle_onceCall. }
      remember (env (tr2 ++ evs ++ [(c, Throws e)]) (abortCall repo)) as o' eqn:Eo.
      exists (Throw (match o' with Returns _ => e | Throws e' => e' end)),
        ([(switchCall repo base, Returns r1); (createBranchCall repo head, Returns r2)]
           ++ evs ++ [(c, Throws e); (abortCall repo, o')]).
      split.
      { rewrite Etr2. destruct o'; unfold throw; rewrite <- !app_assoc; simpl;
          rewrite <- ?app_assoc; reflexivity. }
      split; [simpl; eauto|].
      split.
      { apply Forall_app. split; [exact Hans2|]. apply Forall_app. split; [exact Hans|].
        constructor; [eexists; simpl; symmetry; exact Hthrow|].
        constructor; [eexists; simpl; exact Eo|constructor]. }
      split.
      { apply Forall_app. split; [repeat constructor|]. apply Forall_app. split; [exact Hevs|].
        constructor; [apply middle_onceCall, Hc|]. repeat constructor. }
      right; right.
      exists ([(switchCall repo base, Returns r1); (createBranchCall repo head, Returns r2)]
                ++ evs), c, e, o'.
      split; [rewrite <- app_assoc; reflexivity|].
      split; [apply Forall_app; split; assumption|].
      split; [exact Hc|].
      split; [rewrite Eo, Etr2, <- !app_assoc; reflexivity|reflexivity]. }
  (* steps 2 to 4 return *)
  assert (Hevs : Forall (fun ev => onceCall (fst ev)) evs).
  { apply (calls_of_prefix onceCall evs [] []);
      [rewrite app_nil_r; exact Hcs|exact middle_onceCall]. }
  assert (Hnab : Forall (fun ev => fst ev <> abortCall repo) evs).
  { apply (calls_of_prefix (fun c => c <> abortCall repo) evs [] []);
      [rewrite app_nil_r; exact Hcs|exact middle_not_abort]. }
  set (tr3 := tr2 ++ evs).
  set (pre3 := [(switchCall repo base, Returns r1); (createBranchCall repo head, Returns r2)]
                 ++ evs).
  assert (Etr3 : tr3 = tr ++ pre3).
  { unfold tr3, pre3. rewrite Etr2, <- app_assoc. reflexivity. }
  assert (Hans3 : Forall (answeredBy env) pre3) by (apply Forall_app; split; assumption).
  assert (Hret3 : Forall returned pre3) by (apply Forall_app; split; assumption).
  assert (Hcall3 : Forall (fun ev => onceCall (fst ev)) pre3).
  { apply Forall_app. split; [repeat constructor|exact Hevs]. }
  assert (Hnab3 : Forall (fun ev => fst ev <> abortCall repo) pre3).
  { apply Forall_app. split; [|exact Hnab]. repeat constructor; discriminate. }
  assert (Hhead3 : forall suffix, exists o rest,
                     pre3 ++ suffix = (switchCall repo base, o) :: rest).
  { intros suffix. unfold pre3. simpl. eauto. }
  rewrite bind_git. fold (pushCall repo head).
  destruct (env tr3 (pushCall repo head)) as [r4|t4] eqn:E4.
  2:{ exists (Throw t4), (pre3 ++ [(pushCall repo head, Throws t4)]).
      split; [rewrite Etr3, <- app_assoc; reflexivity|].
      split; [apply Hhead3|].
      split.
      { apply Forall_app. split; [exact Hans3|].
        constructor; [exists tr3; simpl; congruence|constructor]. }
      split; [apply Forall_app; split; [exact Hcall3|repeat constructor]|].
      right; left. exists pre3, (pushCall repo head), t4.
      split; [reflexivity|]. split; [exact Hret3|].
      split; [apply not_in_calls, Hnab3|].
      split; [reflexivity|right; left; reflexivity]. }
  set (tr4 := tr3 ++ [(pushCall repo head, Returns r4)]).
  set (pre4 := pre3 ++ [(pushCall repo head, Returns r4)]).
  assert (Etr4 : tr4 = tr ++ pre4).
  { unfold tr4, pre4. rewrite Etr3, <- app_assoc. reflexivity. }
  assert (Hans4 : Forall (answeredBy env) pre4).
  { apply Forall_app. split; [exact Hans3|].
    constructor; [exists tr3; simpl; congruence|constructor]. }
  assert (Hret4 : Forall returned pre4).
  { apply Forall_app. split; [exact Hret3|]. repeat constructor. eexists; reflexivity. }
  assert (Hcall4 : Forall (fun ev => onceCall (fst ev)) pre4).
  { apply Forall_app. split; [exact Hcall3|repeat constructor]. }
  assert (Hnab4 : Forall (fun ev => fst ev <> abortCall repo) pre4).
  { apply Forall_app. split; [exact Hnab3|]. repeat constructor; discriminate. }
  assert (Hhead4 : forall suffix, exists o rest,
                     pre4 ++ suffix = (switchCall repo base, o) :: rest).
  { intros suffix. unfold pre4. rewrite <- app_assoc. apply Hhead3. }
  rewrite bind_perform.
  set (createCall := PullsCreate base body head owner repo title).
  destruct (env tr4 createCall) as [r5|t5] eqn:E5.
  2:{ exists (Throw t5), (pre4 ++ [(createCall, Throws t5)]).
      split; [rewrite Etr4, <- app_assoc; reflexivity|].
      split; [apply Hhead4|].
      split.
      { apply Forall_app. split; [exact Hans4|].
        constructor; [exists tr4; simpl; congruence|constructor]. }
      split; [apply Forall_app; split; [exact Hcall4|repeat constructor]|].
      right; left. exists pre4, createCall, t5.
      split; [reflexivity|]. split; [exact Hret4|].
      split; [apply not_in_calls, Hnab4|].
      split; [reflexivity|right; right; left; reflexivity]. }
  set (tr5 := tr4 ++ [(createCall, Returns r5)]).
  set (pre5 := pre4 ++ [(createCall, Returns r5)]).
  assert (Etr5 : tr5 = tr ++ pre5).
  { unfold tr5, pre5. rewrite Etr4, <- app_assoc. reflexivity. }
  assert (Hans5 : Forall (answeredBy env) pre5).
  { apply Forall_app. split; [exact Hans4|].
    constructor; [exists tr4; simpl; congruence|constructor]. }
  assert (Hret5 : Forall returned pre5).
  { apply Forall_app. split; [exact Hret4|]. repeat constructor. eexists; reflexivity. }
  assert (Hcall5 : Forall (fun ev => onceCall (fst ev)) pre5).
  { apply Forall_app. split; [exact Hcall4|repeat constructor]. }
  assert (Hnab5 : Forall (fun ev => fst ev <> abortCall repo) pre5).
  { apply Forall_app. split; [exact Hnab4|]. repeat constructor; discriminate. }
  assert (Hhead5 : forall suffix, exists o rest,
                     pre5 ++ suffix = (switchCall repo base, o) :: rest).
  { intros suffix. unfold pre5. rewrite <- app_assoc. apply Hhead4. }
  cbv zeta.
  destruct (0 <? length labelsToAdd)%nat.
  2:{ exists (Ok (data_number r5)), pre5.
      split; [rewrite <- Etr5; reflexivity|].
      split; [rewrite <- (app_nil_r pre5); apply Hhead5|].
      split; [exact Hans5|]. split; [exact Hcall5|].
      left. exists (data_number r5). split; [reflexivity|exact Hret5]. }
  unfold bind at 1. rewrite bind_perform.
  set (labelCall := IssuesAddLabels (data_number r5) labelsToAdd owner repo).
  destruct (env tr5 labelCall) as [r6|t6] eqn:E6.
  - exists (Ok (data_number r5)), (pre5 ++ [(labelCall, Returns r6)]).
    split; [unfold ret, bind; simpl; rewrite Etr5, <- app_assoc; reflexivity|].
    split; [apply Hhead5|].
    split.
    { apply Forall_app. split; [exact Hans5|].
      constructor; [exists tr5; simpl; congruence|constructor]. }
    split; [apply Forall_app; split; [exact Hcall5|repeat constructor]|].
    left. exists (data_number r5). split; [reflexivity|].
    apply Forall_app. split; [exact Hret5|]. repeat constructor. eexists; reflexivity.
  - exists (Throw t6), (pre5 ++ [(labelCall, Throws t6)]).
    split; [rewrite Etr5, <- app_assoc; reflexivity|].
    split; [apply Hhead5|].
    split.
    { apply Forall_app. split; [exact Hans5|].
      constructor; [exists tr5; simpl; congruence|constructor]. }
    split; [apply Forall_app; split; [exact Hcall5|repeat constructor]|].
    right; left. exists pre5, labelCall, t6.
    split; [reflexivity|]. split; [exact Hret5|].
    split; [apply not_in_calls, Hnab5|].
    split; [reflexivity|right; right; right]. exists (data_number r5). reflexivity.
Qed.

End Once.

(** ** Where a run of [backportOnce] can stop *)

Section Failures.

(** In a trace whose first events all returned, the first thrown value is
    found at one place only. *)
Lemma first_throw_unique (rets : list event) c1 e1 tail : forall pre c e post,
  Forall returned rets ->
  rets ++ (c1, Throws e1) :: tail = pre ++ (c, Throws e) :: post ->
  (pre = rets /\ c = c1 /\ e = e1 /\ post = tail) \/
  (exists pre', pre = rets ++ (c1, Throws e1) :: pre' /\
                tail = pre' ++ (c, Throws e) :: post).
Proof.
  induction rets as [|ev rets IH]; intros pre c e post Hret E.
  - destruct pre as [|ev' pre]; simpl in E.
    + injection E as <- <- <-. left. repeat split.
    + injection E as <- E. right. exists pre. split; [reflexivity|exact E].
  - inversion Hret as [|? ? [r Hr] Hret']; subst.
    destruct pre as [|ev' pre]; simpl in E.
    + injection E as E _. rewrite E in Hr. simpl in Hr. discriminate.
    + injection E as <- E.
      destruct (IH _ _ _ _ Hret' E) as [(-> & -> & -> & ->)|(pre' & -> & ->)].
      * left. repeat split.
      * right. exists pre'. split; reflexivity.
Qed.

Lemma no_throw_among_returned (l : list event) pre c e post :
  Forall returned l -> l <> pre ++ (c, Throws e) :: post.
Proof.
  intros H E. subst l. apply Forall_app in H as [_ H].
  inversion H as [|? ? [r Hr] _]; subst. simpl in Hr. discriminate.
Qed.

Variables (env : environment) (base body commitToBackport : string)
  (filesToSkip : list string) (head : string) (labelsToAdd : list string)
  (owner repo title : string).

Let middle := stepsTwoToFour repo commitToBackport filesToSkip.
Let late := stepsFiveToSeven base body head labelsToAdd owner repo title.

Lemma late_not_middle c : late c -> ~ middle c.
Proof.
  intros [->|[->|[n ->]]] [F|[(f & _ & F)|F]]; discriminate.
Qed.

Lemma early_not_middle c : stepOne repo base head c -> ~ middle c.
Proof.
  intros [->| ->] [F|[(f & _ & F)|F]]; discriminate.
Qed.

Lemma late_not_abort c : late c -> c <> abortCall repo.
Proof. intros [->|[->|[n ->]]]; discriminate. Qed.

(** X20. In a run of [backportOnce], a call of steps 2 to 4 (the
    cherry-pick, the restoring of a file to skip, the commit) that throws is
    followed by [git cherry-pick --abort] and by nothing else; the run ends
    with the value the step threw when the abort returns, and with the value
    the abort throws when it throws.  A call of steps 5 to 7 (the push, the
    creation of the pull request, the adding of the labels) that throws is
    the last call of the run, which ends with the value thrown and has made
    no abort. *)
Theorem failure_in_steps_two_to_four_aborts_cherry_pick (tr : list event)
    (r : result N) (tr' : list event) :
  backportOnce env base body commitToBackport filesToSkip head labelsToAdd
    owner repo title tr = (r, tr') ->
  exists added,
    tr' = tr ++ added /\
    forall pre c e post,
      added = pre ++ (c, Throws e) :: post ->
      (stepsTwoToFour repo commitToBackport filesToSkip c ->
         let o := env (tr ++ pre ++ [(c, Throws e)]) (abortCall repo) in
         post = [(abortCall repo, o)] /\
         r = Throw (match o with Returns _ => e | Throws e' => e' end)) /\
      (stepsFiveToSeven base body head labelsToAdd owner repo title c ->
         post = [] /\ r = Throw e /\ ~ In (abortCall repo) (map fst pre)).
Proof.
  intros Hrun.
  destruct (backportOnce_shape env base body commitToBackport filesToSkip head
              labelsToAdd owner repo title tr)
    as (r0 & added & Hrun0 & _ & _ & _ & Hcases).
  rewrite Hrun in Hrun0. injection Hrun0 as -> ->.
  exists added. split; [reflexivity|].
  intros pre c e post E.
  destruct Hcases as [(n & -> & Hret)
                     |[(rets & c1 & e1 & -> & Hret & Hnab & -> & Hc1)
                      |(rets & c1 & e1 & o' & -> & Hret & Hc1 & Ho' & ->)]].
  - exfalso. exact (no_throw_among_returned added pre c e post Hret E).
  - destruct (first_throw_unique rets c1 e1 [] pre c e post Hret E)
      as [(-> & -> & -> & ->)|(pre' & _ & F)].
    2:{ destruct pre'; discriminate. }
    split.
    + intros Hm. exfalso. destruct Hc1 as [Hc|Hc].
      * exact (early_not_middle _ Hc Hm).
      * exact (late_not_middle _ Hc Hm).
    + intros _. repeat split. exact Hnab.
  - destruct (first_throw_unique rets c1 e1 [(abortCall repo, o')] pre c e post Hret E)
      as [(-> & -> & -> & ->)|(pre' & -> & F)].
    + split.
      * intros _. cbv zeta. rewrite <- Ho'. split; reflexivity.
      * intros Hl. exfalso. exact (late_not_middle _ Hl Hc1).
    + destruct pre' as [|ev pre']; simpl in F.
      2:{ destruct pre'; discriminate. }
      injection F as <- _ _.
      split.
      * intros Hm. exfalso. exact (middle_not_abort commitToBackport filesToSkip repo _ Hm eq_refl).
      * intros Hl. exfalso. exact (late_not_abort _ Hl eq_refl).
Qed.

End Failures.

Lemma failure_in_steps_two_to_four_aborts_cherry_pick_witness :
  let o :=
    abortFailsEnv
      ([] ++ [ (switchCall "r" "release-1", Returns noData);
               (createBranchCall "r" "backport-42-to-release-1", Returns noData) ]
          ++ [(cherryPickCall "r" "abc", Throws gitFailure)])
      (abortCall "r") in
  [(abortCall "r", Throws abortFailure)] = [(abortCall "r", o)] /\
  @Throw N abortFailure = Throw (match o with Returns _ => gitFailure | Throws e' => e' end).
Proof.
  destruct (failure_in_steps_two_to_four_aborts_cherry_pick abortFailsEnv
              "release-1" "Backport abc from #42" "abc" ["CHANGELOG.md"]
              "backport-42-to-release-1" ["backport"] "o" "r" "[release-1] Fix bug"
              []
              (Throw abortFailure)
              [ (switchCall "r" "release-1", Returns noData);
                (createBranchCall "r" "backport-42-to-release-1", Returns noData);
                (cherryPickCall "r" "abc", Throws gitFailure);
                (abortCall "r", Throws abortFailure) ]
              eq_refl)
    as (added & E & H).
  simpl in E. subst added.
  exact (proj1
           (H [ (switchCall "r" "release-1", Returns noData);
                (createBranchCall "r" "backport-42-to-release-1", Returns noData) ]
              (cherryPickCall "r" "abc") gitFailure
              [(abortCall "r", Throws abortFailure)] eq_refl)
           (or_introl eq_refl)).
Defined.

Example conflict_run :
  backportOnce conflictEnv "release-1" "Backport abc from #42" "abc" ["CHANGELOG.md"]
    "backport-42-to-release-1" ["backport"] "o" "r" "[release-1] Fix bug" []
  = (Throw (ErrorObject "Error" "The process '/usr/bin/git' failed with exit code 1"),
     [ (switchCall "r" "release-1", Returns noData);
       (createBranchCall "r" "backport-42-to-release-1", Returns noData);
       (cherryPickCall "r" "abc",
        Throws (ErrorObject "Error" "The process '/usr/bin/git' failed with exit code 1"));
       (abortCall "r", Returns noData) ]).
Proof. reflexivity. Qed.

(** ** The failure comment *)

Section Comment.

Lemma occursInOrder_prefix xs : forall p s,
  occursInOrder xs s -> occursInOrder xs (p ++ s)%string.
Proof.
  intros p s H. destruct H as [s|x xs before rest H].
  - constructor.
  - rewrite <- append_assoc. constructor. exact H.
Qed.

Lemma subsequence_nil {A} (xs : list A) : subsequence xs [] -> xs = [].
Proof. intros H. inversion H. reflexivity. Qed.

Lemma occursInOrder_join sep xs l :
  subsequence xs l -> occursInOrder xs (JS.join sep l).
Proof.
  unfold JS.join. induction 1 as [l|x xs l H IH|y xs l H IH].
  - constructor.
  - destruct l as [|z l].
    + apply subsequence_nil in H. subst xs. simpl.
      pose proof (occurs_cons x [] "" "" (occurs_nil "")) as Hx.
      simpl in Hx. rewrite append_empty_r in Hx. exact Hx.
    + change (String.concat sep (x :: z :: l))
        with (x ++ sep ++ String.concat sep (z :: l))%string.
      apply (occurs_cons x xs "" (sep ++ String.concat sep (z :: l))%string).
      apply occursInOrder_prefix, IH.
  - destruct l as [|z l].
    + apply subsequence_nil in H. subst xs. constructor.
    + change (String.concat sep (y :: z :: l))
        with (y ++ sep ++ String.concat sep (z :: l))%string.
      apply occursInOrder_prefix, occursInOrder_prefix, IH.
Qed.

Lemma remediation_in_lines base commitToBackport errorMessage head :
  subsequence (remediation base commitToBackport errorMessage head)
    (failedBackportCommentLines base commitToBackport errorMessage head).
Proof.
  unfold remediation, failedBackportCommentLines. cbv zeta.
  apply sub_skip, sub_skip, sub_take, sub_skip, sub_skip, sub_skip, sub_skip, sub_take,
    sub_skip, sub_take, sub_skip, sub_skip, sub_skip, sub_take, sub_skip, sub_take,
    sub_skip, sub_take, sub_skip, sub_skip, sub_skip, sub_take, sub_skip, sub_take,
    sub_nil.
Qed.

Lemma comment_holds_remediation base commitToBackport errorMessage head :
  occursInOrder (remediation base commitToBackport errorMessage head)
    (getFailedBackportCommentBody base commitToBackport errorMessage head).
Proof. apply occursInOrder_join, remediation_in_lines. Qed.

(** What the [try]/[catch] of a target does with the outcome of
    [backportOnce]. *)
Lemma tryBackport_run env i commitToBackport base head tr :
  tryBackport env i commitToBackport base head tr
  = match backportOnceFor env i commitToBackport base head tr with
    | (Ok _, tr1) => (Ok tt, tr1)
    | (Throw (ErrorObject name message), tr1) =>
        let tr2 := tr1 ++ [(LogError (ErrorObject name message), Returns noData)] in
        let c :=
          commentCall i (getFailedBackportCommentBody base commitToBackport message head) in
        (match env tr2 c with Returns _ => Ok tt | Throws t => Throw t end,
         tr2 ++ [(c, env tr2 c)])
    | (Throw (NonError typeofError), tr1) =>
        (Throw (TypeError ("Caught error of unexpected type: " ++ typeofError)%string), tr1)
    end.
Proof.
  unfold tryBackport, backportOnceFor, tryCatch. unfold bind at 1.
  destruct (backportOnce _ _ _ _ _ _ _ _ _ _ _) as [[n|[name message|ty]] tr1];
    [reflexivity| |reflexivity].
  unfold logError. rewrite bind_emit, bind_perform. cbv zeta. unfold commentCall.
  destruct (env _ _); reflexivity.
Qed.

(** C2. When [backportOnce] throws an [Error] for a target, the next calls
    are the log of the error and a comment on the pull request that is being
    backported.  Two such failures, in any two runs, that agree on the base,
    the head, the commit and the message of the error post the same body;
    the body holds the message and then the commands of the manual
    backport, from [git fetch] to the sentence that asks to open the pull
    request. *)
Theorem failure_comment_goes_to_original_pull_request
    (env1 env2 : environment) (i1 i2 : backportInputs)
    (commitToBackport base head message name1 name2 : string)
    (tr1 tr2 tr1' tr2' : list event) :
  backportOnceFor env1 i1 commitToBackport base head tr1
    = (Throw (ErrorObject name1 message), tr1') ->
  backportOnceFor env2 i2 commitToBackport base head tr2
    = (Throw (ErrorObject name2 message), tr2') ->
  exists body o1 o2,
    snd (tryBackport env1 i1 commitToBackport base head tr1)
      = tr1' ++ [ (LogError (ErrorObject name1 message), Returns noData);
                  (commentCall i1 body, o1) ] /\
    snd (tryBackport env2 i2 commitToBackport base head tr2)
      = tr2' ++ [ (LogError (ErrorObject name2 message), Returns noData);
                  (commentCall i2 body, o2) ] /\
    body = getFailedBackportCommentBody base commitToBackport message head /\
    occursInOrder (remediation base commitToBackport message head) body.
Proof.
  intros H1 H2.
  exists (getFailedBackportCommentBody base commitToBackport message head).
  rewrite !tryBackport_run, H1, H2. cbv zeta. simpl snd.
  eexists; eexists.
  split; [rewrite <- app_assoc; reflexivity|].
  split; [rewrite <- app_assoc; reflexivity|].
  split; [reflexivity|apply comment_holds_remediation].
Qed.

End Comment.

Lemma failure_comment_goes_to_original_pull_request_witness :
  exists body o1 o2,
    snd (tryBackport conflictEnv mergedTwoTargets "abc" "release-1"
           "backport-42-to-release-1" [])
      = snd (backportOnceFor conflictEnv mergedTwoTargets "abc" "release-1"
               "backport-42-to-release-1" [])
        ++ [ (LogError
                (ErrorObject "Error" "The process '/usr/bin/git' failed with exit code 1"),
              Returns noData);
             (commentCall mergedTwoTargets body, o1) ] /\
    snd (tryBackport refusedPushEnv otherRun "abc" "release-1"
           "backport-42-to-release-1" [])
      = snd (backportOnceFor refusedPushEnv otherRun "abc" "release-1"
               "backport-42-to-release-1" [])
        ++ [ (LogError
                (ErrorObject "Error" "The process '/usr/bin/git' failed with exit code 1"),
              Returns noData);
             (commentCall otherRun body, o2) ] /\
    body = getFailedBackportCommentBody "release-1" "abc"
             "The process '/usr/bin/git' failed with exit code 1"
             "backport-42-to-release-1" /\
    occursInOrder
      (remediation "release-1" "abc" "The process '/usr/bin/git' failed with exit code 1"
         "backport-42-to-release-1")
      body.
Proof.
  apply (failure_comment_goes_to_original_pull_request
           conflictEnv refusedPushEnv mergedTwoTargets otherRun
           "abc" "release-1" "backport-42-to-release-1"
           "The process '/usr/bin/git' failed with exit code 1" "Error" "Error"
           [] []); reflexivity.
Defined.

(** ** The cleanup of the branch *)

Section Cleanup.

Variable env : environment.

Lemma deleteBackportBranchIfMerged_run base head owner pullRequestNumber repo tr :
  deleteBackportBranchIfMerged env base head owner pullRequestNumber repo tr
  = let check := PullsCheckIfMerged owner pullRequestNumber repo in
    match env tr check with
    | Throws t => (Ok tt, tr ++ [(check, Throws t)])
    | Returns r =>
        let tr1 :=
          tr ++ [ (check, Returns r);
                  (Info "The backport PR is merged, deleting the backport branch",
                   Returns noData) ] in
        (match env tr1 (deleteCall repo base head) with
         | Returns _ => Ok tt
         | Throws t => Throw t
         end,
         tr1 ++ [(deleteCall repo base head, env tr1 (deleteCall repo base head))])
    end.
Proof.
  unfold deleteBackportBranchIfMerged. unfold bind at 1. unfold tryCatch.
  rewrite bind_perform. cbv zeta.
  destruct (env tr (PullsCheckIfMerged owner pullRequestNumber repo)) as [r|t];
    [|reflexivity].
  unfold ret, info. rewrite bind_emit, git_run. fold (deleteCall repo base head).
  rewrite <- app_assoc. simpl app.
  destruct (env _ (deleteCall repo base head)); reflexivity.
Qed.

Lemma backportTarget_run i commitToBackport base head tr :
  backportTarget env i commitToBackport (base, head) tr
  = match
      tryBackport env i commitToBackport base head
        (tr ++ [(StartGroup (groupName base head), Returns noData)])
    with
    | (Throw t, tr1) => (Throw t, tr1 ++ [(EndGroup, Returns noData)])
    | (Ok _, tr1) =>
        if deleteBranch i then
          deleteBackportBranchIfMerged env base head
            (owner_login (payload_repository (payload i)))
            (number (pull_request (payload i)))
            (repository_name (payload_repository (payload i)))
            (tr1 ++ [ (EndGroup, Returns noData);
                      (Info ("Deleting backport branch " ++ head)%string, Returns noData) ])
        else (Ok tt, tr1 ++ [(EndGroup, Returns noData)])
    end.
Proof.
  unfold backportTarget, group, groupName. unfold bind at 1.
  rewrite bind_emit. unfold tryFinally.
  destruct (tryBackport _ _ _ _ _ _) as [[[]|t] tr1]; simpl; [|reflexivity].
  destruct (deleteBranch i); [|reflexivity].
  unfold info. rewrite bind_emit, <- app_assoc. reflexivity.
Qed.

(** C10. With the deletion of branches enabled, once the [try]/[catch] of a
    target is over (whether [backportOnce] returned the number of a new pull
    request, whatever that number, or threw an [Error] that was reported in
    a comment, no pull request being created), the group is closed, the
    deletion is announced and the merged-check is made on the number of the
    pull request that is being backported. *)
Theorem cleanup_checks_original_pull_request (i : backportInputs)
    (commitToBackport base head : string) (tr tr1 tr2 : list event) (r : result N) :
  deleteBranch i = true ->
  backportOnceFor env i commitToBackport base head
    (tr ++ [(StartGroup (groupName base head), Returns noData)]) = (r, tr1) ->
  ((exists n, r = Ok n) /\ tr2 = tr1) \/
  (exists name message ret,
     r = Throw (ErrorObject name message) /\
     env (tr1 ++ [(LogError (ErrorObject name message), Returns noData)])
       (commentCall i (getFailedBackportCommentBody base commitToBackport message head))
     = Returns ret /\
     tr2 = tr1 ++ [ (LogError (ErrorObject name message), Returns noData);
                    (commentCall i
                       (getFailedBackportCommentBody base commitToBackport message head),
                     Returns ret) ]) ->
  exists rest,
    snd (backportTarget env i commitToBackport (base, head) tr)
    = tr2 ++ [ (EndGroup, Returns noData);
               (Info ("Deleting backport branch " ++ head)%string, Returns noData);
               (mergedCheckCall i,
                env (tr2 ++ [ (EndGroup, Returns noData);
                              (Info ("Deleting backport branch " ++ head)%string,
                               Returns noData) ])
                  (mergedCheckCall i)) ]
          ++ rest.
Proof.
  intros Hdel Hrun Hover.
  rewrite backportTarget_run, tryBackport_run, Hrun, Hdel.
  assert (Hcheck : forall t2,
            exists rest,
              snd (deleteBackportBranchIfMerged env base head
                     (owner_login (payload_repository (payload i)))
                     (number (pull_request (payload i)))
                     (repository_name (payload_repository (payload i)))
                     (t2 ++ [ (EndGroup, Returns noData);
                              (Info ("Deleting backport branch " ++ head)%string,
                               Returns noData) ]))
              = t2 ++ [ (EndGroup, Returns noData);
                        (Info ("Deleting backport branch " ++ head)%string, Returns noData);
                        (mergedCheckCall i,
                         env (t2 ++ [ (EndGroup, Returns noData);
                                      (Info ("Deleting backport branch " ++ head)%string,
                                       Returns noData) ])
                           (mergedCheckCall i)) ]
                    ++ rest).
  { intros t2. rewrite deleteBackportBranchIfMerged_run. cbv zeta.
    fold (mergedCheckCall i).
    destruct (env _ (mergedCheckCall i)) as [ret|t] eqn:E.
    - eexists. simpl snd. rewrite <- !app_assoc. simpl app. reflexivity.
    - exists []. simpl snd. rewrite <- !app_assoc. reflexivity. }
  destruct Hover as [[[n ->] ->]|(name & message & ret & -> & Hc & ->)].
  - apply Hcheck.
  - cbv zeta. rewrite Hc.
    replace ((tr1 ++ [(LogError (ErrorObject name message), Returns noData)])
               ++ [(commentCall i
                      (getFailedBackportCommentBody base commitToBackport message head),
                    Returns ret)])
      with (tr1 ++ [ (LogError (ErrorObject name message), Returns noData);
                     (commentCall i
                        (getFailedBackportCommentBody base commitToBackport message head),
                      Returns ret) ])
      by (rewrite <- app_assoc; reflexivity).
    apply Hcheck.
Qed.

End Cleanup.

Lemma cleanup_checks_original_pull_request_witness :
  exists rest,
    map fst
      (snd (backportTarget conflictEnv mergedTwoTargets "abc"
              ("release-1", "backport-42-to-release-1") []))
    = [ StartGroup "Backporting to release-1 on backport-42-to-release-1";
        switchCall "r" "release-1";
        createBranchCall "r" "backport-42-to-release-1";
        cherryPickCall "r" "abc";
        abortCall "r";
        LogError (ErrorObject "Error" "The process '/usr/bin/git' failed with exit code 1");
        commentCall mergedTwoTargets
          (getFailedBackportCommentBody "release-1" "abc"
             "The process '/usr/bin/git' failed with exit code 1"
             "backport-42-to-release-1");
        EndGroup;
        Info "Deleting backport branch backport-42-to-release-1";
        PullsCheckIfMerged "o" 42 "r" ]
      ++ rest.
Proof.
  destruct (cleanup_checks_original_pull_request conflictEnv mergedTwoTargets
              "abc" "release-1" "backport-42-to-release-1" []
              (snd (backportOnceFor conflictEnv mergedTwoTargets "abc" "release-1"
                      "backport-42-to-release-1"
                      [(StartGroup (groupName "release-1" "backport-42-to-release-1"),
                        Returns noData)]))
              _
              (Throw (ErrorObject "Error"
                        "The process '/usr/bin/git' failed with exit code 1"))
              eq_refl eq_refl
              (or_intror
                 (ex_intro _ "Error"
                    (ex_intro _ "The process '/usr/bin/git' failed with exit code 1"
                       (ex_intro _ noData (conj eq_refl (conj eq_refl eq_refl)))))))
    as [rest H].
  exists (map fst rest). rewrite H. reflexivity.
Defined.

(** A check that throws means "not merged": the cleanup returns and
    deletes nothing. *)
Lemma check_that_throws_deletes_nothing env base head owner n repo tr t :
  env tr (PullsCheckIfMerged owner n repo) = Throws t ->
  deleteBackportBranchIfMerged env base head owner n repo tr
  = (Ok tt, tr ++ [(PullsCheckIfMerged owner n repo, Throws t)]).
Proof.
  intros H. rewrite deleteBackportBranchIfMerged_run. cbv zeta. rewrite H. reflexivity.
Qed.

(** A check that returns is followed by the deletion of the head branch. *)
Lemma check_that_returns_deletes_branch env base head owner n repo tr r :
  env tr (PullsCheckIfMerged owner n repo) = Returns r ->
  exists o,
    snd (deleteBackportBranchIfMerged env base head owner n repo tr)
    = tr ++ [ (PullsCheckIfMerged owner n repo, Returns r);
              (Info "The backport PR is merged, deleting the backport branch",
               Returns noData);
              (deleteCall repo base head, o) ].
Proof.
  intros H. rewrite deleteBackportBranchIfMerged_run. cbv zeta. rewrite H.
  eexists. simpl snd. rewrite <- app_assoc. reflexivity.
Qed.

(** C1. Pull request 42 is merged and is backported to [release-2]; the
    new pull request gets the number 43 and is not merged.  The cleanup asks
    whether 42 is merged, not 43, is told that it is, and deletes the branch
    of the pull request it has just opened. *)
Theorem cleanup_asks_about_the_merged_pull_request :
  map fst
    (snd (backportTarget conflictEnv mergedTwoTargets "abc"
            ("release-2", "backport-42-to-release-2") []))
  = [ StartGroup "Backporting to release-2 on backport-42-to-release-2";
      switchCall "r" "release-2";
      createBranchCall "r" "backport-42-to-release-2";
      cherryPickCall "r" "abc";
      checkoutCall "r" "CHANGELOG.md";
      commitCall "r";
      pushCall "r" "backport-42-to-release-2";
      PullsCreate "release-2" "Backport abc from #42" "backport-42-to-release-2" "o" "r"
        "[release-2] Fix bug";
      IssuesAddLabels 43 ["backport"] "o" "r";
      EndGroup;
      Info "Deleting backport branch backport-42-to-release-2";
      PullsCheckIfMerged "o" 42 "r";
      Info "The backport PR is merged, deleting the backport branch";
      deleteCall "r" "release-2" "backport-42-to-release-2" ] /\
  conflictEnv [] (PullsCheckIfMerged "o" 43 "r")
  = Throws (ErrorObject "HttpError" "Not Found").
Proof. split; reflexivity. Qed.

(** ** The loop over the targets *)

Section Loop.

Variable env : environment.

(** Outside [backportOnce], nothing fails: the comment is posted and the
    branch, if it is to be deleted, is deleted. *)
Hypothesis comment_and_deletion_return :
  forall tr c, commentOrDeletion c -> exists r, env tr c = Returns r.

(** What is thrown is an [Error]. *)
Hypothesis errors_only :
  forall tr c t, env tr c = Throws t -> exists name message, t = ErrorObject name message.

Lemma onceCall_notStartGroup (l : list event) :
  Forall (fun ev => onceCall (fst ev)) l -> Forall notStartGroup l.
Proof.
  apply Forall_impl. intros [c o] H name E. simpl in *. subst c. exact H.
Qed.

Lemma backportOnce_throws_error base body commitToBackport files head labelsToAdd
    owner repo title tr t tr' :
  backportOnce env base body commitToBackport files head labelsToAdd owner repo title tr
    = (Throw t, tr') ->
  exists name message, t = ErrorObject name message.
Proof.
  intros Hrun.
  destruct (backportOnce_shape env base body commitToBackport files head labelsToAdd
              owner repo title tr)
    as (r & added & Hrun0 & _ & Hans & _ & Hcases).
  rewrite Hrun in Hrun0. injection Hrun0 as <- _.
  destruct Hcases as [(n & F & _)
                     |[(rets & c & e & -> & _ & _ & E & _)
                      |(rets & c & e & o' & -> & _ & _ & Ho' & E)]].
  - discriminate.
  - injection E as ->.
    apply Forall_app in Hans as [_ Hans]. inversion Hans as [|? ? [tr0 H0] _]; subst.
    simpl in H0. symmetry in H0. exact (errors_only _ _ _ H0).
  - injection E as ->. destruct o' as [ret|e'].
    + apply Forall_app in Hans as [_ Hans]. inversion Hans as [|? ? [tr0 H0] _]; subst.
      simpl in H0. symmetry in H0. exact (errors_only _ _ _ H0).
    + symmetry in Ho'. exact (errors_only _ _ _ Ho').
Qed.

Lemma cleanup_returns (i : backportInputs) base head tr :
  exists seg,
    (if deleteBranch i then
       deleteBackportBranchIfMerged env base head
         (owner_login (payload_repository (payload i)))
         (number (pull_request (payload i)))
         (repository_name (payload_repository (payload i)))
         (tr ++ [ (EndGroup, Returns noData);
                  (Info ("Deleting backport branch " ++ head)%string, Returns noData) ])
     else (Ok tt, tr ++ [(EndGroup, Returns noData)]))
    = (Ok tt, tr ++ seg) /\
    Forall notStartGroup seg.
Proof.
  destruct (deleteBranch i).
  2:{ exists [(EndGroup, Returns noData)]. split; [reflexivity|].
      constructor; [intros name; discriminate|constructor]. }
  rewrite deleteBackportBranchIfMerged_run. cbv zeta.
  destruct (env _ (PullsCheckIfMerged _ _ _)) as [ret|t].
  - match goal with
    | |- context [env ?t (deleteCall ?r ?b ?h)] =>
        destruct (comment_and_deletion_return t (deleteCall r b h)) as [ret' E];
          [right; eauto|rewrite E]
    end.
    eexists. split; [rewrite <- !app_assoc; simpl app; reflexivity|].
    repeat constructor; intros name; discriminate.
  - eexists. split; [rewrite <- !app_assoc; simpl app; reflexivity|].
    repeat constructor; intros name; discriminate.
Qed.

(** One target: its group is opened, the switch to its base is made, and
    the turn of the loop ends without a thrown value. *)
Lemma backportTarget_stretch (i : backportInputs) commitToBackport base head tr :
  exists o seg,
    backportTarget env i commitToBackport (base, head) tr
    = (Ok tt,
       tr ++ (StartGroup (groupName base head), Returns noData)
          :: (switchCall (repository_name (payload_repository (payload i))) base, o)
          :: seg) /\
    Forall notStartGroup seg.
Proof.
  rewrite backportTarget_run, tryBackport_run.
  set (tr0 := tr ++ [(StartGroup (groupName base head), Returns noData)]).
  unfold backportOnceFor.
  match goal with
  | |- context [backportOnce env ?b ?bd ?cm ?fs ?h ?ls ?ow ?rp ?ti tr0] =>
      destruct (backportOnce_shape env b bd cm fs h ls ow rp ti tr0)
        as (r & added & Hrun & (o & rest & ->) & _ & Hcalls & _);
      pose proof (backportOnce_throws_error b bd cm fs h ls ow rp ti tr0) as Herr
  end.
  rewrite Hrun in *.
  apply onceCall_notStartGroup in Hcalls. inversion Hcalls as [|? ? _ Hrest]; subst.
  destruct r as [n|t].
  - destruct (cleanup_returns i base head
                (tr0 ++ (switchCall (repository_name (payload_repository (payload i))) base, o)
                     :: rest))
      as (seg & Hcl & Hseg).
    exists o, (rest ++ seg). split.
    + rewrite Hcl. unfold tr0. rewrite <- !app_assoc. reflexivity.
    + apply Forall_app. split; assumption.
  - destruct (Herr t _ eq_refl) as (name & message & ->). cbv zeta.
    match goal with
    | |- context [env ?t (commentCall i ?b)] =>
        destruct (comment_and_deletion_return t (commentCall i b)) as [ret E];
          [left; unfold commentCall; eauto|]
    end.
    match type of E with
    | env ?t ?c = _ =>
        destruct (cleanup_returns i base head (t ++ [(c, Returns ret)]))
          as (seg & Hcl & Hseg)
    end.
    eexists o, (rest ++ _ :: _ :: seg). split.
    + rewrite E, Hcl. unfold tr0. rewrite <- !app_assoc. simpl app. reflexivity.
    + apply Forall_app. split; [exact Hrest|].
      constructor; [intros nm; discriminate|].
      constructor; [intros nm; discriminate|exact Hseg].
Qed.

(** The loop over any list of targets. *)
Lemma backportTargets_stretches (i : backportInputs) (commitToBackport : string)
    (targets : list (string * string)) : forall tr,
  exists added,
    backportTargets env i commitToBackport targets tr = (Ok tt, tr ++ added) /\
    processedInOrder (repository_name (payload_repository (payload i))) targets added.
Proof.
  unfold backportTargets.
  induction targets as [|[base head] targets IH]; intros tr.
  - exists []. rewrite app_nil_r. split; [reflexivity|constructor].
  - rewrite forOf_cons. unfold bind.
    destruct (backportTarget_stretch i commitToBackport base head tr)
      as (o & seg & -> & Hseg).
    destruct (IH (tr ++ (StartGroup (groupName base head), Returns noData)
                     :: (switchCall (repository_name (payload_repository (payload i))) base, o)
                     :: seg))
      as (added & -> & Hproc).
    exists ((StartGroup (groupName base head), Returns noData)
              :: (switchCall (repository_name (payload_repository (payload i))) base, o)
              :: seg ++ added).
    split.
    + rewrite <- app_assoc. reflexivity.
    + apply processed_cons; assumption.
Qed.

(** X15. The whole run, when the calls made before the loop return as well:
    the targets parsed from the labels are processed in the order of
    [Object.entries]. *)
Lemma backport_processes_parsed_targets (i : backportInputs)
    (backportBaseToHead : JS.Obj.t) (tr : list event) :
  (forall tr owner repo, exists r, env tr (ReposGet owner repo) = Returns r) ->
  (forall tr args, exists r, env tr (Exec "git" args None) = Returns r) ->
  merged (pull_request (payload i)) = true ->
  getBackportBaseToHead (action (payload i)) (branchName i) (payload_label (payload i))
    (labels (pull_request (payload i))) (number (pull_request (payload i)))
  = Ok backportBaseToHead ->
  JS.Obj.keys backportBaseToHead <> [] ->
  exists prelude added,
    backport env i tr = (Ok tt, tr ++ prelude ++ added) /\
    Forall notStartGroup prelude /\
    processedInOrder (repository_name (payload_repository (payload i)))
      (JS.Obj.entries backportBaseToHead) added.
Proof.
  intros Hget Hexec Hm Hparse Hkeys.
  unfold backport. rewrite Hm, Hparse.
  destruct (JS.Obj.keys backportBaseToHead) as [|k ks] eqn:Ek; [contradiction|].
  change (negb true) with false.
  change (length (k :: ks) =? 0)%nat with false. cbv iota.
  set (owner := owner_login (payload_repository (payload i))).
  set (repo := repository_name (payload_repository (payload i))).
  set (commit := JS.String_ofNullable (merge_commit_sha (pull_request (payload i)))).
  match goal with
  | |- context [bind (warnIfSquashIsNotTheOnlyAllowedMergeMethod _ _ _) ?k] =>
      assert (Hrest : forall t0, exists p added,
                k tt t0 = (Ok tt, t0 ++ p ++ added) /\
                Forall notStartGroup p /\
                processedInOrder repo (JS.Obj.entries backportBaseToHead) added)
  end.
  { intros t0. unfold info. rewrite bind_emit, bind_exec.
    match goal with
    | |- context [env ?t (Exec "git" ?a None)] =>
        destruct (Hexec t a) as [r2 E2]; rewrite E2
    end.
    rewrite bind_exec.
    match goal with
    | |- context [env ?t (Exec "git" ("config" :: ?a) None)] =>
        destruct (Hexec t ("config" :: a)) as [r3 E3]; rewrite E3
    end.
    rewrite bind_exec.
    match goal with
    | |- context [env ?t (Exec "git" ["config"; "--global"; "user.name"; ?a] None)] =>
        destruct (Hexec t ["config"; "--global"; "user.name"; a]) as [r4 E4]; rewrite E4
    end.
    match goal with
    | |- context [backportTargets env i ?c ?ts ?t] =>
        destruct (backportTargets_stretches i c ts t) as (added & -> & Hproc)
    end.
    match goal with
    | |- context [((((t0 ++ [?e1]) ++ [?e2]) ++ [?e3]) ++ [?e4]) ++ added] =>
        exists [e1; e2; e3; e4], added
    end.
    split.
    - rewrite <- !app_assoc. simpl app. reflexivity.
    - split; [|exact Hproc]. repeat constructor; intros nm; discriminate. }
  unfold warnIfSquashIsNotTheOnlyAllowedMergeMethod.
  rewrite bind_bind, bind_perform.
  destruct (Hget tr owner repo) as [r1 E1]. rewrite E1.
  destruct (data_allow_merge_commit r1 || data_allow_rebase_merge r1).
  - unfold warning. rewrite bind_emit.
    match goal with
    | |- context [(tr ++ [?a]) ++ [?b]] =>
        destruct (Hrest ((tr ++ [a]) ++ [b])) as (p & added & -> & Hp & Hproc);
          exists (a :: b :: p), added
    end.
    split; [rewrite <- !app_assoc; reflexivity|].
    split; [|exact Hproc].
    constructor; [intros nm; discriminate|].
    constructor; [intros nm; discriminate|exact Hp].
  - rewrite bind_ret.
    match goal with
    | |- context [tr ++ [?a]] =>
        destruct (Hrest (tr ++ [a])) as (p & added & -> & Hp & Hproc);
          exists (a :: p), added
    end.
    split; [rewrite <- !app_assoc; reflexivity|].
    split; [|exact Hproc].
    constructor; [intros nm; discriminate|exact Hp].
Qed.

End Loop.

Example two_targets_one_conflict :
  map fst (snd (backport conflictEnv mergedTwoTargets []))
  = [ ReposGet "o" "r";
      Info "Backporting abc from #42";
      Exec "git" ["clone"; "https://x-access-token:T@github.com/o/r.git"] None;
      Exec "git"
        ["config"; "--global"; "user.email"; "github-actions[bot]@users.noreply.github.com"]
        None;
      Exec "git" ["config"; "--global"; "user.name"; "github-actions[bot]"] None;
      StartGroup "Backporting to release-1 on backport-42-to-release-1";
      switchCall "r" "release-1";
      createBranchCall "r" "backport-42-to-release-1";
      cherryPickCall "r" "abc";
      abortCall "r";
      LogError gitFailure;
      commentCall mergedTwoTargets
        (getFailedBackportCommentBody "release-1" "abc"
           "The process '/usr/bin/git' failed with exit code 1" "backport-42-to-release-1");
      EndGroup;
      Info "Deleting backport branch backport-42-to-release-1";
      PullsCheckIfMerged "o" 42 "r";
      Info "The backport PR is merged, deleting the backport branch";
      deleteCall "r" "release-1" "backport-42-to-release-1";
      StartGroup "Backporting to release-2 on backport-42-to-release-2";
      switchCall "r" "release-2";
      createBranchCall "r" "backport-42-to-release-2";
      cherryPickCall "r" "abc";
      checkoutCall "r" "CHANGELOG.md";
      commitCall "r";
      pushCall "r" "backport-42-to-release-2";
      PullsCreate "release-2" "Backport abc from #42" "backport-42-to-release-2" "o" "r"
        "[release-2] Fix bug";
      IssuesAddLabels 43 ["backport"] "o" "r";
      EndGroup;
      Info "Deleting backport branch backport-42-to-release-2";
      PullsCheckIfMerged "o" 42 "r";
      Info "The backport PR is merged, deleting the backport branch";
      deleteCall "r" "release-2" "backport-42-to-release-2" ].
Proof. reflexivity. Qed.

(** ** What the procedures can call *)

Section CallsOnly.

Variable Q : call -> Prop.

Lemma callsOnly_ret {A} (a : A) : callsOnly Q (ret a).
Proof. intros tr. exists []. rewrite app_nil_r. split; [reflexivity|constructor]. Qed.

Lemma callsOnly_throw {A} t : callsOnly Q (@throw A t).
Proof. intros tr. exists []. rewrite app_nil_r. split; [reflexivity|constructor]. Qed.

Lemma callsOnly_emit c : Q c -> callsOnly Q (emit c).
Proof.
  intros H tr. exists [(c, Returns noData)]. split; [reflexivity|].
  constructor; [exact H|constructor].
Qed.

Lemma callsOnly_perform env c : Q c -> callsOnly Q (perform env c).
Proof.
  intros H tr. exists [(c, env tr c)]. split; [reflexivity|].
  constructor; [exact H|constructor].
Qed.

Lemma callsOnly_bind {A B} (m : M A) (k : A -> M B) :
  callsOnly Q m -> (forall a, callsOnly Q (k a)) -> callsOnly Q (bind m k).
Proof.
  intros Hm Hk tr. destruct (Hm tr) as (a1 & E1 & H1).
  unfold bind. destruct (m tr) as [[a|t] tr1]; simpl in E1; subst tr1.
  - destruct (Hk a (tr ++ a1)) as (a2 & E2 & H2).
    exists (a1 ++ a2). rewrite E2, app_assoc. split; [reflexivity|].
    apply Forall_app. split; assumption.
  - exists a1. split; [reflexivity|exact H1].
Qed.

Lemma callsOnly_tryCatch {A} (m : M A) (handler : thrown -> M A) :
  callsOnly Q m -> (forall t, callsOnly Q (handler t)) -> callsOnly Q (tryCatch m handler).
Proof.
  intros Hm Hh tr. destruct (Hm tr) as (a1 & E1 & H1).
  unfold tryCatch. destruct (m tr) as [[a|t] tr1]; simpl in E1; subst tr1.
  - exists a1. split; [reflexivity|exact H1].
  - destruct (Hh t (tr ++ a1)) as (a2 & E2 & H2).
    exists (a1 ++ a2). rewrite E2, app_assoc. split; [reflexivity|].
    apply Forall_app. split; assumption.
Qed.

Lemma callsOnly_tryFinally {A} (m : M A) (cleanup : M unit) :
  callsOnly Q m -> callsOnly Q cleanup -> callsOnly Q (tryFinally m cleanup).
Proof.
  intros Hm Hc tr. destruct (Hm tr) as (a1 & E1 & H1).
  unfold tryFinally. destruct (m tr) as [r tr1]; simpl in E1; subst tr1.
  destruct (Hc (tr ++ a1)) as (a2 & E2 & H2).
  destruct (cleanup (tr ++ a1)) as [[u|t] tr2]; simpl in E2; subst tr2;
    exists (a1 ++ a2); rewrite app_assoc; (split; [reflexivity|]);
    apply Forall_app; split; assumption.
Qed.

Lemma callsOnly_forOf {A} (l : list A) (body : A -> M unit) :
  (forall x, In x l -> callsOnly Q (body x)) -> callsOnly Q (forOf l body).
Proof.
  induction l as [|x l IH]; intros H.
  - apply callsOnly_ret.
  - simpl forOf. apply callsOnly_bind.
    + apply H. left; reflexivity.
    + intros _. apply IH. intros y Hy. apply H. right; exact Hy.
Qed.

Lemma callsOnly_git env repo args :
  Q (Exec "git" args (Some repo)) -> callsOnly Q (git env repo args).
Proof.
  intros H. unfold git, exec. apply callsOnly_bind.
  - apply callsOnly_perform, H.
  - intros _. apply callsOnly_ret.
Qed.

Lemma callsOnly_exec env commandLine args cwd :
  Q (Exec commandLine args cwd) -> callsOnly Q (exec env commandLine args cwd).
Proof.
  intros H. unfold exec. apply callsOnly_bind.
  - apply callsOnly_perform, H.
  - intros _. apply callsOnly_ret.
Qed.

End CallsOnly.

Lemma callsOnly_weaken {A} (Q1 Q2 : call -> Prop) (m : M A) :
  (forall c, Q1 c -> Q2 c) -> callsOnly Q1 m -> callsOnly Q2 m.
Proof.
  intros H Hm tr. destruct (Hm tr) as (added & E & Hf).
  exists added. split; [exact E|].
  revert Hf. apply Forall_impl. intros ev. apply H.
Qed.

Section TargetCalls.

Variables (env : environment) (i : backportInputs) (commitToBackport base head : string).

Let T := targetCall i commitToBackport base head.

(** The calls of a target other than the opening and the closing of its
    group. *)
Let B := fun c => T c /\ notGroupCall c.

Lemma backportOnceFor_calls : callsOnly B (backportOnceFor env i commitToBackport base head).
Proof.
  unfold backportOnceFor, backportOnce.
  apply callsOnly_bind;
    [apply callsOnly_git; split; [apply tc_switch|exact I]|intros _].
  apply callsOnly_bind;
    [apply callsOnly_git; split; [apply tc_create|exact I]|intros _].
  apply callsOnly_bind.
  { apply callsOnly_tryCatch.
    - apply callsOnly_bind;
        [apply callsOnly_git; split; [apply tc_pick|exact I]|intros _].
      apply callsOnly_bind;
        [|intros _; apply callsOnly_git; split; [apply tc_commit|exact I]].
      apply callsOnly_forOf. intros file Hf.
      apply callsOnly_git; split; [apply tc_checkout, Hf|exact I].
    - intros t.
      apply callsOnly_bind;
        [apply callsOnly_git; split; [apply tc_abort|exact I]|intros _].
      apply callsOnly_throw. }
  intros _.
  apply callsOnly_bind;
    [apply callsOnly_git; split; [apply tc_push|exact I]|intros _].
  apply callsOnly_bind;
    [apply callsOnly_perform; split; [apply tc_pull|exact I]|intros r].
  cbv zeta.
  apply callsOnly_bind; [|intros _; apply callsOnly_ret].
  destruct (labelsToAdd i) as [|x l] eqn:El; simpl.
  - apply callsOnly_ret.
  - apply callsOnly_bind; [|intros _; apply callsOnly_ret].
    apply callsOnly_perform. split; [|exact I].
    rewrite <- El. apply tc_labels. rewrite El. discriminate.
Qed.

Lemma tryBackport_calls : callsOnly B (tryBackport env i commitToBackport base head).
Proof.
  unfold tryBackport. apply callsOnly_tryCatch.
  - apply callsOnly_bind; [apply backportOnceFor_calls|intros _; apply callsOnly_ret].
  - intros [name message|ty].
    + apply callsOnly_bind;
        [apply callsOnly_emit; split; [apply tc_log|exact I]|intros _].
      apply callsOnly_bind; [|intros _; apply callsOnly_ret].
      apply callsOnly_perform. split; [|exact I].
      apply (tc_comment i commitToBackport base head message).
    + apply callsOnly_throw.
Qed.

Lemma cleanup_calls :
  deleteBranch i = true ->
  callsOnly B
    (info ("Deleting backport branch " ++ head)%string ;;
     deleteBackportBranchIfMerged env base head
       (owner_login (payload_repository (payload i)))
       (number (pull_request (payload i)))
       (repository_name (payload_repository (payload i)))).
Proof.
  intros Hd.
  apply callsOnly_bind;
    [apply callsOnly_emit; split; [apply tc_deleting, Hd|exact I]|intros _].
  unfold deleteBackportBranchIfMerged.
  apply callsOnly_bind.
  - apply callsOnly_tryCatch.
    + apply callsOnly_bind; [|intros _; apply callsOnly_ret].
      apply callsOnly_perform. split; [|exact I].
      apply (tc_check i commitToBackport base head Hd).
    + intros _. apply callsOnly_ret.
  - intros [|]; [|apply callsOnly_ret].
    apply callsOnly_bind;
      [apply callsOnly_emit; split; [apply tc_merged, Hd|exact I]|intros _].
    apply callsOnly_git. split; [|exact I].
    apply (tc_delete i commitToBackport base head Hd).
Qed.

(** After the [try]/[catch]: the cleanup, or nothing. *)
Lemma afterGroup_calls :
  callsOnly B
    (if deleteBranch i then
       info ("Deleting backport branch " ++ head)%string ;;
       deleteBackportBranchIfMerged env base head
         (owner_login (payload_repository (payload i)))
         (number (pull_request (payload i)))
         (repository_name (payload_repository (payload i)))
     else ret tt).
Proof.
  destruct (deleteBranch i) eqn:Hd; [apply cleanup_calls, Hd|apply callsOnly_ret].
Qed.

Lemma backportTarget_calls :
  callsOnly T (backportTarget env i commitToBackport (base, head)).
Proof.
  unfold backportTarget. apply callsOnly_bind.
  - unfold group. apply callsOnly_bind; [apply callsOnly_emit, tc_start|intros _].
    apply callsOnly_tryFinally; [|apply callsOnly_emit, tc_end].
    eapply callsOnly_weaken; [|apply tryBackport_calls]. intros c [H _]. exact H.
  - intros _. eapply callsOnly_weaken; [|apply afterGroup_calls].
    intros c [H _]. exact H.
Qed.

(** The trace of a target: its group is opened, the [try]/[catch] runs, the
    group is closed, the cleanup runs if the [try]/[catch] did not throw. *)
Lemma backportTarget_trace tr :
  exists inside after,
    snd (backportTarget env i commitToBackport (base, head) tr)
    = tr ++ (StartGroup (groupName base head), Returns noData)
         :: inside ++ (EndGroup, Returns noData) :: after /\
    Forall (fun ev => notGroupCall (fst ev)) inside /\
    Forall (fun ev => notGroupCall (fst ev)) after.
Proof.
  unfold backportTarget, group, groupName. unfold bind at 1. rewrite bind_emit.
  unfold tryFinally.
  destruct (tryBackport_calls (tr ++ [(StartGroup ("Backporting to " ++ base ++ " on " ++ head)%string,
                                        Returns noData)]))
    as (inside & E1 & H1).
  destruct (tryBackport _ _ _ _ _ _) as [[[]|t] tr1]; cbn [snd] in E1; subst tr1.
  - unfold emit at 1.
    destruct (afterGroup_calls
                (((tr ++ [(StartGroup ("Backporting to " ++ base ++ " on " ++ head)%string,
                           Returns noData)]) ++ inside) ++ [(EndGroup, Returns noData)]))
      as (after & E2 & H2).
    exists inside, after.
    rewrite E2, <- !app_assoc. simpl. split; [reflexivity|].
    split; [revert H1|revert H2]; apply Forall_impl; intros ev [_ H]; exact H.
  - exists inside, []. unfold emit. simpl. rewrite <- !app_assoc. simpl.
    split; [reflexivity|].
    split; [|constructor]. revert H1. apply Forall_impl. intros ev [_ H]. exact H.
Qed.

End TargetCalls.

Section RunCalls.

Variables (env : environment) (i : backportInputs).

Lemma backportTargets_calls targets :
  callsOnly (runCall i)
    (backportTargets env i
       (JS.String_ofNullable (merge_commit_sha (pull_request (payload i)))) targets).
Proof.
  unfold backportTargets. apply callsOnly_forOf. intros [base head] _.
  eapply callsOnly_weaken; [|apply backportTarget_calls].
  intros c. apply rc_target.
Qed.

(** A run makes no call outside the list of [runCall]. *)
Lemma backport_calls : callsOnly (runCall i) (backport env i).
Proof.
  unfold backport.
  destruct (negb (merged (pull_request (payload i)))); [apply callsOnly_ret|].
  destruct (getBackportBaseToHead _ _ _ _ _) as [m|t]; [|apply callsOnly_throw].
  destruct (length (JS.Obj.keys m) =? 0)%nat; [apply callsOnly_ret|].
  apply callsOnly_bind.
  { unfold warnIfSquashIsNotTheOnlyAllowedMergeMethod.
    apply callsOnly_bind; [apply callsOnly_perform, rc_get|intros r].
    destruct (data_allow_merge_commit r || data_allow_rebase_merge r).
    - apply callsOnly_emit, rc_warning.
    - apply callsOnly_ret. }
  intros _. cbv zeta.
  apply callsOnly_bind; [apply callsOnly_emit, rc_backporting|intros _].
  apply callsOnly_bind; [apply callsOnly_exec, rc_clone|intros _].
  apply callsOnly_bind; [apply callsOnly_exec, rc_email|intros _].
  apply callsOnly_bind; [apply callsOnly_exec, rc_name|intros _].
  apply backportTargets_calls.
Qed.

End RunCalls.

(** ** What a run never does *)

Section Never.

Variables (env : environment) (i : backportInputs).

Lemma backportTargets_target_calls commitToBackport targets :
  callsOnly (fun c => exists base head, targetCall i commitToBackport base head c)
    (backportTargets env i commitToBackport targets).
Proof.
  unfold backportTargets. apply callsOnly_forOf. intros [base head] _.
  eapply callsOnly_weaken; [|apply backportTarget_calls].
  intros c H. exists base, head. exact H.
Qed.

Lemma targetCall_not_cleanup commitToBackport base head c :
  deleteBranch i = false ->
  targetCall i commitToBackport base head c -> ~ cleanupCall c.
Proof.
  intros Hd H. destruct H; simpl; try tauto; congruence.
Qed.

Lemma targetCall_addresses commitToBackport base head c :
  targetCall i commitToBackport base head c -> addressesPayload i c.
Proof. intros H. destruct H; simpl; tauto. Qed.


Lemma targetCall_not_prelude commitToBackport base head c :
  targetCall i commitToBackport base head c -> ~ preludeCall c.
Proof. intros H. destruct H; simpl; tauto. Qed.

(** X16. With the deletion of branches disabled, a run never asks whether
    a pull request is merged and never deletes a remote branch, whatever
    the outside answers. *)
Theorem no_cleanup_when_deletion_is_disabled (tr : list event) :
  deleteBranch i = false ->
  exists added,
    snd (backport env i tr) = tr ++ added /\
    Forall (fun ev => ~ cleanupCall (fst ev)) added.
Proof.
  intros Hd.
  apply (callsOnly_weaken (runCall i) (fun c => ~ cleanupCall c));
    [|apply backport_calls].
  intros c H. destruct H; simpl; try tauto.
  eapply targetCall_not_cleanup; eassumption.
Qed.

(** X17. Every request a run sends to the REST interface is made on the
    repository of the payload, and every comment and every merged-check
    carries the number of the pull request of the payload: no number
    returned by the creation of a pull request is used for them. *)
Theorem requests_address_the_payload (tr : list event) :
  exists added,
    snd (backport env i tr) = tr ++ added /\
    Forall (fun ev => addressesPayload i (fst ev)) added.
Proof.
  apply (callsOnly_weaken (runCall i) (addressesPayload i)); [|apply backport_calls].
  intros c H. destruct H; simpl; try tauto.
  eapply targetCall_addresses; eassumption.
Qed.


End Never.

Lemma no_cleanup_when_deletion_is_disabled_witness :
  exists added,
    snd (backport refusedPushEnv otherRun []) = [] ++ added /\
    Forall (fun ev => ~ cleanupCall (fst ev)) added.
Proof.
  apply (no_cleanup_when_deletion_is_disabled refusedPushEnv otherRun []).
  reflexivity.
Defined.

(** ** The groups of the log *)

Section Groups.

Variables (env : environment) (i : backportInputs).

Lemma groupsAlternate_skip g (a r : list event) :
  Forall (fun ev => notGroupCall (fst ev)) a ->
  groupsAlternate g (a ++ r) = groupsAlternate g r.
Proof.
  induction 1 as [|[c o] a Hc _ IH]; [reflexivity|].
  simpl in Hc. destruct c; simpl; try exact IH; contradiction.
Qed.

Lemma groupsAlternate_app (a1 a2 : list event) : forall g,
  groupsAlternate g a1 = true ->
  groupsAlternate g (a1 ++ a2) = groupsAlternate false a2.
Proof.
  induction a1 as [|[c o] a1 IH]; intros g H; simpl in *.
  - destruct g; [discriminate|reflexivity].
  - destruct c; try (apply IH; exact H); destruct g; try discriminate; apply IH; exact H.
Qed.

Lemma target_stretch_alternates name o o' (inside after : list event) :
  Forall (fun ev => notGroupCall (fst ev)) inside ->
  Forall (fun ev => notGroupCall (fst ev)) after ->
  groupsAlternate false ((StartGroup name, o) :: inside ++ (EndGroup, o') :: after) = true.
Proof.
  intros Hi Ha. simpl. rewrite (groupsAlternate_skip true inside _ Hi). simpl.
  rewrite <- (app_nil_r after). rewrite (groupsAlternate_skip false after [] Ha).
  reflexivity.
Qed.

Lemma backportTargets_groups commitToBackport targets : forall tr,
  exists added,
    snd (backportTargets env i commitToBackport targets tr) = tr ++ added /\
    groupsAlternate false added = true.
Proof.
  unfold backportTargets.
  induction targets as [|[base head] targets IH]; intros tr.
  - exists []. rewrite app_nil_r. split; reflexivity.
  - rewrite forOf_cons. unfold bind.
    destruct (backportTarget_trace env i commitToBackport base head tr)
      as (inside & after & E & Hi & Ha).
    destruct (backportTarget env i commitToBackport (base, head) tr) as [[u|t] tr1];
      cbn [snd] in E; subst tr1.
    + destruct (IH (tr ++ (StartGroup (groupName base head), Returns noData)
                       :: inside ++ (EndGroup, Returns noData) :: after))
        as (added & E' & H').
      exists (((StartGroup (groupName base head), Returns noData)
                 :: inside ++ (EndGroup, Returns noData) :: after) ++ added).
      rewrite E', <- app_assoc. split; [reflexivity|].
      rewrite groupsAlternate_app; [exact H'|].
      apply target_stretch_alternates; assumption.
    + eexists. split; [reflexivity|].
      apply target_stretch_alternates; assumption.
Qed.

Lemma quiet_then_groups {A B} (m : M A) (k : A -> M B) :
  callsOnly notGroupCall m ->
  (forall a tr, exists added,
     snd (k a tr) = tr ++ added /\ groupsAlternate false added = true) ->
  forall tr, exists added,
    snd (bind m k tr) = tr ++ added /\ groupsAlternate false added = true.
Proof.
  intros Hm Hk tr. destruct (Hm tr) as (a1 & E1 & H1).
  unfold bind. destruct (m tr) as [[a|t] tr1]; cbn [snd] in E1; subst tr1.
  - destruct (Hk a (tr ++ a1)) as (a2 & E2 & H2).
    exists (a1 ++ a2). rewrite E2, app_assoc. split; [reflexivity|].
    rewrite groupsAlternate_skip; assumption.
  - exists a1. split; [reflexivity|].
    rewrite <- (app_nil_r a1). rewrite groupsAlternate_skip; [reflexivity|exact H1].
Qed.

(** X19. In the trace of every run, thrown value or not, the groups of the
    log are opened and closed in turn: a group is opened only when none is
    open, and the one that is open is closed before the run ends. *)
Theorem groups_are_opened_and_closed_in_turn (tr : list event) :
  exists added,
    snd (backport env i tr) = tr ++ added /\ groupsAlternate false added = true.
Proof.
  revert tr. unfold backport.
  destruct (negb (merged (pull_request (payload i))));
    [intros tr; exists []; rewrite app_nil_r; split; reflexivity|].
  destruct (getBackportBaseToHead _ _ _ _ _) as [m|t];
    [|intros tr; exists []; rewrite app_nil_r; split; reflexivity].
  destruct (length (JS.Obj.keys m) =? 0)%nat;
    [intros tr; exists []; rewrite app_nil_r; split; reflexivity|].
  apply quiet_then_groups.
  { unfold warnIfSquashIsNotTheOnlyAllowedMergeMethod.
    apply callsOnly_bind; [apply callsOnly_perform; exact I|intros r].
    destruct (data_allow_merge_commit r || data_allow_rebase_merge r);
      [apply callsOnly_emit; exact I|apply callsOnly_ret]. }
  intros _. cbv zeta.
  apply quiet_then_groups; [apply callsOnly_emit; exact I|intros _].
  apply quiet_then_groups; [apply callsOnly_exec; exact I|intros _].
  apply quiet_then_groups; [apply callsOnly_exec; exact I|intros _].
  apply quiet_then_groups; [apply callsOnly_exec; exact I|intros _].
  apply backportTargets_groups.
Qed.

End Groups.

(** ** Failures outside the per-target [try] *)

Section Prelude.

Variables (env : environment) (i : backportInputs).

Lemma preludeShape_step (ev : event) r added :
  returned ev -> notGroupCall (fst ev) ->
  preludeShape r added -> preludeShape r (ev :: added).
Proof.
  intros Hr Hg (rets & tail & -> & H1 & H2 & H3).
  exists (ev :: rets), tail. split; [reflexivity|].
  split; [constructor; assumption|]. split; [constructor; assumption|exact H3].
Qed.

Lemma preludeShape_throw c e : preludeShape (Throw e) [(c, Throws e)].
Proof.
  exists [], [(c, Throws e)]. split; [reflexivity|].
  split; [constructor|]. split; [constructor|]. left. eauto.
Qed.

Lemma preludeShape_nil r : preludeShape r [].
Proof.
  exists [], []. split; [reflexivity|].
  split; [constructor|]. split; [constructor|]. right. constructor.
Qed.

Lemma exec_then_shape commandLine args (k : M unit) :
  (forall tr, exists added, k tr = (fst (k tr), tr ++ added) /\ preludeShape (fst (k tr)) added) ->
  forall tr, exists added,
    bind (exec env commandLine args None) (fun _ => k) tr
    = (fst (bind (exec env commandLine args None) (fun _ => k) tr), tr ++ added) /\
    preludeShape (fst (bind (exec env commandLine args None) (fun _ => k) tr)) added.
Proof.
  intros Hk tr. rewrite bind_exec.
  destruct (env tr (Exec commandLine args None)) as [r|e].
  - destruct (Hk (tr ++ [(Exec commandLine args None, Returns r)])) as (added & E & H).
    exists ((Exec commandLine args None, Returns r) :: added).
    split; [rewrite E at 1; rewrite <- app_assoc; reflexivity|].
    apply preludeShape_step; [eexists; reflexivity|exact I|exact H].
  - exists [(Exec commandLine args None, Throws e)]. split; [reflexivity|].
    apply preludeShape_throw.
Qed.

Lemma emit_then_shape c (k : M unit) :
  notGroupCall c ->
  (forall tr, exists added, k tr = (fst (k tr), tr ++ added) /\ preludeShape (fst (k tr)) added) ->
  forall tr, exists added,
    bind (emit c) (fun _ => k) tr = (fst (bind (emit c) (fun _ => k) tr), tr ++ added) /\
    preludeShape (fst (bind (emit c) (fun _ => k) tr)) added.
Proof.
  intros Hc Hk tr. rewrite bind_emit.
  destruct (Hk (tr ++ [(c, Returns noData)])) as (added & E & H).
  exists ((c, Returns noData) :: added).
  split; [rewrite E at 1; rewrite <- app_assoc; reflexivity|].
  apply preludeShape_step; [eexists; reflexivity|exact Hc|exact H].
Qed.

Lemma backport_prelude_shape tr :
  exists added,
    backport env i tr = (fst (backport env i tr), tr ++ added) /\
    preludeShape (fst (backport env i tr)) added.
Proof.
  revert tr. unfold backport.
  destruct (negb (merged (pull_request (payload i))));
    [intros tr; exists []; rewrite app_nil_r; split; [reflexivity|apply preludeShape_nil]|].
  destruct (getBackportBaseToHead _ _ _ _ _) as [m|t];
    [|intros tr; exists []; rewrite app_nil_r; split; [reflexivity|apply preludeShape_nil]].
  destruct (length (JS.Obj.keys m) =? 0)%nat;
    [intros tr; exists []; rewrite app_nil_r; split; [reflexivity|apply preludeShape_nil]|].
  cbv zeta.
  match goal with
  | |- forall tr, exists added, bind _ (fun _ => ?k0) tr = _ /\ _ =>
      assert (Hk : forall tr, exists added,
                k0 tr = (fst (k0 tr), tr ++ added) /\ preludeShape (fst (k0 tr)) added)
  end.
  { unfold info. apply emit_then_shape; [exact I|].
    apply exec_then_shape. apply exec_then_shape. apply exec_then_shape.
    intros tr.
    destruct (backportTargets_target_calls env i
                (JS.String_ofNullable (merge_commit_sha (pull_request (payload i))))
                (JS.Obj.entries m) tr)
      as (added & E & H).
    exists added. split.
    - rewrite <- E. apply surjective_pairing.
    - exists [], added. split; [reflexivity|].
      split; [constructor|]. split; [constructor|]. right.
      revert H. apply Forall_impl. intros ev (base & head & Hc).
      eapply targetCall_not_prelude. exact Hc. }
  intros tr. unfold warnIfSquashIsNotTheOnlyAllowedMergeMethod.
  rewrite bind_bind, bind_perform.
  destruct (env tr (ReposGet _ _)) as [r|e].
  - destruct (data_allow_merge_commit r || data_allow_rebase_merge r).
    + unfold warning. rewrite bind_emit.
      match goal with
      | |- context [(tr ++ [?a]) ++ [?b]] =>
          destruct (Hk ((tr ++ [a]) ++ [b])) as (added & E & H);
            exists (a :: b :: added)
      end.
      split; [rewrite E at 1; rewrite <- !app_assoc; reflexivity|].
      apply preludeShape_step; [eexists; reflexivity|exact I|].
      apply preludeShape_step; [eexists; reflexivity|exact I|exact H].
    + rewrite bind_ret.
      match goal with
      | |- context [tr ++ [?a]] =>
          destruct (Hk (tr ++ [a])) as (added & E & H); exists (a :: added)
      end.
      split; [rewrite E at 1; rewrite <- !app_assoc; reflexivity|].
      apply preludeShape_step; [eexists; reflexivity|exact I|exact H].
  - eexists. split; [reflexivity|]. apply preludeShape_throw.
Qed.

(** X14. A call made before the loop over the targets (the request for the
    merge methods, the clone, the two settings of the global configuration)
    that throws is the last call of the run: the run ends with the value
    thrown, and no target was attempted before it. *)
Theorem failure_before_the_loop_ends_the_run (tr : list event)
    (pre post : list event) (c : call) (e : thrown) :
  snd (backport env i tr) = tr ++ pre ++ (c, Throws e) :: post ->
  preludeCall c ->
  post = [] /\
  fst (backport env i tr) = Throw e /\
  Forall (fun ev => notGroupCall (fst ev)) pre.
Proof.
  intros E Hc.
  destruct (backport_prelude_shape tr)
    as (added & Erun & rets & tail & -> & Hret & Hg & Htail).
  rewrite Erun in E. cbn [snd] in E. apply app_inv_head in E.
  destruct Htail as [(c0 & e0 & -> & Hr)|Htail].
  - destruct (first_throw_unique rets c0 e0 [] pre c e post Hret E)
      as [(-> & -> & -> & ->)|(pre' & _ & F)].
    + repeat split; assumption.
    + destruct pre'; discriminate.
  - exfalso.
    assert (Hin : In (c, Throws e) (rets ++ tail)).
    { rewrite E. apply in_or_app. right. left. reflexivity. }
    apply in_app_or in Hin as [Hin|Hin].
    + rewrite Forall_forall in Hret. destruct (Hret _ Hin) as [r Hr]. discriminate.
    + rewrite Forall_forall in Htail. exact (Htail _ Hin Hc).
Qed.

End Prelude.

Lemma failure_before_the_loop_ends_the_run_witness :
  fst (backport refusedCloneEnv mergedTwoTargets []) = Throw gitFailure.
Proof.
  apply (failure_before_the_loop_ends_the_run refusedCloneEnv mergedTwoTargets []
           [ (ReposGet "o" "r", Returns noData);
             (Info "Backporting abc from #42", Returns noData) ]
           []
           (Exec "git" ["clone"; "https://x-access-token:T@github.com/o/r.git"] None)
           gitFailure).
  - reflexivity.
  - exact I.
Defined.

Lemma backport_processes_parsed_targets_witness :
  exists prelude added,
    backport conflictInCloneEnv mergedTwoTargets [] = (Ok tt, [] ++ prelude ++ added) /\
    Forall notStartGroup prelude /\
    processedInOrder "r"
      (JS.Obj.entries (collectLabels "" 42 ["backport release-1"; "backport release-2"]))
      added.
Proof.
  apply (backport_processes_parsed_targets conflictInCloneEnv).
  - intros tr c [(body & n & owner & repo & ->)|(repo & base & head & ->)];
      exists noData; reflexivity.
  - intros tr c t H. unfold conflictInCloneEnv in H. destruct c; try discriminate.
    destruct cwd; [|discriminate].
    destruct (isCherryPick args); [|discriminate].
    injection H as <-. unfold gitFailure. eexists; eexists; reflexivity.
  - intros tr owner repo. exists noData. reflexivity.
  - intros tr args. exists noData. reflexivity.
  - reflexivity.
  - reflexivity.
  - discriminate.
Defined.

(** ** Failures inside the loop that end the run *)

Section Fatal.

Variables (env : environment) (i : backportInputs) (commitToBackport base head : string)
  (rest : list (string * string)).

(** X11. When [backportOnce] throws a value that is not an [Error], the
    run ends with a [TypeError] that names the type of the value: the group
    is closed, no comment is posted, no cleanup is made and the targets that
    follow are not attempted. *)
Theorem thrown_non_error_ends_the_run (tr tr1 : list event) (typeofError : string) :
  backportOnceFor env i commitToBackport base head
    (tr ++ [(StartGroup (groupName base head), Returns noData)])
    = (Throw (NonError typeofError), tr1) ->
  backportTargets env i commitToBackport ((base, head) :: rest) tr
  = (Throw (TypeError ("Caught error of unexpected type: " ++ typeofError)%string),
     tr1 ++ [(EndGroup, Returns noData)]).
Proof.
  intros H. unfold backportTargets. rewrite forOf_cons. unfold bind.
  rewrite backportTarget_run, tryBackport_run, H. reflexivity.
Qed.

(** X12. When the comment that reports a failed target cannot be posted,
    the value it throws ends the run: the group is closed, no cleanup is
    made and the targets that follow are not attempted. *)
Theorem refused_comment_ends_the_run (tr tr1 : list event) (name message : string)
    (e : thrown) :
  backportOnceFor env i commitToBackport base head
    (tr ++ [(StartGroup (groupName base head), Returns noData)])
    = (Throw (ErrorObject name message), tr1) ->
  env (tr1 ++ [(LogError (ErrorObject name message), Returns noData)])
    (commentCall i (getFailedBackportCommentBody base commitToBackport message head))
    = Throws e ->
  backportTargets env i commitToBackport ((base, head) :: rest) tr
  = (Throw e,
     tr1 ++ [ (LogError (ErrorObject name message), Returns noData);
              (commentCall i
                 (getFailedBackportCommentBody base commitToBackport message head),
               Throws e);
              (EndGroup, Returns noData) ]).
Proof.
  intros H Hc. unfold backportTargets. rewrite forOf_cons. unfold bind.
  rewrite backportTarget_run, tryBackport_run, H. cbv zeta. rewrite Hc.
  rewrite <- !app_assoc. reflexivity.
Qed.

End Fatal.

Lemma thrown_non_error_ends_the_run_witness :
  backportTargets thrownStringEnv mergedTwoTargets "abc"
    [("release-1", "backport-42-to-release-1"); ("release-2", "backport-42-to-release-2")] []
  = (Throw (TypeError "Caught error of unexpected type: string"),
     [ (StartGroup "Backporting to release-1 on backport-42-to-release-1", Returns noData);
       (switchCall "r" "release-1", Throws (NonError "string"));
       (EndGroup, Returns noData) ]).
Proof.
  apply (thrown_non_error_ends_the_run thrownStringEnv mergedTwoTargets "abc"
           "release-1" "backport-42-to-release-1"
           [("release-2", "backport-42-to-release-2")] []
           [ (StartGroup "Backporting to release-1 on backport-42-to-release-1",
              Returns noData);
             (switchCall "r" "release-1", Throws (NonError "string")) ]
           "string").
  reflexivity.
Defined.

Lemma refused_comment_ends_the_run_witness :
  fst (backportTargets refusedCommentEnv mergedTwoTargets "abc"
         [("release-1", "backport-42-to-release-1");
          ("release-2", "backport-42-to-release-2")] [])
  = Throw (ErrorObject "HttpError" "Forbidden").
Proof.
  rewrite (refused_comment_ends_the_run refusedCommentEnv mergedTwoTargets "abc"
             "release-1" "backport-42-to-release-1"
             [("release-2", "backport-42-to-release-2")] []
             (snd (backportOnceFor refusedCommentEnv mergedTwoTargets "abc" "release-1"
                     "backport-42-to-release-1"
                     [(StartGroup (groupName "release-1" "backport-42-to-release-1"),
                       Returns noData)]))
             "Error" "The process '/usr/bin/git' failed with exit code 1"
             (ErrorObject "HttpError" "Forbidden") eq_refl eq_refl).
  reflexivity.
Defined.

(** ** The cleanup and the procedure of one target *)

Section OnceMore.

Variable env : environment.

(** X13. In the cleanup, a merged-check that throws is read as "not
    merged": the cleanup returns and nothing else is called.  A check that
    returns is followed by the announcement and by the deletion of the head
    branch, and the cleanup throws only what the deletion throws. *)
Theorem cleanup_deletes_exactly_when_check_returns (base head owner : string)
    (pullRequestNumber : N) (repo : string) (tr : list event) :
  (forall t,
     env tr (PullsCheckIfMerged owner pullRequestNumber repo) = Throws t ->
     deleteBackportBranchIfMerged env base head owner pullRequestNumber repo tr
     = (Ok tt, tr ++ [(PullsCheckIfMerged owner pullRequestNumber repo, Throws t)])) /\
  (forall r,
     env tr (PullsCheckIfMerged owner pullRequestNumber repo) = Returns r ->
     exists o,
       deleteBackportBranchIfMerged env base head owner pullRequestNumber repo tr
       = (match o with Returns _ => Ok tt | Throws t => Throw t end,
          tr ++ [ (PullsCheckIfMerged owner pullRequestNumber repo, Returns r);
                  (Info "The backport PR is merged, deleting the backport branch",
                   Returns noData);
                  (deleteCall repo base head, o) ])).
Proof.
  split.
  - intros t H. rewrite deleteBackportBranchIfMerged_run. cbv zeta. rewrite H. reflexivity.
  - intros r H. rewrite deleteBackportBranchIfMerged_run. cbv zeta. rewrite H.
    eexists. rewrite <- app_assoc. reflexivity.
Qed.

Variables (base body commitToBackport : string) (filesToSkip : list string)
  (head : string) (labelsToAdd : list string) (owner repo title : string).

(** X9. When [backportOnce] returns, every call it made returned, and the
    calls are, in this order: the switch to the base, the creation of the
    head branch, the cherry-pick, one checkout per file to skip in the order
    of the list, the commit, the push, the creation of the pull request
    and, only when there are labels to add, the adding of the labels to the
    pull request just created.  The value returned is the number of that
    pull request. *)
Theorem backportOnce_returns_after_all_steps (tr tr' : list event) (n : N) :
  backportOnce env base body commitToBackport filesToSkip head labelsToAdd
    owner repo title tr = (Ok n, tr') ->
  exists evs r,
    tr' = tr ++ evs /\
    Forall returned evs /\
    In (PullsCreate base body head owner repo title, Returns r) evs /\
    data_number r = n /\
    map fst evs
    = [switchCall repo base; createBranchCall repo head;
       cherryPickCall repo commitToBackport]
        ++ map (checkoutCall repo) filesToSkip
        ++ [commitCall repo; pushCall repo head;
            PullsCreate base body head owner repo title]
        ++ (if (0 <? length labelsToAdd)%nat
            then [IssuesAddLabels n labelsToAdd owner repo]
            else []).
Proof.
  unfold backportOnce. rewrite bind_git. fold (switchCall repo base).
  destruct (env tr (switchCall repo base)) as [r1|t1]; [|discriminate].
  rewrite bind_git. fold (createBranchCall repo head).
  destruct (env _ (createBranchCall repo head)) as [r2|t2]; [|discriminate].
  unfold bind at 1. unfold tryCatch. rewrite pick_restore_commit.
  match goal with
  | |- context [performAll env ?cs ?t] =>
      destruct (performAll_spec env cs t)
        as [(evs & Hrun & Hcs & Hret & _)
           |(evs & c & e & rest & Hrun & _ & _ & _ & _)]; rewrite Hrun
  end.
  2:{ rewrite bind_git. destruct (env _ _); unfold throw; discriminate. }
  rewrite bind_git. fold (pushCall repo head).
  destruct (env _ (pushCall repo head)) as [r4|t4]; [|discriminate].
  rewrite bind_perform.
  destruct (env _ (PullsCreate base body head owner repo title)) as [r5|t5] eqn:E5;
    [|discriminate].
  cbv zeta. unfold bind at 1.
  destruct (0 <? length labelsToAdd)%nat.
  - rewrite bind_perform.
    destruct (env _ (IssuesAddLabels (data_number r5) labelsToAdd owner repo))
      as [r6|t6]; [|discriminate].
    unfold ret. intros [= <- <-].
    exists ([(switchCall repo base, Returns r1); (createBranchCall repo head, Returns r2)]
              ++ evs
              ++ [(pushCall repo head, Returns r4);
                  (PullsCreate base body head owner repo title, Returns r5);
                  (IssuesAddLabels (data_number r5) labelsToAdd owner repo, Returns r6)]),
      r5.
    split; [rewrite <- !app_assoc; reflexivity|].
    split.
    { apply Forall_app. split; [repeat constructor; eexists; reflexivity|].
      apply Forall_app. split; [exact Hret|repeat constructor; eexists; reflexivity]. }
    split.
    { apply in_or_app. right. apply in_or_app. right. right. left. reflexivity. }
    split; [reflexivity|].
    rewrite !map_app, Hcs. simpl. rewrite <- !app_assoc. reflexivity.
  - unfold ret. simpl. intros [= <- <-].
    exists ([(switchCall repo base, Returns r1); (createBranchCall repo head, Returns r2)]
              ++ evs
              ++ [(pushCall repo head, Returns r4);
                  (PullsCreate base body head owner repo title, Returns r5)]),
      r5.
    split; [rewrite <- !app_assoc; reflexivity|].
    split.
    { apply Forall_app. split; [repeat constructor; eexists; reflexivity|].
      apply Forall_app. split; [exact Hret|repeat constructor; eexists; reflexivity]. }
    split.
    { apply in_or_app. right. apply in_or_app. right. right. left. reflexivity. }
    split; [reflexivity|].
    rewrite !map_app, Hcs. simpl. rewrite <- !app_assoc. reflexivity.
Qed.

(** X10. A switch that throws ends [backportOnce] at once with the value
    thrown: when the base cannot be switched to, or when the head branch
    cannot be created (it exists already), nothing is cherry-picked,
    aborted or pushed. *)
Theorem failed_switch_ends_backportOnce (tr : list event) (e : thrown) :
  (env tr (switchCall repo base) = Throws e ->
   backportOnce env base body commitToBackport filesToSkip head labelsToAdd
     owner repo title tr
   = (Throw e, tr ++ [(switchCall repo base, Throws e)])) /\
  (forall r1,
     env tr (switchCall repo base) = Returns r1 ->
     env (tr ++ [(switchCall repo base, Returns r1)]) (createBranchCall repo head)
       = Throws e ->
     backportOnce env base body commitToBackport filesToSkip head labelsToAdd
       owner repo title tr
     = (Throw e,
        tr ++ [ (switchCall repo base, Returns r1);
                (createBranchCall repo head, Throws e) ])).
Proof.
  split.
  - intros H. unfold backportOnce. rewrite bind_git. fold (switchCall repo base).
    rewrite H. reflexivity.
  - intros r1 H1 H2. unfold backportOnce. rewrite bind_git. fold (switchCall repo base).
    rewrite H1. rewrite bind_git. fold (createBranchCall repo head). rewrite H2.
    rewrite <- app_assoc. reflexivity.
Qed.

End OnceMore.

Lemma cleanup_deletes_exactly_when_check_returns_witness :
  deleteBackportBranchIfMerged conflictEnv "release-2" "backport-42-to-release-2" "o" 43 "r" []
  = (Ok tt,
     [ (PullsCheckIfMerged "o" 43 "r", Throws (ErrorObject "HttpError" "Not Found")) ]).
Proof.
  apply (proj1 (cleanup_deletes_exactly_when_check_returns conflictEnv
                  "release-2" "backport-42-to-release-2" "o" 43 "r" [])).
  reflexivity.
Defined.

Lemma backportOnce_returns_after_all_steps_witness :
  exists evs r,
    snd (backportOnce conflictEnv "release-2" "Backport abc from #42" "abc"
           ["CHANGELOG.md"; "yarn.lock"] "backport-42-to-release-2" ["backport"] "o" "r"
           "[release-2] Fix bug" [])
    = [] ++ evs /\
    Forall returned evs /\
    In (PullsCreate "release-2" "Backport abc from #42" "backport-42-to-release-2" "o" "r"
          "[release-2] Fix bug", Returns r) evs /\
    data_number r = 43%N /\
    map fst evs
    = [switchCall "r" "release-2"; createBranchCall "r" "backport-42-to-release-2";
       cherryPickCall "r" "abc"]
        ++ map (checkoutCall "r") ["CHANGELOG.md"; "yarn.lock"]
        ++ [commitCall "r"; pushCall "r" "backport-42-to-release-2";
            PullsCreate "release-2" "Backport abc from #42" "backport-42-to-release-2"
              "o" "r" "[release-2] Fix bug"]
        ++ (if (0 <? length ["backport"])%nat
            then [IssuesAddLabels 43 ["backport"] "o" "r"]
            else []).
Proof.
  apply (backportOnce_returns_after_all_steps conflictEnv "release-2"
           "Backport abc from #42" "abc" ["CHANGELOG.md"; "yarn.lock"]
           "backport-42-to-release-2" ["backport"] "o" "r" "[release-2] Fix bug" []).
  reflexivity.
Defined.

Lemma failed_switch_ends_backportOnce_witness :
  backportOnce existingBranchEnv "release-1" "Backport abc from #42" "abc" ["CHANGELOG.md"]
    "backport-42-to-release-1" ["backport"] "o" "r" "[release-1] Fix bug" []
  = (Throw gitFailure,
     [] ++ [ (switchCall "r" "release-1", Returns noData);
             (createBranchCall "r" "backport-42-to-release-1", Throws gitFailure) ]).
Proof.
  apply (proj2 (failed_switch_ends_backportOnce existingBranchEnv "release-1"
                  "Backport abc from #42" "abc" ["CHANGELOG.md"]
                  "backport-42-to-release-1" ["backport"] "o" "r" "[release-1] Fix bug"
                  [] gitFailure) noData); reflexivity.
Defined.

(** ** More on the list parsers *)

Section ListRoundTrip.

Lemma contains_append c a b :
  JS.contains c (a ++ b)%string = (JS.contains c a || JS.contains c b)%bool.
Proof.
  induction a as [|d a IH]; simpl; [reflexivity|]. rewrite IH. apply orb_assoc.
Qed.

Lemma split_without sep s : Forall (without sep) (JS.split sep s).
Proof.
  induction s as [|c r IH]; simpl.
  - constructor; [reflexivity|constructor].
  - destruct (Ascii.eqb c sep) eqn:Ec.
    + constructor; [reflexivity|exact IH].
    + destruct (JS.split sep r) as [|h t].
      * constructor; [unfold without; simpl; rewrite Ec; reflexivity|constructor].
      * inversion IH as [|? ? Hh Ht]; subst.
        constructor; [|exact Ht]. unfold without in *. simpl. rewrite Ec. exact Hh.
Qed.

Lemma trimStart_without c s : without c s -> without c (JS.trimStart s).
Proof.
  unfold without. induction s as [|d r IH]; simpl; [tauto|].
  intros H. apply orb_false_iff in H as [Hd Hr].
  destruct (JS.isWhiteSpace d); [apply IH, Hr|]. simpl. rewrite Hd, Hr. reflexivity.
Qed.

Lemma trimEnd_without c s : without c s -> without c (JS.trimEnd s).
Proof.
  unfold without. induction s as [|d r IH]; simpl; [tauto|].
  intros H. apply orb_false_iff in H as [Hd Hr]. specialize (IH Hr).
  destruct (JS.trimEnd r) as [|d' r'].
  - destruct (JS.isWhiteSpace d); simpl; [reflexivity|]. rewrite Hd. reflexivity.
  - simpl in *. rewrite Hd. exact IH.
Qed.

Lemma trim_without c s : without c s -> without c (JS.trim s).
Proof. intros H. apply trimEnd_without, trimStart_without, H. Qed.

Lemma trimmedEntries_without input x :
  In x (trimmedEntries input) -> without "," x.
Proof.
  destruct input as [s|]; simpl; [|contradiction].
  rewrite filter_In, in_map_iff. intros [[y [<- Hy]] _].
  apply trim_without.
  pose proof (split_without "," s) as H. rewrite Forall_forall in H. apply H, Hy.
Qed.

Lemma trimStart_clean s : JS.startsWithWhiteSpace s = false -> JS.trimStart s = s.
Proof. destruct s as [|c r]; simpl; [reflexivity|]. intros ->. reflexivity. Qed.

Lemma trimEnd_clean s : JS.endsWithWhiteSpace s = false -> JS.trimEnd s = s.
Proof.
  induction s as [|c r IH]; [reflexivity|].
  intros H. simpl. destruct r as [|d r'].
  - simpl in *. rewrite H. reflexivity.
  - rewrite IH; [reflexivity|exact H].
Qed.

Lemma trim_clean s :
  JS.startsWithWhiteSpace s = false -> JS.endsWithWhiteSpace s = false -> JS.trim s = s.
Proof.
  intros H1 H2. unfold JS.trim. rewrite (trimStart_clean s H1). apply trimEnd_clean, H2.
Qed.

Lemma split_single sep x : without sep x -> JS.split sep x = [x].
Proof.
  unfold without. induction x as [|c r IH]; simpl; [reflexivity|].
  intros H. apply orb_false_iff in H as [Hc Hr]. rewrite Hc, (IH Hr). reflexivity.
Qed.

Lemma split_append sep x rest :
  without sep x ->
  JS.split sep (x ++ String sep rest)%string = x :: JS.split sep rest.
Proof.
  unfold without. induction x as [|c r IH]; simpl.
  - rewrite Ascii.eqb_refl. reflexivity.
  - intros H. apply orb_false_iff in H as [Hc Hr]. rewrite Hc, (IH Hr). reflexivity.
Qed.

Lemma split_join (l : list string) :
  l <> [] -> Forall (without ",") l -> JS.split "," (JS.join "," l) = l.
Proof.
  unfold JS.join. induction l as [|x l IH]; [contradiction|].
  intros _ H. inversion H as [|? ? Hx Hl]; subst.
  destruct l as [|y l].
  - simpl. apply split_single, Hx.
  - change (String.concat "," (x :: y :: l))
      with (x ++ String "," (String.concat "," (y :: l)))%string.
    rewrite (split_append "," x _ Hx). f_equal. apply IH; [discriminate|exact Hl].
Qed.

(** A list of trimmed, non-empty entries without a comma is read back from
    its comma-separated form. *)
Lemma trimmedEntries_join (l : list string) :
  (forall x, In x l ->
     x <> "" /\ JS.startsWithWhiteSpace x = false /\ JS.endsWithWhiteSpace x = false /\
     without "," x) ->
  trimmedEntries (Some (JS.join "," l)) = l.
Proof.
  intros H. destruct l as [|x0 l0] eqn:El; [reflexivity|]. rewrite <- El in *.
  unfold trimmedEntries. rewrite split_join.
  - assert (Hmap : map JS.trim l = l).
    { clear El. induction l as [|x l IH]; [reflexivity|]. simpl.
      destruct (H x (or_introl eq_refl)) as (_ & H1 & H2 & _).
      rewrite (trim_clean x H1 H2). f_equal. apply IH. intros y Hy. apply H. right; exact Hy. }
    rewrite Hmap. clear El Hmap. induction l as [|x l IH]; [reflexivity|]. simpl.
    destruct (H x (or_introl eq_refl)) as (Hne & _).
    unfold JS.truthy at 1. rewrite (eqb_empty_false x Hne). simpl. f_equal.
    apply IH. intros y Hy. apply H. right; exact Hy.
  - rewrite El. discriminate.
  - apply Forall_forall. intros x Hx. apply H, Hx.
Qed.

Lemma firstOccurrences_NoDup_same l : forall seen,
  NoDup l -> (forall x, In x l -> ~ In x seen) -> firstOccurrences seen l = l.
Proof.
  induction l as [|x l IH]; intros seen Hd Hs; simpl; [reflexivity|].
  inversion Hd as [|? ? Hx Hl]; subst.
  destruct (existsb (String.eqb x) seen) eqn:E.
  - apply existsb_eqb_In in E. exfalso. exact (Hs x (or_introl eq_refl) E).
  - f_equal. apply IH; [exact Hl|].
    intros y Hy [<-|Hin]; [contradiction|]. exact (Hs y (or_intror Hy) Hin).
Qed.

(** X1. What a list parser returns, joined with commas, is parsed into
    the same list: the result of either parser is a list the parser leaves as
    it is. *)
Theorem parsed_list_is_read_back (input : option string) :
  getFilesToSkip (Some (JS.join "," (getFilesToSkip input))) = getFilesToSkip input /\
  parseCommaDelimitedStrings (Some (JS.join "," (parseCommaDelimitedStrings input)))
  = parseCommaDelimitedStrings input.
Proof.
  rewrite !getFilesToSkip_trimmedEntries, !parse_firstOccurrences.
  assert (Hclean : forall x, In x (trimmedEntries input) ->
            x <> "" /\ JS.startsWithWhiteSpace x = false /\
            JS.endsWithWhiteSpace x = false /\ without "," x).
  { intros x Hx. destruct (trimmedEntries_clean input x Hx) as (H1 & H2 & H3).
    repeat split; try assumption. apply (trimmedEntries_without input x Hx). }
  split.
  - apply trimmedEntries_join, Hclean.
  - rewrite trimmedEntries_join.
    + apply firstOccurrences_NoDup_same; [apply firstOccurrences_NoDup|].
      intros x _ [].
    + intros x Hx. apply Hclean. apply firstOccurrences_In in Hx. apply Hx.
Qed.

(** X2. No entry returned by a list parser holds a comma: a file name or a
    label with a comma in it cannot be given. *)
Theorem parsed_entries_hold_no_comma (input : option string) (x : string) :
  In x (parseCommaDelimitedStrings input) \/ In x (getFilesToSkip input) ->
  JS.contains "," x = false.
Proof.
  rewrite getFilesToSkip_trimmedEntries, parse_firstOccurrences.
  intros [H|H].
  - apply firstOccurrences_In in H. apply (trimmedEntries_without input x), H.
  - apply (trimmedEntries_without input x), H.
Qed.

End ListRoundTrip.

Lemma parsed_entries_hold_no_comma_witness :
  JS.contains "," "b c" = false.
Proof.
  apply (parsed_entries_hold_no_comma (Some "a, b c ,") "b c").
  right. simpl. auto.
Defined.

(** ** More on the label parser *)

Section LabelsMore.

Import JS.

Variables (branchName : string) (pullRequestNumber : N).

(** X3. When the action is [labeled], the mapping is read from the label
    that was added and from nothing else: the other labels of the pull
    request do not matter, and the mapping has at most one entry. *)
Theorem labeled_reads_the_added_label_only (added : label) (labels : list label) :
  getBackportBaseToHead "labeled" branchName (Some added) labels pullRequestNumber
  = Ok (collectLabels branchName pullRequestNumber [name added]) /\
  length (Obj.entries (collectLabels branchName pullRequestNumber [name added])) <= 1.
Proof.
  split; [reflexivity|].
  rewrite (Permutation_length (entries_Permutation _)).
  unfold collectLabels. simpl. unfold addLabel.
  destruct (labelRegExp_exec (name added)) as [[b h]|]; [|simpl; lia].
  unfold Obj.set. destruct (b =? "__proto__")%string; simpl; lia.
Qed.

Lemma defineOwn_In k v o k' v' :
  In (k', v') (Obj.defineOwn k v o) -> (k', v') = (k, v) \/ In (k', v') o.
Proof.
  induction o as [|[k1 v1] o IH]; simpl.
  - intros [E|[]]. left. symmetry. exact E.
  - destruct (k1 =? k)%string; simpl.
    + intros [E|H]; [left; symmetry; exact E|right; right; exact H].
    + intros [E|H]; [right; left; exact E|].
      destruct (IH H) as [E|Hin]; [left; exact E|right; right; exact Hin].
Qed.

Lemma fold_addLabel_sound names : forall m base head,
  In (base, head) (fold_left (addLabel branchName pullRequestNumber) names m) ->
  In (base, head) m \/
  exists l h,
    In l names /\ labelRegExp_exec l = Some (base, h) /\
    head = resolvedHead branchName pullRequestNumber base h.
Proof.
  induction names as [|l names IH]; intros m base head H; simpl in H; [left; exact H|].
  destruct (IH _ _ _ H) as [Hin|(l' & h & Hl & E & Eh)].
  - unfold addLabel in Hin.
    destruct (labelRegExp_exec l) as [[b h]|] eqn:E; [|left; exact Hin].
    unfold Obj.set in Hin. destruct (b =? "__proto__")%string; [left; exact Hin|].
    apply defineOwn_In in Hin as [[= -> ->]|Hin]; [|left; exact Hin].
    right. exists l, h. split; [left; reflexivity|]. split; [exact E|reflexivity].
  - right. exists l', h. split; [right; exact Hl|]. split; assumption.
Qed.

Lemma addLabel_length m l :
  length (addLabel branchName pullRequestNumber m l) <= S (length m).
Proof.
  unfold addLabel. destruct (labelRegExp_exec l) as [[b h]|]; [|lia].
  unfold Obj.set. destruct (b =? "__proto__")%string; [lia|].
  induction m as [|[k v] m IHm]; simpl; [lia|].
  destruct (k =? b)%string; simpl; lia.
Qed.

Lemma fold_addLabel_length names : forall m,
  length (fold_left (addLabel branchName pullRequestNumber) names m)
  <= length m + length names.
Proof.
  induction names as [|l names IH]; intros m; simpl; [lia|].
  specialize (IH (addLabel branchName pullRequestNumber m l)).
  pose proof (addLabel_length m l). lia.
Qed.

(** X5. Every entry of the mapping comes from a label: its base is the
    first token of a label that matches the pattern, a non-empty string
    without a space, and its head is the second token of that label, or the
    default head when the label has none.  The mapping has no more entries
    than there are labels. *)
Theorem mapping_entries_come_from_labels (names : list string) (base head : string) :
  In (base, head) (Obj.entries (collectLabels branchName pullRequestNumber names)) ->
  (exists l h,
     In l names /\ labelShape l base h /\
     head = resolvedHead branchName pullRequestNumber base h) /\
  isToken base /\
  length (Obj.entries (collectLabels branchName pullRequestNumber names)) <= length names.
Proof.
  intros H.
  assert (Hin : In (base, head) (collectLabels branchName pullRequestNumber names)).
  { revert H. apply Permutation_in, entries_Permutation. }
  destruct (fold_addLabel_sound names _ _ _ Hin) as [[]|(l & h & Hl & E & Eh)].
  apply labelRegExp_exec_sound in E.
  split; [exists l, h; repeat split; assumption|].
  split; [inversion E; assumption|].
  rewrite (Permutation_length (entries_Permutation _)).
  unfold collectLabels. apply (fold_addLabel_length names Obj.empty).
Qed.

End LabelsMore.

Lemma mapping_entries_come_from_labels_witness :
  (exists l h,
     In l ["backport 1.x"; "backport"; "backport 2.x custom-head"] /\
     labelShape l "2.x" h /\
     "custom-head" = resolvedHead "" 42 "2.x" h) /\
  isToken "2.x" /\
  length
    (JS.Obj.entries
       (collectLabels "" 42 ["backport 1.x"; "backport"; "backport 2.x custom-head"]))
  <= length ["backport 1.x"; "backport"; "backport 2.x custom-head"].
Proof.
  apply (mapping_entries_come_from_labels "" 42
           ["backport 1.x"; "backport"; "backport 2.x custom-head"] "2.x" "custom-head").
  simpl. auto.
Defined.

Lemma last_label_wins_witness :
  NoDup
    (map fst
       (JS.Obj.entries
          (collectLabels "" 42
             (["backport 1.x"; "backport 2.x custom-head"] ++ "backport 1.x late" :: [])))) /\
  (forall v,
     In ("1.x", v)
       (JS.Obj.entries
          (collectLabels "" 42
             (["backport 1.x"; "backport 2.x custom-head"] ++ "backport 1.x late" :: [])))
     <-> v = resolvedHead "" 42 "1.x" (Some "late")).
Proof.
  apply (last_label_wins "" 42 ["backport 1.x"; "backport 2.x custom-head"]
           "backport 1.x late" [] "1.x" (Some "late")).
  - reflexivity.
  - discriminate.
  - intros l' h' [].
Defined.

Lemma backportTitle_plain_witness :
  backportTitle "[{{base}}] {{originalTitle}} ({{base}})" "1.x" "Fix bug"
  = JS.substituteAll "{{originalTitle}}" "Fix bug"
      (JS.substituteAll "{{base}}" "1.x" "[{{base}}] {{originalTitle}} ({{base}})").
Proof.
  apply (backportTitle_plain "[{{base}}] {{originalTitle}} ({{base}})" "1.x" "Fix bug");
    reflexivity.
Defined.

(** ** Events the action does not act on, templates without placeholders *)

Section Untouched.

(** X4. On an action other than [closed] and [labeled], a run makes no
    call and returns, whatever the labels of the pull request and whether it
    is merged or not. *)
Theorem other_actions_make_no_call (env : environment) (i : backportInputs)
    (tr : list event) :
  action (payload i) <> "closed" ->
  action (payload i) <> "labeled" ->
  backport env i tr = (Ok tt, tr).
Proof.
  intros Hc Hl. unfold backport.
  destruct (negb (merged (pull_request (payload i)))); [reflexivity|].
  unfold getBackportBaseToHead, getLabelNames.
  rewrite (proj2 (String.eqb_neq _ _) Hc), (proj2 (String.eqb_neq _ _) Hl).
  reflexivity.
Qed.

Lemma prefix_brace_false p s :
  without "{" s -> prefix (String "{" p) s = false.
Proof.
  unfold without. destruct s as [|c r]; [reflexivity|].
  intros H.
  change (prefix (String "{" p) (String c r))
    with (match ascii_dec "{" c with left _ => prefix p r | right _ => false end).
  destruct (ascii_dec "{" c) as [<-|_]; [|reflexivity].
  cbn [JS.contains] in H. rewrite Ascii.eqb_refl in H. discriminate.
Qed.

Lemma replaceFrom_no_brace p replacement s : forall before,
  without "{" s -> JS.replaceFrom (String "{" p) replacement 0 before s = s.
Proof.
  induction s as [|c r IH]; intros before H; [reflexivity|].
  cbn [JS.replaceFrom]. rewrite (prefix_brace_false p _ H).
  f_equal. apply IH. unfold without in *. simpl in H.
  apply orb_false_iff in H as [_ Hr]. exact Hr.
Qed.

(** X8. A title template without an opening brace is the title of every
    new pull request, whatever the base and the original title are, dollar
    signs included. *)
Theorem template_without_placeholder_is_the_title
    (titleTemplate base originalTitle : string) :
  JS.contains "{" titleTemplate = false ->
  backportTitle titleTemplate base originalTitle = titleTemplate.
Proof.
  intros H. unfold backportTitle. rewrite title_entries. cbn [fold_left].
  unfold JS.replaceGlobal.
  change ("{{" ++ "base" ++ "}}")%string with (String "{" "{base}}").
  change ("{{" ++ "originalTitle" ++ "}}")%string with (String "{" "{originalTitle}}").
  rewrite (replaceFrom_no_brace _ _ _ _ H). apply replaceFrom_no_brace, H.
Qed.

End Untouched.

Lemma other_actions_make_no_call_witness :
  backport conflictEnv editedMerged [] = (Ok tt, []).
Proof.
  apply (other_actions_make_no_call conflictEnv editedMerged []); discriminate.
Defined.

Lemma template_without_placeholder_is_the_title_witness :
  backportTitle "Backport of a merged change" "1.x" "Quote '$' in paths"
  = "Backport of a merged change".
Proof.
  apply (template_without_placeholder_is_the_title "Backport of a merged change" "1.x"
           "Quote '$' in paths").
  reflexivity.
Defined.

(** ** The order of the targets and the failures that stop the loop *)

(** C3, as stated, fails. The deletion of branches is disabled; the
    cherry-pick onto [release-1] meets a conflict, an [Error] thrown by
    [backportOnce], and the comment that reports it is refused: the run ends
    with the value the comment call throws, and [release-2] is not
    attempted. *)
Lemma refused_comment_keeps_next_target_from_being_attempted :
  fst (backportOnceFor refusedCommentEnv twoTargetsNoDeletion "abc" "release-1"
         "backport-42-to-release-1"
         [(StartGroup (groupName "release-1" "backport-42-to-release-1"), Returns noData)])
  = Throw gitFailure /\
  backportTargets refusedCommentEnv twoTargetsNoDeletion "abc"
    [("release-1", "backport-42-to-release-1"); ("release-2", "backport-42-to-release-2")]
    []
  = (Throw (ErrorObject "HttpError" "Forbidden"),
     [ (StartGroup "Backporting to release-1 on backport-42-to-release-1", Returns noData);
       (switchCall "r" "release-1", Returns noData);
       (createBranchCall "r" "backport-42-to-release-1", Returns noData);
       (cherryPickCall "r" "abc", Throws gitFailure);
       (abortCall "r", Returns noData);
       (LogError gitFailure, Returns noData);
       (commentCall twoTargetsNoDeletion
          (getFailedBackportCommentBody "release-1" "abc"
             "The process '/usr/bin/git' failed with exit code 1"
             "backport-42-to-release-1"),
        Throws (ErrorObject "HttpError" "Forbidden"));
       (EndGroup, Returns noData) ]) /\
  ~ In (switchCall "r" "release-2")
      (map fst
         (snd (backportTargets refusedCommentEnv twoTargetsNoDeletion "abc"
                 [("release-1", "backport-42-to-release-1");
                  ("release-2", "backport-42-to-release-2")] []))).
Proof.
  split; [reflexivity|]. split; [reflexivity|].
  vm_compute. intros H.
  repeat (destruct H as [H|H]; [discriminate|]). exact H.
Qed.

Section Order.

Variables (env : environment) (i : backportInputs) (commitToBackport : string).

Let repo := repository_name (payload_repository (payload i)).

Lemma notGroupCall_notStartGroup (l : list event) :
  Forall (fun ev => notGroupCall (fst ev)) l -> Forall notStartGroup l.
Proof.
  apply Forall_impl. intros [c o] H name E. simpl in *. subst c. exact H.
Qed.

(** The [try]/[catch] of a target starts with the switch to its base. *)
Lemma tryBackport_opens base head tr :
  exists o rest,
    snd (tryBackport env i commitToBackport base head tr)
    = tr ++ (switchCall repo base, o) :: rest /\
    Forall notStartGroup rest.
Proof.
  destruct (tryBackport_calls env i commitToBackport base head tr) as (added & E & H).
  assert (Hhead : exists o rest,
            snd (tryBackport env i commitToBackport base head tr)
            = tr ++ (switchCall repo base, o) :: rest).
  { rewrite tryBackport_run. unfold backportOnceFor.
    match goal with
    | |- context [backportOnce env ?b ?bd ?cm ?fs ?h ?ls ?ow ?rp ?ti tr] =>
        destruct (backportOnce_shape env b bd cm fs h ls ow rp ti tr)
          as (r & added0 & Hrun & (o & rest & ->) & _)
    end.
    rewrite Hrun. destruct r as [n|[name message|ty]]; cbv zeta; cbn [snd].
    - exists o, rest. reflexivity.
    - eexists o, (rest ++ [_; _]). rewrite <- !app_assoc. reflexivity.
    - exists o, rest. reflexivity. }
  destruct Hhead as (o & rest & Eh). exists o, rest. split; [exact Eh|].
  rewrite Eh in E. apply app_inv_head in E. subst added.
  inversion H as [|? ? _ Hrest]; subst.
  apply notGroupCall_notStartGroup. revert Hrest. apply Forall_impl.
  intros ev [_ Hg]. exact Hg.
Qed.

(** One turn of the loop opens the group of its target, switches to its
    base and opens no other group, whatever the outside answers. *)
Lemma backportTarget_opens base head tr :
  exists o seg,
    snd (backportTarget env i commitToBackport (base, head) tr)
    = tr ++ (StartGroup (groupName base head), Returns noData)
         :: (switchCall repo base, o) :: seg /\
    Forall notStartGroup seg.
Proof.
  unfold backportTarget, group. unfold bind at 1. rewrite bind_emit. unfold tryFinally.
  destruct (tryBackport_opens base head
              (tr ++ [(StartGroup (groupName base head), Returns noData)]))
    as (o & rest & E1 & H1).
  destruct (tryBackport _ _ _ _ _ _) as [[[]|t] tr1]; cbn [snd] in E1; subst tr1.
  - unfold emit at 1.
    destruct (afterGroup_calls env i commitToBackport base head
                (((tr ++ [(StartGroup (groupName base head), Returns noData)])
                    ++ (switchCall repo base, o) :: rest) ++ [(EndGroup, Returns noData)]))
      as (after & E2 & H2).
    exists o, (rest ++ (EndGroup, Returns noData) :: after).
    unfold repo in *. rewrite E2, <- !app_assoc. simpl. split; [reflexivity|].
    apply Forall_app. split; [exact H1|].
    constructor; [intros name; discriminate|].
    apply notGroupCall_notStartGroup. revert H2. apply Forall_impl.
    intros ev [_ Hg]. exact Hg.
  - exists o, (rest ++ [(EndGroup, Returns noData)]).
    unfold emit. simpl. rewrite <- !app_assoc. simpl. split; [reflexivity|].
    apply Forall_app. split; [exact H1|].
    constructor; [intros name; discriminate|constructor].
Qed.

(** What a run attempts is an initial stretch of the list of targets, in
    the order of the list, and all of it when the loop returns. *)
Lemma backportTargets_initial_stretch targets : forall tr,
  exists k added,
    k <= length targets /\
    snd (backportTargets env i commitToBackport targets tr) = tr ++ added /\
    processedInOrder repo (firstn k targets) added /\
    (fst (backportTargets env i commitToBackport targets tr) = Ok tt ->
     k = length targets).
Proof.
  unfold backportTargets.
  induction targets as [|[base head] targets IH]; intros tr.
  - exists 0, []. rewrite app_nil_r. repeat split; constructor.
  - rewrite forOf_cons. unfold bind.
    destruct (backportTarget_opens base head tr) as (o & seg & E & Hseg).
    destruct (backportTarget env i commitToBackport (base, head) tr) as [[u|t] tr1];
      cbn [snd] in E; subst tr1.
    + destruct (IH (tr ++ (StartGroup (groupName base head), Returns noData)
                       :: (switchCall repo base, o) :: seg))
        as (k & added & Hk & E' & Hproc & Hok).
      exists (S k),
        ((StartGroup (groupName base head), Returns noData)
           :: (switchCall repo base, o) :: seg ++ added).
      split; [simpl; lia|].
      split; [rewrite E', <- app_assoc; reflexivity|].
      split; [simpl firstn; apply processed_cons; assumption|].
      intros H. simpl. f_equal. apply Hok, H.
    + exists 1,
        ((StartGroup (groupName base head), Returns noData)
           :: (switchCall repo base, o) :: seg ++ []).
      split; [simpl; lia|].
      split; [rewrite app_nil_r; reflexivity|].
      split; [simpl firstn; apply processed_cons; [exact Hseg|constructor]|].
      cbn [fst]. discriminate.
Qed.

(** C3, amended. The targets are taken one at a time, in the order in
    which [Object.entries] lists them: what a run attempts is an initial
    stretch of that order, each target by opening its group and switching to
    its base, and all of them when the loop returns.  With the deletion of
    branches disabled, an [Error] thrown by [backportOnce] for a target whose
    failure comment is posted does not keep the next targets from being
    attempted: the loop goes on with them. *)
Theorem targets_in_order_and_reported_failure_does_not_stop_the_loop :
  (forall (backportBaseToHead : JS.Obj.t) tr,
     exists k added,
       k <= length (JS.Obj.entries backportBaseToHead) /\
       snd (backportTargets env i commitToBackport (JS.Obj.entries backportBaseToHead) tr)
       = tr ++ added /\
       processedInOrder repo (firstn k (JS.Obj.entries backportBaseToHead)) added /\
       (fst (backportTargets env i commitToBackport (JS.Obj.entries backportBaseToHead) tr)
        = Ok tt ->
        k = length (JS.Obj.entries backportBaseToHead))) /\
  (forall base head rest tr tr1 name message ret,
     deleteBranch i = false ->
     backportOnceFor env i commitToBackport base head
       (tr ++ [(StartGroup (groupName base head), Returns noData)])
       = (Throw (ErrorObject name message), tr1) ->
     env (tr1 ++ [(LogError (ErrorObject name message), Returns noData)])
       (commentCall i (getFailedBackportCommentBody base commitToBackport message head))
       = Returns ret ->
     backportTargets env i commitToBackport ((base, head) :: rest) tr
     = backportTargets env i commitToBackport rest
         (tr1 ++ [ (LogError (ErrorObject name message), Returns noData);
                   (commentCall i
                      (getFailedBackportCommentBody base commitToBackport message head),
                    Returns ret);
                   (EndGroup, Returns noData) ])) /\
  (forall base head rest tr,
     exists o more,
       snd (backportTargets env i commitToBackport ((base, head) :: rest) tr)
       = tr ++ (StartGroup (groupName base head), Returns noData)
            :: (switchCall repo base, o) :: more).
Proof.
  split; [|split].
  - intros m tr. apply backportTargets_initial_stretch.
  - intros base head rest tr tr1 name message ret Hd Hrun Hc.
    unfold backportTargets. rewrite forOf_cons. unfold bind.
    rewrite backportTarget_run, tryBackport_run, Hrun. cbv zeta. rewrite Hc, Hd.
    rewrite <- !app_assoc. reflexivity.
  - intros base head rest tr.
    destruct (backportTargets_initial_stretch ((base, head) :: rest) tr)
      as (k & added & _ & E & Hproc & _).
    destruct (backportTarget_opens base head tr) as (o & seg & E1 & _).
    unfold backportTargets in *. rewrite forOf_cons in *. unfold bind in *.
    destruct (backportTarget env i commitToBackport (base, head) tr) as [[u|t] tr1];
      cbn [snd] in E1; subst tr1.
    + destruct (backportTargets_target_calls env i commitToBackport rest
                  (tr ++ (StartGroup (groupName base head), Returns noData)
                      :: (switchCall repo base, o) :: seg))
        as (more & Em & _).
      unfold backportTargets in Em. exists o, (seg ++ more).
      rewrite Em, <- app_assoc. reflexivity.
    + exists o, seg. reflexivity.
Qed.

End Order.

Lemma targets_in_order_and_reported_failure_does_not_stop_the_loop_witness :
  backportTargets conflictEnv twoTargetsNoDeletion "abc"
    [("release-1", "backport-42-to-release-1"); ("release-2", "backport-42-to-release-2")]
    []
  = backportTargets conflictEnv twoTargetsNoDeletion "abc"
      [("release-2", "backport-42-to-release-2")]
      ([ (StartGroup (groupName "release-1" "backport-42-to-release-1"), Returns noData);
         (switchCall "r" "release-1", Returns noData);
         (createBranchCall "r" "backport-42-to-release-1", Returns noData);
         (cherryPickCall "r" "abc", Throws gitFailure);
         (abortCall "r", Returns noData) ]
         ++ [ (LogError gitFailure, Returns noData);
              (commentCall twoTargetsNoDeletion
                 (getFailedBackportCommentBody "release-1" "abc"
                    "The process '/usr/bin/git' failed with exit code 1"
                    "backport-42-to-release-1"),
               Returns noData);
              (EndGroup, Returns noData) ]).
Proof.
  apply (proj1 (proj2 (targets_in_order_and_reported_failure_does_not_stop_the_loop
                         conflictEnv twoTargetsNoDeletion "abc"))
           "release-1" "backport-42-to-release-1"
           [("release-2", "backport-42-to-release-2")] []
           [ (StartGroup (groupName "release-1" "backport-42-to-release-1"), Returns noData);
             (switchCall "r" "release-1", Returns noData);
             (createBranchCall "r" "backport-42-to-release-1", Returns noData);
             (cherryPickCall "r" "abc", Throws gitFailure);
             (abortCall "r", Returns noData) ]
           "Error" "The process '/usr/bin/git' failed with exit code 1" noData);
    reflexivity.
Defined.

Example failed_target_then_next_target :
  map fst
    (snd (backportTargets conflictEnv twoTargetsNoDeletion "abc"
            [("release-1", "backport-42-to-release-1");
             ("release-2", "backport-42-to-release-2")] []))
  = [ StartGroup "Backporting to release-1 on backport-42-to-release-1";
      switchCall "r" "release-1";
      createBranchCall "r" "backport-42-to-release-1";
      cherryPickCall "r" "abc";
      abortCall "r";
      LogError gitFailure;
      commentCall twoTargetsNoDeletion
        (getFailedBackportCommentBody "release-1" "abc"
           "The process '/usr/bin/git' failed with exit code 1" "backport-42-to-release-1");
      EndGroup;
      StartGroup "Backporting to release-2 on backport-42-to-release-2";
      switchCall "r" "release-2";
      createBranchCall "r" "backport-42-to-release-2";
      cherryPickCall "r" "abc";
      checkoutCall "r" "CHANGELOG.md";
      commitCall "r";
      pushCall "r" "backport-42-to-release-2";
      PullsCreate "release-2" "Backport abc from #42" "backport-42-to-release-2" "o" "r"
        "[release-2] Fix bug";
      IssuesAddLabels 43 ["backport"] "o" "r";
      EndGroup ].
Proof. reflexivity. Qed.

(** C4. The cherry-pick meets a conflict and throws; the abort is made, as
    the claim says, but it fails too, and [backportOnce] ends with the value
    the abort threw: the value the cherry-pick threw does not reach the
    caller, and the comment on the pull request reports the failure of the
    abort. *)
Theorem failing_abort_replaces_the_error_of_the_step :
  backportOnce abortFailsEnv "release-1" "Backport abc from #42" "abc" ["CHANGELOG.md"]
    "backport-42-to-release-1" ["backport"] "o" "r" "[release-1] Fix bug" []
  = (Throw abortFailure,
     [ (switchCall "r" "release-1", Returns noData);
       (createBranchCall "r" "backport-42-to-release-1", Returns noData);
       (cherryPickCall "r" "abc", Throws gitFailure);
       (abortCall "r", Throws abortFailure) ]) /\
  gitFailure <> abortFailure /\
  map fst
    (snd (backportTarget abortFailsEnv twoTargetsNoDeletion "abc"
            ("release-1", "backport-42-to-release-1") []))
  = [ StartGroup "Backporting to release-1 on backport-42-to-release-1";
      switchCall "r" "release-1";
      createBranchCall "r" "backport-42-to-release-1";
      cherryPickCall "r" "abc";
      abortCall "r";
      LogError abortFailure;
      commentCall twoTargetsNoDeletion
        (getFailedBackportCommentBody "release-1" "abc"
           "The process '/usr/bin/git' failed with exit code 128"
           "backport-42-to-release-1");
      EndGroup ].
Proof. split; [reflexivity|]. split; [discriminate|reflexivity]. Qed.
